(** * Goodreads scraper: a shallow embedding and its verified properties

    The development follows the four Python modules of the repository:
    - [scraper.py] / [books_scraper.py]: the detail-page pipeline
      (URL validation, retrying fetcher, field extractors, the scraper of
      one page and of a batch, title deduplication, JSON store);
    - [url.py] / [url_scraper.py]: the listing-page crawler and the file
      it writes.

    Conventions.  A Python [str] is modelled by the [string] of the bytes
    of its UTF-8 encoding, so that a text of ASCII characters is modelled
    character by character.  The character classes [\d], [\s], [\w],
    [\b] and [str.isdigit] are those of ASCII text and [len] counts bytes:
    on a text with other characters Python follows the Unicode tables,
    and the statements on what the extractors read in a text are made
    for ASCII text.  Python [int] is [Z].  A [set] is a [gset], a list is a [list], a [dict] built
    with a fixed set of keys is a record.  The network, the HTML parser,
    the clock and the file system are explicit arguments: a function that
    reads them receives what they answer, an exception included. *)

From Stdlib Require Import ZArith Lia Ascii.
From stdpp Require Import base decidable option list gmap strings sorting pretty.

Local Open Scope Z_scope.

Set Warnings "-clear-no-such-hyp".

(** ** Book records *)

(** A Python [float] is kept as its IEEE-754 binary64 bit pattern. *)
Definition float64 := Z.

(** [pages] is either the parsed integer or the literal text ["N/A"]. *)
Inductive pages_value :=
| PagesInt (n : Z)
| PagesText (s : string).

(** The dictionary built by [scrape_goodreads_book] in [scraper.py]
    (the variant of [books_scraper.py] has a subset of these keys). *)
Record book := Book {
  title : string;
  authorName : string;
  description : string;
  isbn : string;
  publication : string;
  pages : pages_value;
  category : list string;
  likes : Z;
  averageRating : float64;
  totalRating : Z;
  totalReview : Z;
  price : Z;
  stock : Z;
  imageURL : string
}.

(** A record with the given title and fixed other fields, for examples. *)
Definition sample_book (t a : string) : book :=
  Book t a "N/A" "N/A" "N/A" (PagesText "N/A") ["General"] 1 0 0 0 10000 1 "".

(** ** Deduplication by title ([remove_duplicates]) *)

Module Dedup.

(** The [for book in data] loop, with its two loop-carried variables
    [seen] and [unique_books]. *)
Fixpoint remove_duplicates_loop (data : list book) (seen : gset string)
    (unique_books : list book) : list book :=
  match data with
  | [] => unique_books
  | b :: rest =>
      if decide (title b ∈ seen)
      then remove_duplicates_loop rest seen unique_books
      else remove_duplicates_loop rest ({[title b]} ∪ seen) (unique_books ++ [b])
  end.

Definition remove_duplicates (data : list book) : list book :=
  remove_duplicates_loop data ∅ [].

(** [j] is a position of [data] whose title occurs at no earlier position. *)
Definition first_occurrence (data : list book) (j : nat) : Prop :=
  ∃ b, data !! j = Some b ∧
       ∀ k c, (k < j)%nat → data !! k = Some c → title c ≠ title b.

End Dedup.

(** ** Exceptions

    Python exceptions that the modelled code can meet, and the monad of
    computations that either return or raise. *)

Inductive exn :=
| FileNotFoundError
| OSError
| JSONDecodeError
| TypeError
| ValueError
| OverflowError
| IndexError
| RequestException
| ParserRejectedMarkup.

Inductive result (A : Type) :=
| Ok (a : A)
| Raise (e : exn).
Arguments Ok {A} a.
Arguments Raise {A} e.

Definition bind {A B} (c : result A) (k : A → result B) : result B :=
  match c with
  | Ok a => k a
  | Raise e => Raise e
  end.

Notation "'let*' x ':=' c 'in' k" := (bind c (λ x, k))
  (at level 10, x name, c at level 100, k at level 200).

(** [try: c except e: h] for a single exception class. *)
Definition try_except {A} (c : result A) (cls : exn → bool) (h : result A)
    : result A :=
  match c with
  | Ok a => Ok a
  | Raise e => if cls e then h else Raise e
  end.

(** Log records of the [logging] module: level, message and, for a
    message formatted with a caught exception, that exception. *)
Inductive log_record :=
| LogInfo (msg : string)
| LogWarning (msg : string)
| LogError (msg : string) (cause : option exn).

(** ** Python string operations *)

Module PyStr.

Definition code (c : ascii) : N := N_of_ascii c.

Definition in_range (lo hi : N) (c : ascii) : bool :=
  (lo <=? code c)%N && (code c <=? hi)%N.

(** [c.isascii()], and a text of ASCII characters only. *)
Definition is_ascii (c : ascii) : bool := (code c <? 128)%N.

(** The classes [\d] and [str.isdigit], [str.isalpha], [\s] and the
    blanks of [str.split()], [\w], as they are on ASCII characters.  (On
    other characters Python follows the Unicode tables; a character
    outside ASCII is several bytes here.) *)
Definition is_digit (c : ascii) : bool := in_range 48 57 c.
Definition is_upper (c : ascii) : bool := in_range 65 90 c.
Definition is_lower (c : ascii) : bool := in_range 97 122 c.
Definition is_alpha (c : ascii) : bool := is_upper c || is_lower c.
Definition is_space (c : ascii) : bool :=
  in_range 9 13 c || in_range 28 32 c.
Definition is_word (c : ascii) : bool :=
  is_alpha c || is_digit c || bool_decide (c = "_"%char).

Definition lower_char (c : ascii) : ascii :=
  if is_upper c then ascii_of_N (code c + 32) else c.

Fixpoint map_chars (f : ascii → ascii) (s : string) : string :=
  match s with
  | EmptyString => EmptyString
  | String c s' => String (f c) (map_chars f s')
  end.

Fixpoint filter_chars (p : ascii → bool) (s : string) : string :=
  match s with
  | EmptyString => EmptyString
  | String c s' =>
      if p c then String c (filter_chars p s') else filter_chars p s'
  end.

Fixpoint all_chars (p : ascii → bool) (s : string) : bool :=
  match s with
  | EmptyString => true
  | String c s' => p c && all_chars p s'
  end.

(** [c in s] *)
Fixpoint contains (c : ascii) (s : string) : bool :=
  match s with
  | EmptyString => false
  | String a s' => bool_decide (a = c) || contains c s'
  end.

(** [s.lower()] *)
Definition lower (s : string) : string := map_chars lower_char s.

(** [s.isascii()] *)
Definition ascii_text (s : string) : bool := all_chars is_ascii s.

(** [s.replace(a, b)] for single characters. *)
Definition replace_char (a b : ascii) (s : string) : string :=
  map_chars (λ c, if bool_decide (c = a) then b else c) s.

(** [s.startswith(p)] *)
Fixpoint starts_with (p s : string) : bool :=
  match p, s with
  | EmptyString, _ => true
  | String a p', String b s' => bool_decide (a = b) && starts_with p' s'
  | String _ _, EmptyString => false
  end.

(** [s[n:]] *)
Fixpoint drop (n : nat) (s : string) : string :=
  match n, s with
  | O, _ => s
  | S n', String _ s' => drop n' s'
  | S _, EmptyString => EmptyString
  end.

(** [s[:n]] *)
Fixpoint take (n : nat) (s : string) : string :=
  match n, s with
  | O, _ => EmptyString
  | S n', String c s' => String c (take n' s')
  | S _, EmptyString => EmptyString
  end.

(** The longest prefix of characters satisfying [p], and the rest. *)
Fixpoint span (p : ascii → bool) (s : string) : string * string :=
  match s with
  | EmptyString => (EmptyString, EmptyString)
  | String c s' =>
      if p c then let '(a, b) := span p s' in (String c a, b)
      else (EmptyString, s)
  end.

(** [s.lstrip(chars)] *)
Definition lstrip (p : ascii → bool) (s : string) : string := (span p s).2.

(** The split of [s] at the first [c]: [Some (s[:i], s[i+1:])] with
    [i = s.find(c)], or [None] when [c] does not occur
    ([s.split(c, 1)], [s.partition(c)]). *)
Fixpoint partition (c : ascii) (s : string) : option (string * string) :=
  match s with
  | EmptyString => None
  | String a s' =>
      if bool_decide (a = c) then Some (EmptyString, s')
      else match partition c s' with
           | Some (pre, post) => Some (String a pre, post)
           | None => None
           end
  end.

(** The split of [s] at the last [c] ([s.rfind(c)]). *)
Fixpoint rpartition (c : ascii) (s : string) : option (string * string) :=
  match s with
  | EmptyString => None
  | String a s' =>
      match rpartition c s' with
      | Some (pre, post) => Some (String a pre, post)
      | None => if bool_decide (a = c) then Some (EmptyString, s') else None
      end
  end.

(** [s.split(c)] *)
Fixpoint split (c : ascii) (s : string) : list string :=
  match s with
  | EmptyString => [EmptyString]
  | String a s' =>
      if bool_decide (a = c) then EmptyString :: split c s'
      else match split c s' with
           | w :: ws => String a w :: ws
           | [] => [String a EmptyString]
           end
  end.

(** [sep.join(l)] *)
Fixpoint join (sep : string) (l : list string) : string :=
  match l with
  | [] => EmptyString
  | [w] => w
  | w :: ws => w +:+ sep +:+ join sep ws
  end.

End PyStr.

(** ** URLs ([urllib.parse]) and [update_pagination_url]

    The functions of [urllib.parse] that [update_pagination_url] calls,
    after CPython 3.11.  Two validations of [urlsplit] rest on Unicode and
    IP-address tables and are taken as parameters. *)

Module Url.
Import PyStr.

Record ParseResult := mkParseResult {
  scheme : string;
  netloc : string;
  path : string;
  params : string;
  query : string;
  fragment : string
}.

(** [parsed._replace(query=q)] *)
Definition replace_query (p : ParseResult) (q : string) : ParseResult :=
  mkParseResult (scheme p) (netloc p) (path p) (params p) q (fragment p).

Definition uses_netloc : list string :=
  [""; "ftp"; "http"; "gopher"; "nntp"; "telnet"; "imap"; "wais"; "file";
   "mms"; "https"; "shttp"; "snews"; "prospero"; "rtsp"; "rtspu"; "rsync";
   "svn"; "svn+ssh"; "sftp"; "nfs"; "git"; "git+ssh"; "ws"; "wss"].

Definition uses_params : list string :=
  [""; "ftp"; "hdl"; "prospero"; "http"; "imap"; "https"; "shttp"; "rtsp";
   "rtspu"; "sip"; "sips"; "mms"; "sftp"; "tel"].

Definition scheme_char (c : ascii) : bool :=
  is_alpha c || is_digit c || contains c "+-.".

(** [_WHATWG_C0_CONTROL_OR_SPACE] and [_UNSAFE_URL_BYTES_TO_REMOVE] *)
Definition c0_or_space (c : ascii) : bool := (code c <=? 32)%N.
Definition unsafe_byte (c : ascii) : bool :=
  bool_decide (c = "009"%char) || bool_decide (c = "013"%char)
  || bool_decide (c = "010"%char).

Definition netloc_delim (c : ascii) : bool := contains c "/?#".

(** The scheme test of [urlsplit]: the text before the first [':'] is a
    scheme when it is not empty, starts with a letter and consists of
    scheme characters. *)
Definition split_scheme (url : string) : string * string :=
  match partition ":" url with
  | Some (String c0 pre, post) =>
      if is_alpha c0 && all_chars scheme_char (String c0 pre)
      then (lower (String c0 pre), post)
      else ("", url)
  | _ => ("", url)
  end.

(** [_splitnetloc(url, 2)] *)
Definition splitnetloc (url : string) : string * string :=
  span (λ c, negb (netloc_delim c)) (drop 2 url).

(** [_splitparams] *)
Definition splitparams (url : string) : string * string :=
  match rpartition "/" url with
  | Some (dir, segment) =>
      match partition ";" segment with
      | Some (a, b) => (dir +:+ "/" +:+ a, b)
      | None => (url, "")
      end
  | None =>
      match partition ";" url with
      | Some (a, b) => (a, b)
      | None => (url, "")
      end
  end.

Section Parse.

(** [check_bracketed_netloc n] holds when [_check_bracketed_netloc(n)]
    returns without raising (the bracketed host is an IPv6 or IPvFuture
    address); [check_nfkc n] holds when the NFKC test of [_checknetloc]
    accepts the non-ASCII network location [n]. *)
Variable check_bracketed_netloc : string → bool.
Variable check_nfkc : string → bool.

Definition brackets_ok (netloc : string) : bool :=
  match contains "[" netloc, contains "]" netloc with
  | true, true => check_bracketed_netloc netloc
  | false, false => true
  | _, _ => false
  end.

Definition checknetloc (netloc : string) : bool :=
  if all_chars is_ascii netloc then true else check_nfkc netloc.

(** [urlparse(url)]: [urlsplit] followed by the split of the parameters. *)
Definition urlparse (url : string) : result ParseResult :=
  let url := lstrip c0_or_space url in
  let url := filter_chars (λ c, negb (unsafe_byte c)) url in
  let '(scheme, url) := split_scheme url in
  let* split :=
    if starts_with "//" url then
      let '(netloc, rest) := splitnetloc url in
      if brackets_ok netloc then Ok (netloc, rest) else Raise ValueError
    else Ok ("", url)
  in
  let '(netloc, url) := split in
  let '(url, fragment) :=
    match partition "#" url with
    | Some (u, f) => (u, f)
    | None => (url, "")
    end in
  let '(url, query) :=
    match partition "?" url with
    | Some (u, q) => (u, q)
    | None => (url, "")
    end in
  if checknetloc netloc then
    let '(url, params) :=
      if bool_decide (scheme ∈ uses_params) && contains ";" url
      then splitparams url
      else (url, "")
    in
    Ok (mkParseResult scheme netloc url params query fragment)
  else Raise ValueError.

End Parse.

(** [urlunsplit] *)
Definition urlunsplit (scheme netloc url query fragment : string) : string :=
  let url :=
    if negb (bool_decide (netloc = ""))
       || (negb (bool_decide (scheme = "")) && bool_decide (scheme ∈ uses_netloc)
           && negb (bool_decide (take 2 url = "//")))
    then
      let url :=
        if negb (bool_decide (url = "")) && negb (bool_decide (take 1 url = "/"))
        then "/" +:+ url else url in
      "//" +:+ netloc +:+ url
    else url in
  let url := if bool_decide (scheme = "") then url else scheme +:+ ":" +:+ url in
  let url := if bool_decide (query = "") then url else url +:+ "?" +:+ query in
  let url :=
    if bool_decide (fragment = "") then url else url +:+ "#" +:+ fragment in
  url.

(** [urlunparse] *)
Definition urlunparse (p : ParseResult) : string :=
  let url :=
    if bool_decide (params p = "") then path p
    else path p +:+ ";" +:+ params p in
  urlunsplit (scheme p) (netloc p) url (query p) (fragment p).

(** *** Percent-encoding *)

Definition hex_value (c : ascii) : option N :=
  if is_digit c then Some (code c - 48)%N
  else if in_range 65 70 c then Some (code c - 55)%N
  else if in_range 97 102 c then Some (code c - 87)%N
  else None.

Definition hex_char (n : N) : ascii :=
  if (n <? 10)%N then ascii_of_N (48 + n) else ascii_of_N (55 + n).

(** [unquote_to_bytes]: each [%XY] with hexadecimal [X], [Y] becomes the
    byte it denotes; a [%] not followed by two hexadecimal digits stays. *)
Fixpoint unquote_to_bytes (s : string) : string :=
  match s with
  | EmptyString => EmptyString
  | String c s' =>
      if bool_decide (c = "%"%char) then
        match s' with
        | String a (String b rest) =>
            match hex_value a, hex_value b with
            | Some x, Some y =>
                String (ascii_of_N (16 * x + y)) (unquote_to_bytes rest)
            | _, _ => String c (unquote_to_bytes s')
            end
        | _ => String c (unquote_to_bytes s')
        end
      else String c (unquote_to_bytes s')
  end.

(** A continuation byte of UTF-8, and the second byte of a sequence of
    three and of four bytes: after [E0] it is [A0..BF] (no overlong form),
    after [ED] it is [80..9F] (no surrogate), after [F0] it is [90..BF]
    and after [F4] it is [80..8F] (nothing above U+10FFFF). *)
Definition continuation (c : ascii) : bool := in_range 128 191 c.

Definition second_of_3 (b0 b1 : ascii) : bool :=
  continuation b1
  && negb (bool_decide (code b0 = 224%N) && (code b1 <? 160)%N)
  && negb (bool_decide (code b0 = 237%N) && (160 <=? code b1)%N).

Definition second_of_4 (b0 b1 : ascii) : bool :=
  continuation b1
  && negb (bool_decide (code b0 = 240%N) && (code b1 <? 144)%N)
  && negb (bool_decide (code b0 = 244%N) && (144 <=? code b1)%N).

(** U+FFFD, in UTF-8, before [rest]. *)
Definition replacement (rest : string) : string :=
  String "239" (String "191" (String "189" rest)).

(** [bs.decode('utf-8', errors='replace')], the decoded text being written
    as its UTF-8 bytes: a well-formed sequence stays as it is, and every
    ill-formed part (an invalid start byte, or the bytes of a sequence up
    to the byte that cannot continue it, or a sequence cut by the end)
    becomes one U+FFFD. *)
Fixpoint utf8_replace (bs : string) : string :=
  match bs with
  | EmptyString => EmptyString
  | String b0 r =>
      if is_ascii b0 then String b0 (utf8_replace r)
      else if in_range 194 223 b0 then
        match r with
        | String b1 r1 =>
            if continuation b1 then String b0 (String b1 (utf8_replace r1))
            else replacement (utf8_replace r)
        | EmptyString => replacement ""
        end
      else if in_range 224 239 b0 then
        match r with
        | String b1 r1 =>
            if second_of_3 b0 b1 then
              match r1 with
              | String b2 r2 =>
                  if continuation b2
                  then String b0 (String b1 (String b2 (utf8_replace r2)))
                  else replacement (utf8_replace r1)
              | EmptyString => replacement ""
              end
            else replacement (utf8_replace r)
        | EmptyString => replacement ""
        end
      else if in_range 240 244 b0 then
        match r with
        | String b1 r1 =>
            if second_of_4 b0 b1 then
              match r1 with
              | String b2 r2 =>
                  if continuation b2 then
                    match r2 with
                    | String b3 r3 =>
                        if continuation b3
                        then String b0 (String b1 (String b2
                               (String b3 (utf8_replace r3))))
                        else replacement (utf8_replace r2)
                    | EmptyString => replacement ""
                    end
                  else replacement (utf8_replace r1)
              | EmptyString => replacement ""
              end
            else replacement (utf8_replace r)
        | EmptyString => replacement ""
        end
      else replacement (utf8_replace r)
  end.

(** The loop of [unquote] over the pieces of [_asciire.split(string)]:
    each run of ASCII characters is unquoted to bytes and decoded, the
    characters between the runs stay.  [run] is the run read so far. *)
Fixpoint unquote_runs (run : string) (s : string) : string :=
  match s with
  | EmptyString => utf8_replace (unquote_to_bytes run)
  | String c s' =>
      if is_ascii c then unquote_runs (run +:+ String c "") s'
      else utf8_replace (unquote_to_bytes run)
           +:+ String c (unquote_runs "" s')
  end.

(** [unquote(string)], with the defaults [encoding='utf-8'] and
    [errors='replace']. *)
Definition unquote (s : string) : string :=
  if contains "%" s then unquote_runs "" s else s.

(** [_ALWAYS_SAFE] *)
Definition always_safe (c : ascii) : bool :=
  is_alpha c || is_digit c || contains c "_.-~".

(** [quote_plus(s)] with the default [safe='']: safe bytes stay, a space
    becomes [+], any other byte becomes [%XX]. *)
Definition quote_plus_char (c : ascii) : string :=
  if always_safe c then String c ""
  else if bool_decide (c = " "%char) then "+"
  else String "%" (String (hex_char (code c / 16))
                     (String (hex_char (code c mod 16)) "")).

Fixpoint quote_plus (s : string) : string :=
  match s with
  | EmptyString => EmptyString
  | String c s' => quote_plus_char c +:+ quote_plus s'
  end.

(** *** Query strings *)

(** A [dict] from names to lists of values, in insertion order. *)
Definition qs_dict := list (string * list string).

(** [d[name].append(value)] if [name in d], else [d[name] = [value]]. *)
Fixpoint dict_add (name value : string) (d : qs_dict) : qs_dict :=
  match d with
  | [] => [(name, [value])]
  | (k, vs) :: d' =>
      if bool_decide (k = name) then (k, vs ++ [value]) :: d'
      else (k, vs) :: dict_add name value d'
  end.

(** [d[name] = values] *)
Fixpoint dict_set (name : string) (values : list string) (d : qs_dict)
    : qs_dict :=
  match d with
  | [] => [(name, values)]
  | (k, vs) :: d' =>
      if bool_decide (k = name) then (k, values) :: d'
      else (k, vs) :: dict_set name values d'
  end.


(** One field of [parse_qsl] (with [keep_blank_values=False],
    [strict_parsing=False]): a field without [=] or with an empty value
    is skipped. *)
Definition parse_field (name_value : string) : option (string * string) :=
  match partition "=" name_value with
  | Some (n, v) =>
      if bool_decide (v = "") then None
      else Some (unquote (replace_char "+" " " n),
                 unquote (replace_char "+" " " v))
  | None => None
  end.

(** [parse_qsl(qs)] *)
Definition parse_qsl (qs : string) : list (string * string) :=
  let query_args := if bool_decide (qs = "") then [] else split "&" qs in
  omap parse_field query_args.

(** [parse_qs(qs)] *)
Definition parse_qs (qs : string) : qs_dict :=
  fold_left (λ d nv, dict_add nv.1 nv.2 d) (parse_qsl qs) [].

(** [urlencode(d, doseq=True)] for a dictionary of lists of strings. *)
Definition urlencode (d : qs_dict) : string :=
  join "&"
    (flat_map (λ kv, (λ v, quote_plus kv.1 +:+ "=" +:+ quote_plus v) <$> kv.2) d).

(** [str(n)] *)
Definition str (n : Z) : string := pretty n.

Section Update.
Variable check_bracketed_netloc : string → bool.
Variable check_nfkc : string → bool.

(** [update_pagination_url(base_url, page_number)] of [url.py]; the
    variant of [url_scraper.py] stores the integer itself in the list and
    [urlencode] applies [str] to it, with the same result. *)
Definition update_pagination_url (base_url : string) (page_number : Z)
    : result string :=
  let* parsed := urlparse check_bracketed_netloc check_nfkc base_url in
  let params := parse_qs (query parsed) in
  let params := dict_set "page" [str page_number] params in
  let updated_query := urlencode params in
  Ok (urlunparse (replace_query parsed updated_query)).

End Update.



End Url.

(** ** Regular expressions ([re.search])

    The fragment of Python's regular expressions that the extractors
    use, with the backtracking semantics of [re]: alternatives are tried
    left to right, repetitions are greedy, and [search] returns the match
    at the leftmost position where one exists. *)

Module Regex.
Import PyStr.

Inductive regex :=
| Lit (s : string)                               (* literal text *)
| Class (p : ascii → bool)                       (* one character of a class *)
| Rep (p : ascii → bool) (lo : nat) (hi : option nat)
                                                 (* [c{lo,hi}], [c+] greedy *)
| Seq (r1 r2 : regex)
| Alt (r1 r2 : regex)
| Group (r : regex)                              (* the capturing group *)
| WordBoundary.                                  (* [\b] *)

(** A position in the subject: the character before it, if any, and the
    text from it on. *)
Record position := Pos {
  before : option ascii;
  rest : string
}.

(** The position after the last character of [s], started at [pos]. *)
Fixpoint advance (s : string) (prev : option ascii) (r : string)
    : option position :=
  match s with
  | EmptyString => Some (Pos prev r)
  | String c s' =>
      match r with
      | String d r' =>
          if bool_decide (c = d) then advance s' (Some d) r' else None
      | EmptyString => None
      end
  end.

Definition is_word_opt (c : option ascii) : bool :=
  match c with Some c => is_word c | None => false end.

Definition first_char (s : string) : option ascii :=
  match s with String c _ => Some c | EmptyString => None end.

(** [\b]: exactly one of the two neighbours is a word character. *)
Definition at_word_boundary (pos : position) : bool :=
  xorb (is_word_opt (before pos)) (is_word_opt (first_char (rest pos))).

Section Match.
Context {R : Type}.

(** Greedy repetition of a class: take a character while allowed, and
    give back one at a time when the continuation fails. *)
Fixpoint match_rep (p : ascii → bool) (lo : nat) (hi : option nat)
    (prev : option ascii) (s : string)
    (k : position → option string → option R) (cap : option string)
    : option R :=
  let stop := match lo with O => k (Pos prev s) cap | S _ => None end in
  match s with
  | String c s' =>
      if p c && negb (bool_decide (hi = Some O)) then
        match match_rep p (pred lo) (pred <$> hi) (Some c) s' k cap with
        | Some r => Some r
        | None => stop
        end
      else stop
  | EmptyString => stop
  end.

(** [match_at r pos cap k]: match [r] at [pos] and pass the end position
    and the captured text to [k]; [None] when every way of matching [r]
    makes [k] fail. *)
Fixpoint match_at (r : regex) (pos : position) (cap : option string)
    (k : position → option string → option R) : option R :=
  match r with
  | Lit s =>
      match advance s (before pos) (rest pos) with
      | Some pos' => k pos' cap
      | None => None
      end
  | Class p =>
      match rest pos with
      | String c s' => if p c then k (Pos (Some c) s') cap else None
      | EmptyString => None
      end
  | Rep p lo hi => match_rep p lo hi (before pos) (rest pos) k cap
  | Seq r1 r2 => match_at r1 pos cap (λ pos' cap', match_at r2 pos' cap' k)
  | Alt r1 r2 =>
      match match_at r1 pos cap k with
      | Some x => Some x
      | None => match_at r2 pos cap k
      end
  | Group r' =>
      match_at r' pos cap
        (λ pos' _,
           k pos' (Some (take (String.length (rest pos)
                               - String.length (rest pos')) (rest pos))))
  | WordBoundary => if at_word_boundary pos then k pos cap else None
  end.

End Match.

(** The match of [r] that starts at [pos]: the matched text and the text
    of the group. *)
Definition match_here (r : regex) (pos : position)
    : option (string * option string) :=
  match_at r pos None
    (λ pos' cap,
       Some (take (String.length (rest pos) - String.length (rest pos'))
               (rest pos), cap)).

(** [re.search(r, s)]: the match at the leftmost position that has one. *)
Fixpoint search_from (r : regex) (prev : option ascii) (s : string)
    : option (string * option string) :=
  match match_here r (Pos prev s) with
  | Some m => Some m
  | None =>
      match s with
      | String c s' => search_from r (Some c) s'
      | EmptyString => None
      end
  end.

Definition search (r : regex) (s : string) : option (string * option string) :=
  search_from r None s.

(** [match.group(0)] and [match.group(1)] *)
Definition group0 (m : string * option string) : string := m.1.
Definition group1 (m : string * option string) : string := default "" m.2.

(** The last character of [s], or [prev] when [s] is empty. *)
Fixpoint last_char (prev : option ascii) (s : string) : option ascii :=
  match s with
  | EmptyString => prev
  | String c s' => last_char (Some c) s'
  end.

Definition plus (p : ascii → bool) : regex := Rep p 1 None.
Definition exactly (p : ascii → bool) (n : nat) : regex := Rep p n (Some n).

End Regex.

(** ** Field extractors of [scraper.py] *)

Module Extract.
Import PyStr Regex.

(** [sys.int_max_str_digits]: [int] refuses longer digit strings (CPython
    3.11 and later). *)
Definition int_max_str_digits : nat := 4300.

(** The value of a string of decimal digits, most significant first. *)
Fixpoint digits_value (acc : Z) (s : string) : Z :=
  match s with
  | EmptyString => acc
  | String c s' => digits_value (10 * acc + Z.of_N (code c - 48)) s'
  end.

(** [int(s)] for a string [s] of digits: the empty string is not a
    number. *)
Definition py_int (s : string) : result Z :=
  match s with
  | EmptyString => Raise ValueError
  | _ =>
      if (int_max_str_digits <? String.length s)%nat then Raise ValueError
      else Ok (digits_value 0 s)
  end.

(** [re.sub(r"[^\d]", "", text)] *)
Definition strip_non_digits (text : string) : string :=
  filter_chars is_digit text.

(** [extract_int_from_text(text)] *)
Definition extract_int_from_text (text : string) : result Z :=
  match text with
  | EmptyString => Ok 0
  | _ => py_int (strip_non_digits text)
  end.

(** [extract_int_from_text(tag.get_text()) if tag else 0], where the
    argument is the text of the element when there is one. *)
Definition count_field (tag : option string) : result Z :=
  match tag with
  | Some text => extract_int_from_text text
  | None => Ok 0
  end.

(** [text.split()[0]]: the first run of non-blank characters;
    [IndexError] when there is none.  (The blanks of ASCII text.) *)
Definition first_token (text : string) : result string :=
  match lstrip is_space text with
  | EmptyString => Raise IndexError
  | s => Ok (span (λ c, negb (is_space c)) s).1
  end.

(** [s.isdigit()] *)
Definition isdigit (s : string) : bool :=
  negb (bool_decide (s = "")) && all_chars is_digit s.

(** [\b97[89][\d]{10}\b] *)
Definition isbn_pattern : regex :=
  Seq WordBoundary
    (Seq (Lit "97")
       (Seq (Class (λ c, contains c "89"))
          (Seq (exactly is_digit 10) WordBoundary))).

(** The [for div in isbn_divs] loop; [texts] are the
    [div.get_text(strip=True)] of the blocks.  [None]: the loop ran to its
    end.  [len(token)] is the number of characters of the token, which for
    an ASCII text is its number of bytes. *)
Fixpoint isbn_from_divs (texts : list string) : result (option string) :=
  match texts with
  | [] => Ok None
  | text :: more =>
      if negb (bool_decide (text = "")) && isdigit (take 3 text) then
        let* token := first_token text in
        if (10 <=? String.length token)%nat then Ok (Some token)
        else isbn_from_divs more
      else isbn_from_divs more
  end.

(** [extract_isbn(soup, html_text)] *)
Definition extract_isbn (div_texts : list string) (html_text : string)
    : result string :=
  let* found := isbn_from_divs div_texts in
  match found with
  | Some token => Ok token
  | None =>
      match search isbn_pattern html_text with
      | Some m => Ok (group0 m)
      | None => Ok "N/A"
      end
  end.


(** The words of the specification: a token that starts with at least 10
    digits. *)
Definition starts_with_10_digits (token : string) : bool :=
  (10 <=? String.length token)%nat && all_chars is_digit (take 10 token).

(** The words of the specification: a 13-digit sequence beginning with 978
    or 979, at any place of the text. *)
Fixpoint first_isbn13_anywhere (s : string) : option string :=
  if (starts_with "978" s || starts_with "979" s)
     && (13 <=? String.length s)%nat && all_chars is_digit (take 13 s)
  then Some (take 13 s)
  else match s with
       | String _ s' => first_isbn13_anywhere s'
       | EmptyString => None
       end.

(** The identifier that the specification describes. *)
Definition spec_extract_isbn (div_texts : list string) (html_text : string)
    : string :=
  match filter starts_with_10_digits
          (omap (λ text, match first_token text with
                         | Ok t => Some t
                         | Raise _ => None
                         end) div_texts) with
  | token :: _ => token
  | [] => default "N/A" (first_isbn13_anywhere html_text)
  end.

(** A direct reading of [isbn_pattern] at one position: not preceded by
    a word character, thirteen digits of which the first three are 978 or
    979, not followed by a word character. *)
Definition isbn13_here (prev : option ascii) (s : string) : bool :=
  negb (is_word_opt prev)
  && (starts_with "978" s || starts_with "979" s)
  && (13 <=? String.length s)%nat
  && all_chars is_digit (take 13 s)
  && negb (is_word_opt (first_char (drop 13 s))).

(** The leftmost place of the text where [isbn13_here] holds. *)
Fixpoint first_isbn13 (prev : option ascii) (s : string) : option string :=
  if isbn13_here prev s then Some (take 13 s)
  else match s with
       | String c s' => first_isbn13 (Some c) s'
       | EmptyString => None
       end.

(** *** Publication date *)

Record date := Date {
  year : Z;
  month : Z;
  day : Z
}.

Definition is_leap (y : Z) : bool :=
  ((y mod 4 =? 0) && negb (y mod 100 =? 0)) || (y mod 400 =? 0).

Definition days_in_month (y m : Z) : Z :=
  if (m =? 2) then (if is_leap y then 29 else 28)
  else if (m =? 4) || (m =? 6) || (m =? 9) || (m =? 11) then 30
  else 31.


(** The month names of [dateutil.parser.parserinfo.MONTHS], compared in
    lower case. *)
Definition month_names : list (list string) :=
  [["jan"; "january"]; ["feb"; "february"]; ["mar"; "march"];
   ["apr"; "april"]; ["may"]; ["jun"; "june"]; ["jul"; "july"];
   ["aug"; "august"]; ["sep"; "sept"; "september"]; ["oct"; "october"];
   ["nov"; "november"]; ["dec"; "december"]].

Fixpoint month_lookup (w : string) (table : list (list string)) (m : Z)
    : option Z :=
  match table with
  | [] => None
  | names :: table' =>
      if bool_decide (w ∈ names) then Some m
      else month_lookup w table' (m + 1)
  end.

Definition month_of_name (w : string) : option Z :=
  month_lookup (lower w) month_names 1.

(** The three shapes that the patterns of [extract_publication_date]
    capture. *)
Inductive date_shape :=
| MonthDayYear (word : string) (d y : Z)
| MonthYear (word : string) (y : Z)
| YearOnly (y : Z).

Definition number (s : string) : Z := digits_value 0 s.

Definition shape_of (date_str : string) : option date_shape :=
  let '(word, s1) := span is_alpha date_str in
  match word with
  | EmptyString =>
      if bool_decide (String.length date_str = 4%nat)
         && all_chars is_digit date_str
      then Some (YearOnly (number date_str)) else None
  | _ =>
      let '(blank, s2) := span is_space s1 in
      let '(n1, s3) := span is_digit s2 in
      match blank, n1, s3 with
      | String _ _, String _ _, EmptyString =>
          if bool_decide (String.length n1 = 4%nat)
          then Some (MonthYear word (number n1)) else None
      | String _ _, String _ _, String "," s4 =>
          let '(blank', s5) := span is_space s4 in
          match blank' with
          | String _ _ =>
              if (String.length n1 <=? 2)%nat
                 && bool_decide (String.length s5 = 4%nat)
                 && all_chars is_digit s5
              then Some (MonthDayYear word (number n1) (number s5))
              else None
          | EmptyString => None
          end
      | _, _, _ => None
      end
  end.

Section PublicationDate.

(** [today] is the date of the run: [dateutil.parser.parse] is called
    without [default], and takes the fields that the text does not give
    from today's date.  [parse_other] stands for [parse] on the texts
    outside the part of it described here. *)
Variable today : date.
Variable parse_other : string → result date.

(** Modelled from the documentation of [dateutil]:
    [dateutil.parser.parse(date_str)] for a month name with a day and a
    year, a month name with a year, and a year alone (years from 1000).
    A field missing from the text is today's; a day of the month taken
    from today is cut to the length of the month. *)
Definition dateutil_parse (date_str : string) : result date :=
  match shape_of date_str with
  | Some (MonthDayYear word d y) =>
      match month_of_name word with
      | Some m =>
          if (1000 <=? y) && (1 <=? d) && (d <=? days_in_month y m)
          then Ok (Date y m d) else parse_other date_str
      | None => parse_other date_str
      end
  | Some (MonthYear word y) =>
      match month_of_name word with
      | Some m =>
          if (1000 <=? y)
          then Ok (Date y m (Z.min (day today) (days_in_month y m)))
          else parse_other date_str
      | None => parse_other date_str
      end
  | Some (YearOnly y) =>
      if (1000 <=? y)
      then Ok (Date y (month today)
                 (Z.min (day today) (days_in_month y (month today))))
      else parse_other date_str
  | None => parse_other date_str
  end.

(** [n] in decimal, padded with zeros to [width] characters. *)
Definition zero_pad (width : nat) (n : Z) : string :=
  let digits := pretty n in
  String.concat "" (replicate (width - String.length digits) "0") +:+ digits.

(** [dt.strftime("%Y-%m-%d")], as the C library of Linux formats it: the
    month and the day have two digits, the year is written without
    padding (a year before 1000 has fewer than four digits). *)
Definition strftime_Ymd (d : date) : string :=
  pretty (year d) +:+ "-" +:+ zero_pad 2 (month d) +:+ "-"
  +:+ zero_pad 2 (day d).

(** The shape [YYYY-MM-DD]: four digits, two digits and two digits,
    separated by hyphens. *)
Definition is_ymd (s : string) : bool :=
  bool_decide (String.length s = 10%nat)
  && all_chars is_digit (take 4 s)
  && bool_decide (take 1 (drop 4 s) = "-")
  && all_chars is_digit (take 2 (drop 5 s))
  && bool_decide (take 1 (drop 7 s) = "-")
  && all_chars is_digit (drop 8 s).


Definition published : regex := Alt (Lit "First published") (Lit "Published").

(** [(?:First published|Published)\s+([A-Za-z]+\s+\d{1,2},\s+\d{4})] *)
Definition month_day_year_pattern : regex :=
  Seq published
    (Seq (plus is_space)
       (Group
          (Seq (plus is_alpha)
             (Seq (plus is_space)
                (Seq (Rep is_digit 1 (Some 2%nat))
                   (Seq (Lit ",")
                      (Seq (plus is_space) (exactly is_digit 4)))))))).

(** [(?:First published|Published)\s+([A-Za-z]+\s+\d{4})] *)
Definition month_year_pattern : regex :=
  Seq published
    (Seq (plus is_space)
       (Group (Seq (plus is_alpha)
                 (Seq (plus is_space) (exactly is_digit 4))))).

(** [(?:First published|Published)\s+(\d{4})] *)
Definition year_pattern : regex :=
  Seq published (Seq (plus is_space) (Group (exactly is_digit 4))).

(** The match of the first pattern, in the order of the code, that
    matches. *)
Definition first_match (text : string) : option (string * option string) :=
  head (omap (λ r, search r text)
          [month_day_year_pattern; month_year_pattern; year_pattern]).

(** The [try] block: parse and format, ["N/A"] on any exception. *)
Definition normalize_date (date_str : string) : string :=
  match dateutil_parse date_str with
  | Ok dt => strftime_Ymd dt
  | Raise _ => "N/A"
  end.

(** [extract_publication_date(soup)]; [pub_tag] is the text
    ([get_text(strip=True)]) of the publication-info element, when there
    is one. *)
Definition extract_publication_date (pub_tag : option string) : string :=
  match pub_tag with
  | None => "N/A"
  | Some text =>
      match search month_day_year_pattern text with
      | Some m => normalize_date (group1 m)
      | None =>
          match search month_year_pattern text with
          | Some m => normalize_date (group1 m)
          | None =>
              match search year_pattern text with
              | Some m => normalize_date (group1 m)
              | None => "N/A"
              end
          end
      end
  end.

End PublicationDate.

End Extract.

(** ** The JSON store ([save_data_to_json]) *)

Module Store.

(** What a file holds, as [json.load] sees it: a JSON array of records, a
    JSON document of another kind (object, number, string, [null]...), or
    text that is not JSON.  [json.dump] followed by [json.load] gives the
    list back, so an array file is kept as the list it encodes. *)
Inductive file_content :=
| JsonArray (records : list book)
| JsonOther
| Malformed.

(** The file system: file name to content; a name with no binding is an
    absent file. *)
Abbreviation filesystem := (gmap string file_content).

Inductive json_value :=
| JList (records : list book)
| JNotList.

(** [open(filename, "r")] *)
Definition open_read (fs : filesystem) (filename : string)
    : result file_content :=
  match fs !! filename with
  | Some c => Ok c
  | None => Raise FileNotFoundError
  end.

(** [json.load(file)] *)
Definition json_load (c : file_content) : result json_value :=
  match c with
  | JsonArray l => Ok (JList l)
  | JsonOther => Ok JNotList
  | Malformed => Raise JSONDecodeError
  end.

(** [existing_data + data], where [data] is a list. *)
Definition py_add (existing_data : json_value) (data : list book)
    : result (list book) :=
  match existing_data with
  | JList l => Ok (l ++ data)
  | JNotList => Raise TypeError
  end.

Definition is_FileNotFoundError (e : exn) : bool :=
  match e with FileNotFoundError => true | _ => false end.

Section WithFiles.

(** [open_write filename]: what [open(filename, "w")] does.  It opens the
    file, creating it when it is absent, or raises an [OSError] (the
    directory is missing, the name is that of a directory, the permission
    is refused) and leaves the file system as it is. *)
Variable open_write : string → result unit.

(** The body of the outer [try] of [save_data_to_json]: the new file
    system on success. *)
Definition save_body (data : list book) (filename : string)
    (fs : filesystem) : result filesystem :=
  let* existing_data :=
    try_except
      (let* file := open_read fs filename in json_load file)
      is_FileNotFoundError
      (Ok (JList []))
  in
  let* updated_data := py_add existing_data data in
  let* _ := open_write filename in
  Ok (<[filename := JsonArray updated_data]> fs).

(** [save_data_to_json(data, filename)]: the outer [except Exception]
    logs and returns. *)
Definition save_data_to_json (data : list book) (filename : string)
    (st : filesystem * list log_record) : filesystem * list log_record :=
  match save_body data filename st.1 with
  | Ok fs' =>
      (fs', st.2 ++ [LogInfo ("Data successfully saved to " +:+ filename)])
  | Raise e =>
      (st.1, st.2 ++ [LogError "Error saving data to JSON: " (Some e)])
  end.

End WithFiles.

(** A file system in which every file can be opened for writing. *)
Definition always_opens (filename : string) : result unit := Ok tt.

End Store.

(** ** The retrying fetcher ([fetch_url_with_retries]) *)

Module Fetch.

(** The part of a [requests.Response] that the code reads. *)
Record response := Response {
  status_code : Z;
  text : string
}.

(** What the code has done to the outside world so far. *)
Record effects := Effects {
  requests_made : nat;
  slept : Z;
  log : list log_record
}.

Definition no_effects : effects := Effects 0 0 [].

Definition request (st : effects) : effects :=
  Effects (S (requests_made st)) (slept st) (log st).
Definition sleep (secs : Z) (st : effects) : effects :=
  Effects (requests_made st) (slept st + secs) (log st).
Definition emit (r : log_record) (st : effects) : effects :=
  Effects (requests_made st) (slept st) (log st ++ [r]).

Definition RETRY_COUNT : Z := 3.

Definition is_RequestException (e : exn) : bool :=
  match e with RequestException => true | _ => false end.

(** [range(n)] *)
Definition range (n : Z) : list nat := seq 0 (Z.to_nat n).

Section WithNetwork.

(** [get url k] is what the [k]-th call (from 0) of
    [requests.get(url, headers=HEADERS, timeout=10)] gives: a response, or
    an exception. *)
Variable get : string → nat → result response.

(** The [for attempt in range(retries)] loop.  [None] in the result means
    that the loop ran to its end. *)
Fixpoint fetch_loop (url : string) (attempts : list nat) (st : effects)
    : result (option response) * effects :=
  match attempts with
  | [] => (Ok None, st)
  | attempt :: rest =>
      match get url (requests_made st) with
      | Ok response =>
          if decide (status_code response = 200)
          then (Ok (Some response), request st)
          else
            fetch_loop url rest
              (sleep 2
                 (emit (LogWarning
                          ("Attempt " +:+ pretty (Z.of_nat attempt + 1)
                           +:+ " failed with status code "
                           +:+ pretty (status_code response) +:+ "."))
                       (request st)))
      | Raise e =>
          if is_RequestException e
          then
            fetch_loop url rest
              (sleep 2
                 (emit (LogError
                          ("Attempt " +:+ pretty (Z.of_nat attempt + 1)
                           +:+ " failed: ") (Some e))
                       (request st)))
          else (Raise e, request st)
      end
  end.

Definition fetch_url_with_retries (url : string) (retries : Z)
    (st : effects) : result (option response) * effects :=
  match fetch_loop url (range retries) st with
  | (Ok None, st') =>
      (Ok None,
       emit (LogError ("Failed to fetch URL after " +:+ pretty retries
                       +:+ " attempts: " +:+ url) None) st')
  | other => other
  end.

End WithNetwork.

(** An attempt that the specification calls failed: a response whose
    status is outside 200..299, or an exception. *)
Definition non_success (o : result response) : Prop :=
  match o with
  | Ok r => ¬ (200 ≤ status_code r < 300)
  | Raise _ => True
  end.

(** The transport raises nothing but [RequestException] (the base class of
    every exception that [requests] raises for a request). *)
Definition transport_errors_only (get : string → nat → result response)
    : Prop :=
  ∀ url k e, get url k = Raise e → e = RequestException.

End Fetch.

(** ** The listing-page crawler ([fetch_goodreads_urls] of [url.py]) *)

Module Crawler.
Import Fetch.

(** The lines that the crawler prints, with the values they show. *)
Inductive event :=
| EvStart
| EvFetching (page : Z) (paginated_url : string)
| EvRequestFailed (page : Z)
| EvNoLinks
| EvFound (new_links : Z) (page : Z) (total : nat)
| EvDone (total : nat).

(** [response.raise_for_status()] raises [HTTPError], a
    [RequestException], for a status in 400..599. *)
Definition raise_for_status (r : response) : result unit :=
  if decide (400 ≤ status_code r < 600) then Raise RequestException
  else Ok tt.

Definition site_origin : string := "https://www.goodreads.com".

(** The [for tag in book_links] loop; [hrefs] are the [href] attributes of
    the tags, in document order.  The loop is left as soon as
    [len(book_urls) >= max_urls]. *)
Fixpoint add_links (hrefs : list string) (max_urls : Z)
    (seen_urls : gset string) (book_urls : list string) (new_links : Z)
    : gset string * list string * Z :=
  match hrefs with
  | [] => (seen_urls, book_urls, new_links)
  | href :: rest =>
      let full_url := site_origin +:+ href in
      if decide (full_url ∈ seen_urls)
      then add_links rest max_urls seen_urls book_urls new_links
      else
        let seen_urls := {[full_url]} ∪ seen_urls in
        let book_urls := book_urls ++ [full_url] in
        let new_links := new_links + 1 in
        if decide (Z.of_nat (length book_urls) >= max_urls)
        then (seen_urls, book_urls, new_links)
        else add_links rest max_urls seen_urls book_urls new_links
  end.

Record crawl_state := CrawlState {
  page : Z;
  seen_urls : gset string;
  book_urls : list string;
  printed : list event
}.

Definition print (e : event) (st : crawl_state) : crawl_state :=
  CrawlState (page st) (seen_urls st) (book_urls st) (printed st ++ [e]).

(** The largest number of seconds whose nanoseconds fit the C type of a
    time (a signed 64-bit integer). *)
Definition max_sleep : Z := 9223372036.

Section WithSite.

Variable check_bracketed_netloc : string → bool.
Variable check_nfkc : string → bool.

(** [get url] is the outcome of
    [requests.get(url, headers=HEADERS, timeout=10)].
    [parser_error html] is the exception that
    [BeautifulSoup(html, 'html.parser')] raises, when it raises one (the
    parser refuses the markup), and [book_links html] the [href]s of
    [soup.find_all("a", class_="bookTitle", href=True)] for the document
    [html].  [system_sleep secs] is what the sleep of the operating
    system does for a length that [time.sleep] hands to it: it returns
    after [secs] seconds, or raises (the system refuses a length that
    leads past the end of its clock). *)
Variable get : string → result response.
Variable parser_error : string → option exn.
Variable book_links : string → list string.
Variable system_sleep : Z → result unit.

(** [time.sleep(secs)] for an [int]: [OverflowError] when the length in
    nanoseconds does not fit the C type, [ValueError] when it is
    negative. *)
Definition time_sleep (secs : Z) : result unit :=
  if (secs <? - max_sleep) || (max_sleep <? secs) then Raise OverflowError
  else if secs <? 0 then Raise ValueError
  else system_sleep secs.

(** [BeautifulSoup(html, 'html.parser')] followed by [find_all]. *)
Definition find_links (html : string) : result (list string) :=
  match parser_error html with
  | Some e => Raise e
  | None => Ok (book_links html)
  end.

(** The [while len(book_urls) < max_urls] loop.  [fuel] bounds the number
    of iterations; [None] means that the bound was reached.  The result is
    the state at the exit of the loop, or the exception that left it: the
    [try] block holds the request only, so that the exceptions of the
    parser and of [time.sleep] leave the function. *)
Fixpoint crawl_loop (fuel : nat) (base_url : string) (max_urls delay : Z)
    (st : crawl_state) : option (result crawl_state) :=
  if decide (Z.of_nat (length (book_urls st)) < max_urls) then
    match fuel with
    | O => None
    | S fuel' =>
        match Url.update_pagination_url check_bracketed_netloc check_nfkc
                base_url (page st) with
        | Raise e => Some (Raise e)
        | Ok paginated_url =>
            let st := print (EvFetching (page st) paginated_url) st in
            match (let* response := get paginated_url in
                   let* _ := raise_for_status response in
                   Ok response) with
            | Raise e =>
                if is_RequestException e
                then Some (Ok (print (EvRequestFailed (page st)) st))
                else Some (Raise e)
            | Ok response =>
                match find_links (text response) with
                | Raise e => Some (Raise e)
                | Ok [] => Some (Ok (print EvNoLinks st))
                | Ok hrefs =>
                    let '(seen, urls, new_links) :=
                      add_links hrefs max_urls (seen_urls st) (book_urls st) 0
                    in
                    match time_sleep delay with
                    | Raise e => Some (Raise e)
                    | Ok _ =>
                        crawl_loop fuel' base_url max_urls delay
                          (CrawlState (page st + 1) seen urls
                             (printed st
                              ++ [EvFound new_links (page st) (length urls)]))
                    end
                end
            end
        end
    end
  else Some (Ok st).

(** [fetch_goodreads_urls(base_url, max_urls, delay)]: the list returned
    and the lines printed. *)
Definition fetch_goodreads_urls (fuel : nat) (base_url : string)
    (max_urls delay : Z) : option (result (list string * list event)) :=
  match crawl_loop fuel base_url max_urls delay
          (CrawlState 1 ∅ [] [EvStart]) with
  | None => None
  | Some (Raise e) => Some (Raise e)
  | Some (Ok st) =>
      Some (Ok (book_urls st,
                printed st ++ [EvDone (length (book_urls st))]))
  end.

(** What the loop meets at listing page [k]: the absolute URLs of the
    links of the page, a request that fails with a [RequestException] or
    an error status, or an exception that the loop does not catch (of
    [urlparse], of the transport or of the parser). *)
Inductive page_view :=
| Links (urls : list string)
| Failed
| Crashed (e : exn).

Definition view_page (base_url : string) (k : Z) : page_view :=
  match Url.update_pagination_url check_bracketed_netloc check_nfkc
          base_url k with
  | Raise e => Crashed e
  | Ok paginated_url =>
      match get paginated_url with
      | Raise e => if is_RequestException e then Failed else Crashed e
      | Ok response =>
          if decide (400 ≤ status_code response < 600) then Failed
          else match find_links (text response) with
               | Ok hrefs => Links ((λ href, site_origin +:+ href) <$> hrefs)
               | Raise e => Crashed e
               end
      end
  end.

Definition page_urls (base_url : string) (k : nat) : list string :=
  match view_page base_url (Z.of_nat k) with
  | Links urls => urls
  | _ => []
  end.

(** The links of pages 1 to [n], in page and document order. *)
Definition urls_upto (base_url : string) (n : nat) : list string :=
  flat_map (page_urls base_url) (seq 1 n).

(** The page has at least one link. *)
Definition has_links (v : page_view) : bool :=
  match v with Links (_ :: _) => true | _ => false end.

(** The page ends the crawl: the request fails, or the page has no link. *)
Definition ends_crawl (v : page_view) : bool :=
  match v with Links [] | Failed => true | _ => false end.

End WithSite.

(** A system that carries out every sleep. *)
Definition sleeps (secs : Z) : result unit := Ok tt.

(** A parser that accepts every document. *)
Definition accepts_all (html : string) : option exn := None.

(** The elements of [l] not in [seen], each at its first occurrence. *)
Fixpoint first_seen_from (seen : gset string) (l : list string)
    : list string :=
  match l with
  | [] => []
  | u :: rest =>
      if decide (u ∈ seen) then first_seen_from seen rest
      else u :: first_seen_from ({[u]} ∪ seen) rest
  end.

Definition first_seen (l : list string) : list string :=
  first_seen_from ∅ l.

Section StopPoint.
Variable check_bracketed_netloc : string → bool.
Variable check_nfkc : string → bool.
Variable get : string → result response.
Variable parser_error : string → option exn.
Variable book_links : string → list string.

Let collected (base_url : string) (k : nat) : list string :=
  first_seen (urls_upto check_bracketed_netloc check_nfkc get parser_error
                book_links base_url k).

(** The crawl stops after [n] pages: pages 1 to [n] have links, fewer than
    [max_urls] URLs are collected after each of the pages before the
    [n]-th, and then either [max_urls] URLs are collected or page [n+1]
    ends the crawl. *)
Definition stops_after (base_url : string) (max_urls : Z) (n : nat) : bool :=
  forallb (λ k, has_links (view_page check_bracketed_netloc check_nfkc get
                             parser_error book_links base_url (Z.of_nat k)))
    (seq 1 n)
  && forallb (λ k, Z.of_nat (length (collected base_url k)) <? max_urls)
       (seq 0 n)
  && ((max_urls <=? Z.of_nat (length (collected base_url n)))
      || ends_crawl (view_page check_bracketed_netloc check_nfkc get
                       parser_error book_links base_url (Z.of_nat (S n)))).

(** The crawl goes on for ever: every page has a link, and fewer than
    [max_urls] URLs are ever collected. *)
Definition never_stops (base_url : string) (max_urls : Z) : Prop :=
  ∀ k : nat,
    has_links (view_page check_bracketed_netloc check_nfkc get parser_error
                 book_links base_url (Z.of_nat (S k))) = true ∧
    Z.of_nat (length (collected base_url k)) < max_urls.

(** The state at the head of the loop after [k] pages. *)
Definition at_page (base_url : string) (max_urls : Z) (k : nat)
    (st : crawl_state) : Prop :=
  page st = Z.of_nat (S k) ∧
  book_urls st = take (Z.to_nat max_urls) (collected base_url k) ∧
  seen_urls st = list_to_set (book_urls st).

End StopPoint.


End Crawler.

(** ** The crawler of [url_scraper.py]

    The older [fetch_goodreads_urls] keeps no set (it tests membership in
    the list itself), takes every status other than 200 for a failure and
    leaves its loop on any exception raised in the [try] block, which
    holds the request, the parser, the loop over the links and
    [time.sleep].  Its printed lines are left out. *)

Module CrawlerLegacy.
Import Fetch Crawler.

(** The [for link in book_links] loop. *)
Fixpoint add_links_list (hrefs : list string) (max_urls : Z)
    (book_urls : list string) : list string :=
  match hrefs with
  | [] => book_urls
  | href :: rest =>
      let full_url := site_origin +:+ href in
      if decide (full_url ∈ book_urls)
      then add_links_list rest max_urls book_urls
      else
        let book_urls := book_urls ++ [full_url] in
        if decide (Z.of_nat (length book_urls) >= max_urls)
        then book_urls
        else add_links_list rest max_urls book_urls
  end.

Section WithSite.

Variable check_bracketed_netloc : string → bool.
Variable check_nfkc : string → bool.
Variable get : string → result response.
Variable parser_error : string → option exn.
Variable book_links : string → list string.
Variable system_sleep : Z → result unit.

(** The [while] loop; the paginated URL is computed before the [try]. *)
Fixpoint crawl_loop_list (fuel : nat) (genre_url : string)
    (max_urls delay : Z) (page : Z) (book_urls : list string)
    : option (result (list string)) :=
  if decide (Z.of_nat (length book_urls) < max_urls) then
    match fuel with
    | O => None
    | S fuel' =>
        match Url.update_pagination_url check_bracketed_netloc check_nfkc
                genre_url page with
        | Raise e => Some (Raise e)
        | Ok paginated_url =>
            match get paginated_url with
            | Raise _ => Some (Ok book_urls)
            | Ok response =>
                if decide (status_code response ≠ 200)
                then Some (Ok book_urls)
                else
                  match find_links parser_error book_links
                          (text response) with
                  | Raise _ => Some (Ok book_urls)
                  | Ok [] => Some (Ok book_urls)
                  | Ok hrefs =>
                      let book_urls :=
                        add_links_list hrefs max_urls book_urls in
                      match time_sleep system_sleep delay with
                      | Raise _ => Some (Ok book_urls)
                      | Ok _ =>
                          crawl_loop_list fuel' genre_url max_urls delay
                            (page + 1) book_urls
                      end
                  end
            end
        end
    end
  else Some (Ok book_urls).

Definition fetch_goodreads_urls (fuel : nat) (genre_url : string)
    (max_urls delay : Z) : option (result (list string)) :=
  crawl_loop_list fuel genre_url max_urls delay 1 [].

(** The same site as the crawler of [url.py] sees it: every answer that
    the older crawler takes for a failure becomes a failed request, and a
    document that the parser refuses becomes a page without links. *)
Definition as_failures (url : string) : result response :=
  match get url with
  | Ok response =>
      if decide (status_code response ≠ 200) then Raise RequestException
      else Ok response
  | Raise _ => Raise RequestException
  end.

Definition as_no_links (html : string) : list string :=
  match parser_error html with
  | Some _ => []
  | None => book_links html
  end.

End WithSite.

End CrawlerLegacy.

(** ** Notions used to state the properties of URLs *)

Module UrlSpec.
Import PyStr Url.



(** A well-formed text: decoding its bytes gives them back. *)
Definition is_text (s : string) : Prop := utf8_replace s = s.










Definition not_delim (c : ascii) : bool := negb (netloc_delim c).

(** The path and parameters put together as [urlunparse] does. *)
Definition path_params (path params : string) : string :=
  if bool_decide (params = "") then path else path +:+ ";" +:+ params.






(** [urlunparse] followed by [urlparse] keeps the path: there is a network
    location; or there is none, the path (with its parameters) does not
    start with [//] and it is empty, or starts with [/], or comes without
    a scheme or with a scheme that takes no network location.  (In the
    other cases [urlunsplit] puts [//] or [/] before the path, or the
    start of the path is read as a network location.) *)
Definition keeps_path (p : ParseResult) : bool :=
  let u := path_params (path p) (params p) in
  negb (bool_decide (netloc p = ""))
  || (negb (starts_with "//" u)
      && (bool_decide (u = "") || starts_with "/" u
          || bool_decide (scheme p = "")
          || negb (bool_decide (scheme p ∈ uses_netloc)))).

(** [s] is empty or starts with one of [/], [?], [#]. *)
Definition head_delim (s : string) : Prop :=
  match s with String c _ => not_delim c = false | EmptyString => True end.



End UrlSpec.

(** ** Sample environments *)

Module Fixtures.
Import Fetch.

(** A server that answers 503, then times out, then answers 404. *)
Definition failing_server (url : string) (k : nat) : result response :=
  match k with
  | O => Ok (Response 503 "")
  | 1%nat => Raise RequestException
  | _ => Ok (Response 404 "")
  end.

(** A shelf of three pages: two links, two links of which one is a
    repeat, then an empty page. *)
Definition shelf : string := "https://www.goodreads.com/shelf/show/fantasy".

Definition shelf_get (url : string) : result response :=
  if bool_decide (url = shelf +:+ "?page=1") then Ok (Response 200 "p1")
  else if bool_decide (url = shelf +:+ "?page=2") then Ok (Response 200 "p2")
  else Ok (Response 200 "").

Definition shelf_links (html : string) : list string :=
  if bool_decide (html = "p1") then ["/book/show/1.A"; "/book/show/2.B"]
  else if bool_decide (html = "p2") then ["/book/show/2.B"; "/book/show/3.C"]
  else [].

(** A listing that serves the same page for ever. *)
Definition endless_get (url : string) : result response :=
  Ok (Response 200 "p1").


End Fixtures.

(** ** URL validation ([is_valid_url]) *)

Module Validate.
Import PyStr Url.

(** The truth value of a [str]: false for the empty string only. *)
Definition truthy (s : string) : bool := negb (bool_decide (s = "")).

Section WithChecks.
Variable check_bracketed_netloc : string → bool.
Variable check_nfkc : string → bool.

(** [is_valid_url(url)]: [all] of the two components, after [urlparse],
    which may raise. *)
Definition is_valid_url (url : string) : result bool :=
  let* parsed := urlparse check_bracketed_netloc check_nfkc url in
  Ok (truthy (scheme parsed) && truthy (netloc parsed)).

End WithChecks.

(** The text that [urlsplit] works on: leading control characters and
    spaces are stripped, then tabs and line breaks are removed. *)
Definition cleaned (url : string) : string :=
  filter_chars (λ c, negb (unsafe_byte c)) (lstrip c0_or_space url).

(** A scheme: a letter followed by letters, digits, [+], [-] and [.]. *)
Definition is_scheme (s : string) : bool :=
  match s with
  | String c _ => is_alpha c && all_chars scheme_char s
  | EmptyString => false
  end.

(** Neither [[] nor []] occurs, and every character is ASCII. *)
Definition plain_char (c : ascii) : bool :=
  is_ascii c && negb (contains c "[]").

End Validate.

(** ** The output file of the crawler ([save_urls_to_file],
       [save_urls_as_array], [main] of [url.py]) *)

Module UrlFile.
Import PyStr.

(** The double quote and the line feed. *)
Definition dquote : ascii := "034"%char.
Definition newline : ascii := "010"%char.

(** [s.endswith(suffix)] *)
Definition ends_with (suffix s : string) : bool :=
  (String.length suffix <=? String.length s)%nat
  && bool_decide (drop (String.length s - String.length suffix) s = suffix).

(** The line written for one URL: four spaces, the URL between double
    quotes, a comma, a line feed. *)
Definition url_line (url : string) : string :=
  "    " +:+ String dquote url +:+ String dquote (String "," (String newline "")).

(** The [for url in urls: f.write(...)] loop, on the text written so far. *)
Fixpoint write_urls (urls : list string) (written : string) : string :=
  match urls with
  | [] => written
  | url :: rest => write_urls rest (written +:+ url_line url)
  end.

(** What the [with open(filename, "w")] block writes. *)
Definition file_text (urls : list string) : string :=
  write_urls urls ("book_urls = [" +:+ String newline "")
  +:+ "]" +:+ String newline "".

(** Text files by name. *)
Abbreviation text_files := (gmap string string).

(** The lines printed by the two writers and by [main] of [url.py]. *)
Inductive line :=
| Config (url : string) (max delay : Z) (output : string)
| Crawl (e : Crawler.event)
| Saved (filename : string)
| WriteFailed (filename : string)
| NoUrls.

(** How a call ends: it returns, or [sys.exit] ends the program. *)
Inductive ending :=
| Returned
| Exited (code : Z).

Section WithFiles.

(** [writable filename]: [open(filename, "w")] succeeds.  A failure
    leaves the files as they are.  A write that fails after the file has
    been opened is not modelled. *)
Variable writable : string → bool.

(** [save_urls_to_file(urls, filename)] of [url.py] *)
Definition save_urls_to_file (urls : list string) (filename : string)
    (st : text_files * list line) : ending * (text_files * list line) :=
  let filename :=
    if negb (ends_with ".py" filename) then filename +:+ ".py" else filename in
  if writable filename
  then (Returned, (<[filename := file_text urls]> st.1, st.2 ++ [Saved filename]))
  else (Exited 1, (st.1, st.2 ++ [WriteFailed filename])).

(** [save_urls_as_array(urls, filename)] of [url_scraper.py] *)
Definition save_urls_as_array (urls : list string) (filename : string)
    (st : text_files * list line) : text_files * list line :=
  if writable filename
  then (<[filename := file_text urls]> st.1, st.2 ++ [Saved filename])
  else (st.1, st.2 ++ [WriteFailed filename]).

(** The namespace that [parse_args] returns. *)
Record args := Args {
  arg_url : string;
  arg_max : Z;
  arg_delay : Z;
  arg_output : string
}.

Variable check_bracketed_netloc : string → bool.
Variable check_nfkc : string → bool.
Variable get : string → result Fetch.response.
Variable parser_error : string → option exn.
Variable book_links : string → list string.
Variable system_sleep : Z → result unit.

(** [main()] of [url.py], given the parsed arguments.  [None]: the bound
    on the iterations of the crawl was reached.  An exception of the
    crawl leaves [main]. *)
Definition main (fuel : nat) (a : args) (files : text_files)
    : option (result (ending * (text_files * list line))) :=
  let printed := [Config (arg_url a) (arg_max a) (arg_delay a) (arg_output a)] in
  match Crawler.fetch_goodreads_urls check_bracketed_netloc check_nfkc
          get parser_error book_links system_sleep fuel (arg_url a)
          (arg_max a) (arg_delay a) with
  | None => None
  | Some (Raise e) => Some (Raise e)
  | Some (Ok (urls, crawl_lines)) =>
      let printed := printed ++ (Crawl <$> crawl_lines) in
      match urls with
      | [] => Some (Ok (Returned, (files, printed ++ [NoUrls])))
      | _ => Some (Ok (save_urls_to_file urls (arg_output a) (files, printed)))
      end
  end.

(** The main block of [url_scraper.py]: the crawl of the shelf that the
    script names, for 20 URLs and with a delay of 2 seconds, then
    [save_urls_as_array], whatever the list is. *)
Definition goodreads_search_url : string :=
  "https://www.goodreads.com/shelf/show/historical".

Definition url_scraper_main (fuel : nat) (files : text_files)
    : option (result (text_files * list line)) :=
  match CrawlerLegacy.fetch_goodreads_urls check_bracketed_netloc check_nfkc
          get parser_error book_links system_sleep fuel goodreads_search_url
          20 2 with
  | None => None
  | Some (Raise e) => Some (Raise e)
  | Some (Ok all_book_urls) =>
      Some (Ok (save_urls_as_array all_book_urls "books_url.py" (files, [])))
  end.

End WithFiles.

(** No line feed occurs in the URL. *)
Definition one_line (url : string) : bool := negb (contains newline url).

End UrlFile.

(** ** The dispatcher of the store ([save_data]) *)

Module Save.
Import Store.

Section WithCsv.

Variable open_write : string → result unit.

(** [save_data_to_csv], which goes through [pandas], is an argument. *)
Variable save_data_to_csv :
  list book → string → filesystem * list log_record →
  filesystem * list log_record.



End WithCsv.

End Save.

(** ** The detail-page scraper ([scrape_goodreads_book],
       [scrape_multiple_books] of [scraper.py]) *)

Module Scrape.
Import PyStr Regex Extract Fetch.

(** What the queries of the code on the parsed document answer.  A text
    is the [get_text(strip=True)] of the element found ([get_text()] for
    the two counts); [None] stands for an element that is not found. *)
Record page := Page {
  bookTitle : option string;
  contributorLink : option string;
  pagesFormat : option string;
  publicationInfo : option string;
  (** the [img] element, and its [src] attribute when it has one *)
  responsiveImage : option (option string);
  contentContainer : option string;
  (** the genre list, with the texts that the selector finds in it *)
  genresList : option (list string);
  (** the blocks that [extract_isbn] goes through *)
  isbnBlocks : list string;
  ratingStatistics : option string;
  ratingsCount : option string;
  reviewsCount : option string
}.

(** Exceptions of the [try] block: those of [exn], and the two raised by
    a missing element or attribute. *)
Inductive parse_exn :=
| AttributeError
| KeyError
| Builtin (e : exn).

Inductive attempt (A : Type) :=
| Got (a : A)
| Broke (e : parse_exn).
Arguments Got {A} a.
Arguments Broke {A} e.

(** The statements of the [try] block: they may raise, and they draw
    from the random generator; the state is the number of calls of
    [random.randint] made so far. *)
Definition action (A : Type) : Type := nat → attempt A * nat.

Definition ret {A} (a : A) : action A := λ k, (Got a, k).
Definition raise {A} (e : parse_exn) : action A := λ k, (Broke e, k).

Definition and_then {A B} (c : action A) (f : A → action B) : action B :=
  λ k, match c k with
       | (Got a, k') => f a k'
       | (Broke e, k') => (Broke e, k')
       end.

Notation "'let+' x ':=' c 'in' f" := (and_then c (λ x, f))
  (at level 10, x name, c at level 100, f at level 200).

Definition lift {A} (r : result A) : action A :=
  match r with
  | Ok a => ret a
  | Raise e => raise (Builtin e)
  end.

(** [tag.get_text(...)], where [tag] is the result of [soup.find]: an
    [AttributeError] on [None]. *)
Definition get_text (tag : option string) : action string :=
  match tag with
  | Some text => ret text
  | None => raise AttributeError
  end.

(** [s or d] *)
Definition or_else (s d : string) : string :=
  if bool_decide (s = "") then d else s.

(** One letter under [re.IGNORECASE]. *)
Definition ignore_case (x : ascii) : regex :=
  Class (λ c, bool_decide (lower_char c = lower_char x)).

(** [(\d+)\s+pages] with [re.IGNORECASE] *)
Definition pages_pattern : regex :=
  Seq (Group (plus is_digit))
    (Seq (plus is_space)
       (Seq (ignore_case "p")
          (Seq (ignore_case "a")
             (Seq (ignore_case "g")
                (Seq (ignore_case "e") (ignore_case "s")))))).

(** The page count: [int(match.group(1)) if match else "N/A"], or
    ["N/A"] without the element. *)
Definition page_count (pages_tag : option string) : result pages_value :=
  match pages_tag with
  | Some pages_text =>
      match search pages_pattern pages_text with
      | Some m => let* n := py_int (group1 m) in Ok (PagesInt n)
      | None => Ok (PagesText "N/A")
      end
  | None => Ok (PagesText "N/A")
  end.

Definition FALLBACK_IMAGE : string :=
  "https://img.freepik.com/premium-photo/crisp-white-watercolor-paper-texture-background_707519-26089.jpg?semt=ais_hybrid&w=740".

(** [image_tag["src"] if image_tag else FALLBACK_IMAGE] *)
Definition image_src (image_tag : option (option string)) : action string :=
  match image_tag with
  | Some (Some src) => ret src
  | Some None => raise KeyError
  | None => ret FALLBACK_IMAGE
  end.

(** What the log of a batch holds: a [log_record], or the error of a
    [try] block that failed, with the URL of its message (the error may
    be one that [log_record] cannot name). *)
Inductive log_entry :=
| Logged (r : log_record)
| ParseFailed (book_url : string) (error : parse_exn).

(** The outside world of a batch: requests made, seconds slept between
    the attempts of the fetcher, rate-limit pauses taken, calls of
    [random.randint] made, and the log. *)
Record world := World {
  requests : nat;
  waited : Z;
  pauses : nat;
  draws : nat;
  journal : list log_entry
}.

Definition start : world := World 0 0 0 0 [].

Definition note (e : log_entry) (w : world) : world :=
  World (requests w) (waited w) (pauses w) (draws w) (journal w ++ [e]).

(** The rate-limit pause: [time.sleep] of a [random.uniform] draw
    between the bounds of [RATE_LIMIT_DELAY]. *)
Definition pause (w : world) : world :=
  World (requests w) (waited w) (S (pauses w)) (draws w) (journal w).

(** [bool(response)] is [response.ok]: the status is not in 400..599. *)
Definition ok (r : response) : bool :=
  match Crawler.raise_for_status r with Ok _ => true | Raise _ => false end.

Section WithSite.

Variable check_bracketed_netloc : string → bool.
Variable check_nfkc : string → bool.

(** [get url k]: the [k]-th request of the run, as in [Fetch].
    [parser_error html]: the exception that
    [BeautifulSoup(html, 'html.parser')] raises, when it raises one (the
    parser refuses the markup); [soup html]: the answers of the document
    that it builds otherwise.
    [randint k a b]: what the [k]-th call of [random.randint], made with
    [a] and [b], returns.  [float text]: [float(text)].  [today] and
    [parse_other]: see [Extract.extract_publication_date]. *)
Variable get : string → nat → result response.
Variable parser_error : string → option exn.
Variable soup : string → page.
Variable randint : nat → Z → Z → Z.
Variable float : string → result float64.
Variable today : date.
Variable parse_other : string → result date.

(** [random.randint(a, b)] *)
Definition random_randint (a b : Z) : action Z :=
  λ k, (Got (randint k a b), S k).

(** The body of the [try] block of [scrape_goodreads_book], up to the
    dictionary. *)
Definition parse_book (html : string) : action book :=
  let pg := soup html in
  let+ t := get_text (bookTitle pg) in
  let book_title := or_else t "N/A" in
  let+ a := get_text (contributorLink pg) in
  let author_name := or_else a "N/A" in
  let+ pages := lift (page_count (pagesFormat pg)) in
  let publication :=
    extract_publication_date today parse_other (publicationInfo pg) in
  let+ image_url := image_src (responsiveImage pg) in
  let+ d := get_text (contentContainer pg) in
  let description_div := or_else d "N/A" in
  let genres :=
    match genresList pg with Some texts => texts | None => ["General"] end in
  let+ isbn := lift (extract_isbn (isbnBlocks pg) html) in
  let+ r := random_randint 10 200 in
  let price := r * 1000 in
  let+ likes := random_randint 1 100 in
  let+ stock := random_randint 1 10 in
  let+ average_rating :=
    match ratingStatistics pg with
    | Some text => lift (float text)
    | None => ret 0
    end in
  let+ ratings_count := lift (count_field (ratingsCount pg)) in
  let+ reviews_count := lift (count_field (reviewsCount pg)) in
  ret (Book book_title author_name description_div isbn publication pages
         genres likes average_rating ratings_count reviews_count price stock
         image_url).

(** [fetch_url_with_retries(book_url)], on the world of the batch: the
    request counter and the seconds slept go on from those of the world,
    and the records that the call logs are added to the journal. *)
Definition fetch (book_url : string) (w : world)
    : result (option response) * world :=
  let '(r, st) :=
    fetch_url_with_retries get book_url RETRY_COUNT
      (Effects (requests w) (waited w) []) in
  (r, World (requests_made st) (slept st) (pauses w) (draws w)
        (journal w ++ (Logged <$> log st))).

(** [scrape_goodreads_book(book_url)]: the document is built before the
    [try] block, so that an exception of the parser leaves the function. *)
Definition scrape_goodreads_book (book_url : string) (w : world)
    : result (option book) * world :=
  match fetch book_url w with
  | (Raise e, w) => (Raise e, w)
  | (Ok None, w) => (Ok None, w)
  | (Ok (Some response), w) =>
      if negb (ok response) then (Ok None, w)
      else
        match parser_error (text response) with
        | Some e => (Raise e, w)
        | None =>
            match parse_book (text response) (draws w) with
            | (Got book_data, k) =>
                (Ok (Some book_data),
                 note (Logged (LogInfo ("Scraped data for book: "
                                        +:+ title book_data)))
                   (World (requests w) (waited w) (pauses w) k (journal w)))
            | (Broke error, k) =>
                (Ok None,
                 note (ParseFailed book_url error)
                   (World (requests w) (waited w) (pauses w) k (journal w)))
            end
        end
  end.

(** The [for url in book_urls] loop of [scrape_multiple_books]. *)
Fixpoint scrape_loop (book_urls : list string) (books_data : list book)
    (w : world) : result (list book) * world :=
  match book_urls with
  | [] => (Ok books_data, w)
  | url :: rest =>
      match Validate.is_valid_url check_bracketed_netloc check_nfkc url with
      | Raise e => (Raise e, w)
      | Ok false =>
          scrape_loop rest books_data
            (note (Logged (LogWarning ("Invalid URL skipped: " +:+ url))) w)
      | Ok true =>
          match scrape_goodreads_book url w with
          | (Raise e, w) => (Raise e, w)
          | (Ok book_data, w) =>
              let books_data :=
                match book_data with
                | Some b => books_data ++ [b]
                | None => books_data
                end in
              scrape_loop rest books_data (pause w)
          end
      end
  end.

(** [scrape_multiple_books(book_urls)] *)
Definition scrape_multiple_books (book_urls : list string) (w : world)
    : result (list book) * world :=
  match scrape_loop book_urls [] w with
  | (Ok books_data, w) => (Ok (Dedup.remove_duplicates books_data), w)
  | (Raise e, w) => (Raise e, w)
  end.

(** The URLs of the list that pass the validation. *)
Definition accepted (url : string) : bool :=
  match Validate.is_valid_url check_bracketed_netloc check_nfkc url with
  | Ok true => true
  | _ => false
  end.

Definition valid_urls (book_urls : list string) : list string :=
  filter (λ url, accepted url = true) book_urls.

End WithSite.

(** The contract of [random.randint(a, b)]: a result between [a] and
    [b], both included. *)
Definition randint_in_range (randint : nat → Z → Z → Z) : Prop :=
  ∀ k a b, a ≤ b → a ≤ randint k a b ≤ b.

(** The text has no decimal digit. *)
Definition no_digit (text : string) : bool :=
  bool_decide (strip_non_digits text = "").

(** The parser accepts every document that the site serves. *)
Definition parser_accepts (get : string → nat → result response)
    (parser_error : string → option exn) : Prop :=
  ∀ url k resp, get url k = Ok resp → parser_error (text resp) = None.

End Scrape.

(** ** The scraper of [books_scraper.py]

    The older [scrape_goodreads_book] builds a shorter dictionary: the
    description is cut after its first sentence and at most two genres
    are kept. *)

Module BooksScraper.
Import PyStr Fetch Scrape.

Record summary := Summary {
  title : string;
  authorName : string;
  imageURL : string;
  description : string;
  category : list string;
  price : Z;
  likes : Z;
  stock : Z;
  averageRating : float64
}.

(** The queries of this variant; [descriptionBlock] is the element with
    [data-testid="description"]. *)
Record page := Page {
  bookTitle : option string;
  contributorLink : option string;
  responsiveImage : option (option string);
  descriptionBlock : option string;
  genresList : option (list string);
  ratingStatistics : option string
}.

Definition FALLBACK_IMAGE : string :=
  "https://via.placeholder.com/150?text=No+Image+Available".

Definition image_src (image_tag : option (option string)) : action string :=
  match image_tag with
  | Some (Some src) => ret src
  | Some None => raise KeyError
  | None => ret FALLBACK_IMAGE
  end.

(** [text.split('.')[0] + '.' if description_div and '.' in text else
    "No description available."] *)
Definition first_sentence (description_div : option string) : string :=
  match description_div with
  | Some text =>
      if contains "." text
      then default "" (head (split "." text)) +:+ "."
      else "No description available."
  | None => "No description available."
  end.

Section WithSite.

Variable get : string → nat → result response.
Variable parser_error : string → option exn.
Variable soup : string → page.
Variable randint : nat → Z → Z → Z.
Variable float : string → result float64.

Definition parse_book (html : string) : action summary :=
  let pg := soup html in
  let+ t := get_text (bookTitle pg) in
  let book_title := or_else t "N/A" in
  let+ a := get_text (contributorLink pg) in
  let author_name := or_else a "N/A" in
  let+ image_url := image_src (responsiveImage pg) in
  let description := first_sentence (descriptionBlock pg) in
  let genres :=
    match genresList pg with
    | Some texts => list.take 2 texts
    | None => ["General"]
    end in
  let+ r := random_randint randint 10 200 in
  let price := r * 1000 in
  let+ likes := random_randint randint 1 100 in
  let+ stock := random_randint randint 1 10 in
  let+ average_rating :=
    match ratingStatistics pg with
    | Some text => lift (float text)
    | None => ret 0
    end in
  ret (Summary book_title author_name image_url description genres price
         likes stock average_rating).

(** [scrape_goodreads_book(book_url)] of [books_scraper.py]; here too
    the document is built before the [try] block. *)
Definition scrape_goodreads_book (book_url : string) (w : world)
    : result (option summary) * world :=
  match fetch get book_url w with
  | (Raise e, w) => (Raise e, w)
  | (Ok None, w) => (Ok None, w)
  | (Ok (Some response), w) =>
      if negb (ok response) then (Ok None, w)
      else
        match parser_error (text response) with
        | Some e => (Raise e, w)
        | None =>
            match parse_book (text response) (draws w) with
            | (Got book_data, k) =>
                (Ok (Some book_data),
                 note (Logged (LogInfo ("Scraped data for book: "
                                        +:+ title book_data)))
                   (World (requests w) (waited w) (pauses w) k (journal w)))
            | (Broke error, k) =>
                (Ok None,
                 note (ParseFailed book_url error)
                   (World (requests w) (waited w) (pauses w) k (journal w)))
            end
        end
  end.

End WithSite.

End BooksScraper.

(** ** Notions used to state the properties of the crawl *)

Module CrawlerSpec.
Import Crawler.

(** The page numbers of the requests announced, in order. *)
Definition fetched_pages (printed : list event) : list Z :=
  omap (λ e, match e with EvFetching p _ => Some p | _ => None end) printed.

(** The URL is the origin of the site followed by the [href] of a link. *)
Definition from_site (url : string) : Prop :=
  ∃ href, url = site_origin +:+ href.



End CrawlerSpec.
(** ** Sample pages *)

Module Samples.
Import Fetch Extract Scrape.

(** The detail page of the example of [scraper.py], and a page on which
    the ratings line has no figure. *)
Definition fight_club : page :=
  Page (Some "Fight Club") (Some "Chuck Palahniuk")
    (Some "224 pages, Paperback")
    (Some "First published August 17, 1996")
    (Some (Some "https://images.example/books/36236124.jpg"))
    (Some "Chuck Palahniuk showed himself to be his generation")
    (Some ["Fiction"; "Classics"; "Thriller"])
    ["9780393355949 (ISBN10: 0393355942)"]
    (Some "4.18") (Some "625,058 ratings") (Some "25,009 reviews").

Definition unrated : page :=
  Page (Some "Unrated") (Some "Nobody") None None None (Some "A book.")
    None [] None (Some "No ratings yet") None.

Definition no_page : page :=
  Page None None None None None None None [] None None None.

Definition book_site (url : string) (k : nat) : result response :=
  if bool_decide (url = "https://www.goodreads.com/book/show/36236124")
  then Ok (Response 200 "fight club")
  else if bool_decide (url = "https://www.goodreads.com/book/show/0")
  then Ok (Response 200 "unrated")
  else Ok (Response 404 "").

Definition book_soup (html : string) : page :=
  if bool_decide (html = "fight club") then fight_club
  else if bool_decide (html = "unrated") then unrated
  else no_page.

(** A generator that always returns the lower bound. *)
Definition lowest (k : nat) (a b : Z) : Z := a.

(** [float] on the one rating of the samples: 4.18 as a binary64. *)
Definition sample_float (text : string) : result float64 :=
  if bool_decide (text = "4.18") then Ok 4616392280037990072
  else Raise ValueError.

(** The shelf of the script of [url_scraper.py], without any page. *)
Definition empty_shelf (url : string) : result response :=
  Raise RequestException.

Definition run_day : date := Date 2026 11 3.

Definition fight_club_url : string :=
  "https://www.goodreads.com/book/show/36236124".

(** The dictionary built from [fight_club] with the draws of [lowest],
    and the world after the call that builds it. *)
Definition fight_club_record : book :=
  Book "Fight Club" "Chuck Palahniuk"
    "Chuck Palahniuk showed himself to be his generation"
    "9780393355949" "1996-08-17" (PagesInt 224)
    ["Fiction"; "Classics"; "Thriller"] 1 4616392280037990072 625058 25009
    10000 1 "https://images.example/books/36236124.jpg".

Definition after_fight_club : world :=
  World 1 0 0 3 [Logged (LogInfo "Scraped data for book: Fight Club")].

Definition no_other_date (text : string) : result date := Raise ValueError.

(** A detail page as [books_scraper.py] reads it. *)
Definition emma : BooksScraper.page :=
  BooksScraper.Page (Some "Emma") (Some "Jane Austen") None
    (Some "Emma Woodhouse is handsome, clever and rich. She is also spoiled.")
    (Some ["Classics"; "Fiction"; "Romance"]) None.

Definition emma_site (url : string) (k : nat) : result response :=
  Ok (Response 200 "emma").

Definition emma_soup (html : string) : BooksScraper.page := emma.

Definition emma_record : BooksScraper.summary :=
  BooksScraper.Summary "Emma" "Jane Austen" BooksScraper.FALLBACK_IMAGE
    "Emma Woodhouse is handsome, clever and rich." ["Classics"; "Fiction"]
    10000 1 1 0.

Definition after_emma : world :=
  World 1 0 0 3 [Logged (LogInfo "Scraped data for book: Emma")].

End Samples.

(** * Theorems *)

Module DedupFacts.
Import Dedup.

Lemma not_elem_of_add (t u : string) (seen : gset string) :
  t ∉ {[u]} ∪ seen ↔ u ≠ t ∧ t ∉ seen.
Proof.
  rewrite elem_of_union, elem_of_singleton. split.
  - intros H. split; [intros ->|intros ?]; apply H; auto.
  - intros [H1 H2] [->|?]; auto.
Qed.

Lemma loop_acc data : ∀ seen acc,
  remove_duplicates_loop data seen acc
  = acc ++ remove_duplicates_loop data seen [].
Proof.
  induction data as [|b rest IH]; intros seen acc; simpl.
  - by rewrite app_nil_r.
  - case_decide.
    + apply IH.
    + rewrite (IH _ (acc ++ [b])), (IH _ ([] ++ [b])).
      by rewrite <- app_assoc.
Qed.

Lemma loop_cons_seen b rest seen :
  title b ∈ seen →
  remove_duplicates_loop (b :: rest) seen []
  = remove_duplicates_loop rest seen [].
Proof. intros H. simpl. by rewrite decide_True. Qed.

Lemma loop_cons_new b rest seen :
  title b ∉ seen →
  remove_duplicates_loop (b :: rest) seen []
  = b :: remove_duplicates_loop rest ({[title b]} ∪ seen) [].
Proof. intros H. simpl. rewrite decide_False by done. by rewrite loop_acc. Qed.

(** Titles of the output avoid [seen] and are pairwise distinct. *)
Lemma loop_titles_fresh data : ∀ seen b,
  b ∈ remove_duplicates_loop data seen [] → title b ∉ seen.
Proof.
  induction data as [|c rest IH]; intros seen b; simpl.
  - by intros ?%elem_of_nil.
  - case_decide as Hc.
    + apply IH.
    + rewrite loop_acc. simpl. intros [->|Hin]%elem_of_cons; [done|].
      by apply IH, not_elem_of_add in Hin as [_ ?].
Qed.

Lemma loop_titles_NoDup data : ∀ seen,
  NoDup (title <$> remove_duplicates_loop data seen []).
Proof.
  induction data as [|c rest IH]; intros seen.
  - simpl. constructor.
  - destruct (decide (title c ∈ seen)) as [Hc|Hc].
    + rewrite loop_cons_seen by done. apply IH.
    + rewrite loop_cons_new by done. rewrite fmap_cons.
      constructor; [|apply IH].
      intros (b & Hb & Hin)%list_elem_of_fmap.
      apply loop_titles_fresh, not_elem_of_add in Hin as [? _]. congruence.
Qed.

(** A list whose titles are distinct and unseen passes through unchanged. *)
Lemma loop_fixed l : ∀ seen,
  NoDup (title <$> l) →
  (∀ b, b ∈ l → title b ∉ seen) →
  remove_duplicates_loop l seen [] = l.
Proof.
  induction l as [|c rest IH]; intros seen Hnd Hfresh; [done|].
  rewrite fmap_cons in Hnd. apply NoDup_cons in Hnd as [Hc Hnd].
  rewrite loop_cons_new by (apply Hfresh; left).
  f_equal. apply IH; [done|].
  intros b Hb. specialize (Hfresh b (list_elem_of_further _ _ _ Hb)).
  apply not_elem_of_add. split; [|done].
  intros Heq. apply Hc. rewrite Heq. by apply list_elem_of_fmap_2.
Qed.

Lemma loop_sublist data : ∀ seen,
  sublist (remove_duplicates_loop data seen []) data.
Proof.
  induction data as [|c rest IH]; intros seen.
  - simpl. constructor.
  - destruct (decide (title c ∈ seen)) as [Hc|Hc].
    + rewrite loop_cons_seen by done. apply sublist_cons, IH.
    + rewrite loop_cons_new by done. apply sublist_skip, IH.
Qed.

Lemma sorted_shift (js : list nat) :
  StronglySorted lt js → StronglySorted lt (S <$> js).
Proof.
  induction 1 as [|j js Hs IH Hall]; simpl; constructor; [done|].
  apply Forall_fmap. eapply Forall_impl; [exact Hall|].
  intros x Hx. simpl. lia.
Qed.

Lemma loop_positions data : ∀ seen, ∃ js : list nat,
  StronglySorted lt js ∧
  Forall2 (λ j b, data !! j = Some b) js
    (remove_duplicates_loop data seen []) ∧
  ∀ j, j ∈ js ↔
       (∃ b, data !! j = Some b ∧ (title b ∉ seen) ∧
             ∀ k c, (k < j)%nat → data !! k = Some c → title c ≠ title b).
Proof.
  induction data as [|c rest IH]; intros seen.
  - exists []. split; [constructor|]. split; [constructor|].
    intros j. split; [by intros ?%elem_of_nil|].
    by intros (b & Hb & _).
  - destruct (decide (title c ∈ seen)) as [Hc|Hc].
    + rewrite loop_cons_seen by done.
      destruct (IH seen) as (js & Hsorted & Hall & Hmem).
      exists (S <$> js). split; [|split].
      * by apply sorted_shift.
      * apply Forall2_fmap_l. eapply Forall2_impl; [exact Hall|]. done.
      * intros j. rewrite list_elem_of_fmap. split.
        -- intros (j' & -> & Hj'). apply Hmem in Hj' as (b & Hb & Hfresh & Hfirst).
           exists b. split; [done|]. split; [done|].
           intros [|k] d Hk Hd; simpl in Hd.
           ++ injection Hd as <-. intros Heq. apply Hfresh. by rewrite <- Heq.
           ++ apply (Hfirst k); [lia|done].
        -- intros (b & Hb & Hfresh & Hfirst). destruct j as [|j']; simpl in Hb.
           ++ injection Hb as <-. done.
           ++ exists j'. split; [done|]. apply Hmem. exists b.
              split; [done|]. split; [done|].
              intros k d Hk Hd. apply (Hfirst (S k)); [lia|done].
    + rewrite loop_cons_new by done.
      destruct (IH ({[title c]} ∪ seen)) as (js & Hsorted & Hall & Hmem).
      exists (O :: (S <$> js)). split; [|split].
      * constructor.
        -- by apply sorted_shift.
        -- apply Forall_fmap, Forall_forall. intros x _. simpl. lia.
      * constructor; [done|].
        apply Forall2_fmap_l. eapply Forall2_impl; [exact Hall|]. done.
      * intros j. rewrite elem_of_cons, list_elem_of_fmap. split.
        -- intros [->|(j' & -> & Hj')].
           ++ exists c. split; [done|]. split; [done|]. intros k d Hk. lia.
           ++ apply Hmem in Hj' as (b & Hb & Hfresh & Hfirst).
              apply not_elem_of_add in Hfresh as [Hne Hfresh].
              exists b. split; [done|]. split; [done|].
              intros [|k] d Hk Hd; simpl in Hd.
              ** by injection Hd as <-.
              ** apply (Hfirst k); [lia|done].
        -- intros (b & Hb & Hfresh & Hfirst). destruct j as [|j']; [by left|].
           right. exists j'. split; [done|]. apply Hmem. simpl in Hb.
           exists b. split; [done|]. split.
           ++ apply not_elem_of_add. split; [|done].
              apply (Hfirst O); [lia|done].
           ++ intros k d Hk Hd. apply (Hfirst (S k)); [lia|done].
Qed.

(** C1.  The output of [remove_duplicates] has pairwise distinct titles, and
    it consists of the records found at the first-occurrence positions of
    the input (the positions whose title occurs at no earlier position),
    taken in increasing position order: for a title that occurs several
    times the first record is the one kept, and kept records stay in the
    relative order of their first occurrences. *)
Theorem remove_duplicates_first_occurrence_wins (data : list book) :
  NoDup (title <$> remove_duplicates data) ∧
  ∃ js : list nat,
    StronglySorted lt js ∧
    Forall2 (λ j b, data !! j = Some b) js (remove_duplicates data) ∧
    ∀ j, j ∈ js ↔ first_occurrence data j.
Proof.
  split; [apply loop_titles_NoDup|].
  destruct (loop_positions data ∅) as (js & Hsorted & Hall & Hmem).
  exists js. split; [done|]. split; [done|].
  intros j. rewrite Hmem. unfold first_occurrence.
  split; intros (b & Hb & H); exists b; (split; [done|]).
  - by destruct H.
  - split; [apply not_elem_of_empty|done].
Qed.

(** C10.  [remove_duplicates] is idempotent, and its output is a
    subsequence of its input: the records it returns are input records,
    unmodified and in their input order. *)
Theorem remove_duplicates_idempotent_sublist (xs : list book) :
  remove_duplicates (remove_duplicates xs) = remove_duplicates xs ∧
  sublist (remove_duplicates xs) xs.
Proof.
  split; [|apply loop_sublist].
  unfold remove_duplicates. apply loop_fixed.
  - apply loop_titles_NoDup.
  - intros b _. apply not_elem_of_empty.
Qed.

End DedupFacts.

Module StoreFacts.
Import Store.

Section WithFiles.
Variable open_write : string → result unit.

Lemma save_absent data f (fs : filesystem) log :
  fs !! f = None → open_write f = Ok tt →
  save_data_to_json open_write data f (fs, log)
  = (<[f := JsonArray data]> fs,
     log ++ [LogInfo ("Data successfully saved to " +:+ f)]).
Proof.
  intros H Hw. unfold save_data_to_json, save_body, open_read. simpl.
  rewrite H. simpl. by rewrite Hw.
Qed.



End WithFiles.




(** C6, as stated, fails: with a malformed file in place the store is left
    as it was, while with the file absent the records are written. *)
Lemma save_data_to_json_malformed_differs :
  let L := [sample_book "Fight Club" "Chuck Palahniuk"] in
  let fs : filesystem := {["data.json" := Malformed]} in
  (save_data_to_json always_opens L "data.json" (fs, [])).1 !! "data.json"
  ≠ (save_data_to_json always_opens L "data.json"
       (delete "data.json" fs, [])).1 !! "data.json".
Proof.
  intros L fs.
  rewrite (save_absent always_opens L "data.json" (delete "data.json" fs))
    by (done || apply lookup_delete_eq).
  unfold save_data_to_json, save_body, open_read. simpl.
  unfold fs. rewrite lookup_singleton_eq. simpl.
  rewrite lookup_singleton_eq, lookup_insert_eq. discriminate.
Qed.

(** C6, amended.  When the file is present and malformed, [json.load]
    raises [JSONDecodeError], which the inner handler (for
    [FileNotFoundError] only) lets through: nothing is written, the file
    system is unchanged and one error is logged. *)
Theorem save_data_to_json_malformed (open_write : string → result unit)
    (L : list book) (f : string) (fs : filesystem) (log : list log_record) :
  fs !! f = Some Malformed →
  save_data_to_json open_write L f (fs, log)
  = (fs, log ++ [LogError "Error saving data to JSON: " (Some JSONDecodeError)]).
Proof.
  intros H. unfold save_data_to_json, save_body, open_read. simpl.
  by rewrite H.
Qed.

Lemma save_data_to_json_malformed_witness :
  let fs : filesystem := {["data.json" := Malformed]} in
  save_data_to_json always_opens [sample_book "Fight Club" "Chuck Palahniuk"]
    "data.json" (fs, [])
  = (fs, [LogError "Error saving data to JSON: " (Some JSONDecodeError)]).
Proof.
  intros fs.
  apply (save_data_to_json_malformed always_opens _ "data.json" fs []).
  apply lookup_singleton_eq.
Defined.

End StoreFacts.

Module FetchFacts.
Import Fetch Fixtures.

Section Loop.
Variable get : string → nat → result response.
Hypothesis Hget : transport_errors_only get.

(** The loop never raises, makes one request per attempt consumed, returns
    only a response of status 200, and runs to its end when every attempt
    is a non-success. *)
Lemma fetch_loop_spec url attempts : ∀ st,
  ∃ r st',
    fetch_loop get url attempts st = (Ok r, st') ∧
    (requests_made st ≤ requests_made st' ≤ requests_made st + length attempts)%nat ∧
    (∀ resp, r = Some resp →
       status_code resp = 200 ∧
       (requests_made st < requests_made st')%nat ∧
       get url (requests_made st' - 1)%nat = Ok resp) ∧
    ((∀ k, (requests_made st ≤ k < requests_made st + length attempts)%nat →
           non_success (get url k)) →
     r = None ∧ requests_made st' = (requests_made st + length attempts)%nat).
Proof.
  induction attempts as [|a rest IH]; intros st; simpl.
  - exists None, st. split; [done|]. split; [lia|]. split; [done|].
    intros _. split; [done|lia].
  - destruct (get url (requests_made st)) as [resp|e] eqn:Hk.
    + case_decide as Hs.
      * exists (Some resp), (request st). split; [done|]. simpl.
        split; [lia|]. split.
        -- intros ? [= <-]. split; [done|]. split; [lia|].
           rewrite <- Hk. f_equal. lia.
        -- intros Hall. exfalso.
           specialize (Hall (requests_made st)). rewrite Hk in Hall.
           simpl in Hall. apply Hall; lia.
      * match goal with |- context [fetch_loop get url rest ?s] =>
          destruct (IH s) as (r & st' & Heq & Hcnt & Hsome & Hnone) end.
        simpl in *. exists r, st'. split; [done|]. split; [lia|]. split.
        -- intros resp' Hr. destruct (Hsome resp' Hr) as (? & ? & ?).
           split; [done|]. split; [lia|done].
        -- intros Hall. destruct Hnone as [-> Hn].
           { intros k Hk'. apply Hall. lia. }
           split; [done|lia].
    + rewrite (Hget _ _ _ Hk). simpl.
      match goal with |- context [fetch_loop get url rest ?s] =>
        destruct (IH s) as (r & st' & Heq & Hcnt & Hsome & Hnone) end.
      simpl in *. exists r, st'. split; [done|]. split; [lia|]. split.
      * intros resp' Hr. destruct (Hsome resp' Hr) as (? & ? & ?).
        split; [done|]. split; [lia|done].
      * intros Hall. destruct Hnone as [-> Hn].
        { intros k Hk'. apply Hall. lia. }
        split; [done|lia].
Qed.

End Loop.

Lemma length_range n : length (range n) = Z.to_nat n.
Proof. unfold range. apply length_seq. Qed.



Example fetch_exhausted :
  (fetch_url_with_retries failing_server "u" 3 no_effects).1 = Ok None ∧
  requests_made (fetch_url_with_retries failing_server "u" 3 no_effects).2
  = 3%nat.
Proof. split; reflexivity. Qed.

End FetchFacts.

Module CrawlerFacts.
Import Fetch Crawler Fixtures.

Lemma elem_of_first_seen_from l : ∀ (seen : gset string) u,
  u ∈ first_seen_from seen l ↔ u ∈ l ∧ u ∉ seen.
Proof.
  induction l as [|v l IH]; intros seen u; simpl.
  - rewrite elem_of_nil. tauto.
  - case_decide as Hv.
    + rewrite IH, elem_of_cons. split; [tauto|].
      intros [[->|?] ?]; tauto.
    + rewrite !elem_of_cons, IH, elem_of_union, elem_of_singleton.
      destruct (decide (u = v)) as [->|]; tauto.
Qed.

Lemma first_seen_from_set l (seen : gset string) :
  list_to_set (first_seen_from seen l) ∪ seen = list_to_set l ∪ seen.
Proof.
  apply set_eq. intros x.
  rewrite !elem_of_union, !elem_of_list_to_set, elem_of_first_seen_from.
  destruct (decide (x ∈ seen)); tauto.
Qed.

Lemma first_seen_from_app l1 : ∀ (seen : gset string) l2,
  first_seen_from seen (l1 ++ l2)
  = first_seen_from seen l1 ++ first_seen_from (list_to_set l1 ∪ seen) l2.
Proof.
  induction l1 as [|u l1 IH]; intros seen l2; simpl.
  - by rewrite (left_id_L ∅ (∪)).
  - case_decide as Hu.
    + rewrite IH. do 2 f_equal. apply set_eq. intros x.
      rewrite !elem_of_union, elem_of_singleton.
      split; [tauto|]. intros [[->|?]|?]; tauto.
    + simpl. rewrite IH. do 3 f_equal. apply set_eq. intros x.
      rewrite !elem_of_union, elem_of_singleton. tauto.
Qed.

Lemma first_seen_from_NoDup l : ∀ seen : gset string,
  NoDup (first_seen_from seen l).
Proof.
  induction l as [|v l IH]; intros seen; simpl; [constructor|].
  case_decide as Hv; [apply IH|].
  constructor; [|apply IH].
  rewrite elem_of_first_seen_from, elem_of_union, elem_of_singleton. tauto.
Qed.

Lemma first_seen_app l1 l2 :
  first_seen (l1 ++ l2)
  = first_seen l1 ++ first_seen_from (list_to_set (first_seen l1)) l2.
Proof.
  unfold first_seen. rewrite first_seen_from_app, (right_id_L ∅ (∪)).
  do 2 f_equal. apply set_eq. intros x.
  rewrite !elem_of_list_to_set, elem_of_first_seen_from.
  pose proof (not_elem_of_empty (C:=gset string) x). tauto.
Qed.

Lemma take_snoc_full {A} (l : list A) x k n :
  length (l ++ [x]) = n → take n (l ++ x :: k) = l ++ [x].
Proof.
  intros <-. rewrite (cons_middle x l k), app_assoc. apply take_app_length.
Qed.

(** The inner loop appends the new links in order, up to the cap. *)
Lemma add_links_spec hrefs max_urls : ∀ seen urls new_links,
  seen = list_to_set urls →
  Z.of_nat (length urls) < max_urls →
  ∃ new_links',
    add_links hrefs max_urls seen urls new_links
    = (list_to_set
         (take (Z.to_nat max_urls)
            (urls ++ first_seen_from seen ((λ h, site_origin +:+ h) <$> hrefs))),
       take (Z.to_nat max_urls)
         (urls ++ first_seen_from seen ((λ h, site_origin +:+ h) <$> hrefs)),
       new_links').
Proof.
  induction hrefs as [|href rest IH]; intros seen urls nl Hseen Hlen; simpl.
  - exists nl. rewrite app_nil_r, take_ge by lia. by rewrite Hseen.
  - case_decide as Hin; [by apply IH|].
    case_decide as Hcap.
    + exists (nl + 1).
      assert (length (urls ++ [site_origin +:+ href]) = Z.to_nat max_urls)
        as Hfull.
      { rewrite length_app in Hcap |- *. simpl in *. lia. }
      rewrite (take_snoc_full _ _ _ _ Hfull).
      f_equal. f_equal. rewrite Hseen, list_to_set_app_L. simpl.
      rewrite (right_id_L ∅ (∪)). apply (comm_L (∪)).
    + destruct (IH ({[site_origin +:+ href]} ∪ seen)
                  (urls ++ [site_origin +:+ href]) (nl + 1))
        as [nl' Heq].
      * rewrite Hseen, list_to_set_app_L. simpl.
        rewrite (right_id_L ∅ (∪)). apply (comm_L (∪)).
      * rewrite length_app. simpl. rewrite length_app in Hcap. simpl in Hcap. lia.
      * exists nl'. rewrite Heq. by rewrite <- app_assoc.
Qed.

Section Run.
Variable check_bracketed_netloc : string → bool.
Variable check_nfkc : string → bool.
Variable get : string → result response.
Variable parser_error : string → option exn.
Variable book_links : string → list string.
Variable system_sleep : Z → result unit.
Variable base_url : string.
Variable max_urls delay : Z.

Local Abbreviation view := (view_page check_bracketed_netloc check_nfkc get
                          parser_error book_links base_url).
Local Abbreviation upto := (urls_upto check_bracketed_netloc check_nfkc get
                          parser_error book_links base_url).
Local Abbreviation loop := (crawl_loop check_bracketed_netloc check_nfkc get
                          parser_error book_links system_sleep).
Local Abbreviation at_head := (at_page check_bracketed_netloc check_nfkc get
                             parser_error book_links base_url max_urls).
Local Abbreviation stops := (stops_after check_bracketed_netloc check_nfkc get
                           parser_error book_links base_url max_urls).
Local Abbreviation nap := (time_sleep system_sleep delay).

Lemma urls_upto_S k :
  upto (S k)
  = upto k ++ page_urls check_bracketed_netloc check_nfkc get parser_error
                book_links base_url (S k).
Proof.
  unfold urls_upto. rewrite seq_S, flat_map_app. simpl.
  by rewrite app_nil_r.
Qed.

Lemma loop_exit st fuel :
  max_urls ≤ Z.of_nat (length (book_urls st)) →
  loop fuel base_url max_urls delay st = Some (Ok st).
Proof.
  intros H. destruct fuel; simpl; by rewrite decide_False by lia.
Qed.

(** A page that ends the crawl. *)
Lemma loop_ends k st fuel :
  at_head k st →
  Z.of_nat (length (book_urls st)) < max_urls →
  ends_crawl (view (Z.of_nat (S k))) = true →
  ∃ st', loop (S fuel) base_url max_urls delay st = Some (Ok st') ∧
         book_urls st' = book_urls st.
Proof.
  intros (Hpage & _ & _) Hlen Hend. simpl. rewrite decide_True by done.
  unfold view_page in Hend. rewrite <- Hpage in Hend.
  destruct (Url.update_pagination_url _ _ _ _) as [u|e]; [|done].
  destruct (get u) as [r|e]; simpl.
  - unfold raise_for_status. case_decide; simpl.
    + eexists. split; [done|done].
    + destruct (find_links _ _ (text r)) as [[|h hs]|e]; [|done..].
      eexists. split; [done|done].
  - destruct (is_RequestException e); [|done].
    eexists. split; [done|done].
Qed.

(** A page with links: the loop sleeps and goes on from the next page. *)
Lemma loop_step k st fuel :
  at_head k st →
  Z.of_nat (length (first_seen (upto k))) < max_urls →
  has_links (view (Z.of_nat (S k))) = true →
  ∃ st', at_head (S k) st' ∧
         loop (S fuel) base_url max_urls delay st
         = match nap with
           | Ok _ => loop fuel base_url max_urls delay st'
           | Raise e => Some (Raise e)
           end.
Proof.
  intros (Hpage & Hurls & Hseen) Hlen Hlinks.
  rewrite take_ge in Hurls by lia.
  cbn -[add_links time_sleep]. rewrite decide_True by (rewrite Hurls; lia).
  pose proof (urls_upto_S k) as HS. unfold page_urls in HS.
  unfold view_page in Hlinks, HS. rewrite <- Hpage in Hlinks, HS.
  destruct (Url.update_pagination_url _ _ _ _) as [u|e]; [|done].
  destruct (get u) as [r|e]; cbn -[add_links time_sleep];
    [|by destruct (is_RequestException e)].
  unfold raise_for_status. case_decide; cbn -[add_links time_sleep]; [done|].
  destruct (find_links _ _ (text r)) as [[|h hs]|e] eqn:Hbl; [done| |done].
  destruct (add_links_spec (h :: hs) max_urls (seen_urls st) (book_urls st) 0)
    as [nl Hadd]; [done|rewrite Hurls; lia|].
  rewrite Hadd. eexists. split; [|reflexivity].
  split; [simpl; lia|]. simpl. split; [|done].
  rewrite HS, first_seen_app, Hseen, Hurls. done.
Qed.


Lemma stops_after_inv n :
  stops n = true →
  (∀ k, (k < n)%nat → has_links (view (Z.of_nat (S k))) = true) ∧
  (∀ k, (k < n)%nat → Z.of_nat (length (first_seen (upto k))) < max_urls) ∧
  (max_urls ≤ Z.of_nat (length (first_seen (upto n)))
   ∨ ends_crawl (view (Z.of_nat (S n))) = true).
Proof.
  unfold stops_after.
  intros [[H1 H2]%andb_prop H3]%andb_prop.
  rewrite forallb_forall in H1, H2. split; [|split].
  - intros k Hk. apply (H1 (S k)). apply in_seq. lia.
  - intros k Hk. apply Z.ltb_lt, (H2 k). apply in_seq. lia.
  - apply orb_prop in H3 as [H3|H3]; [left; by apply Z.leb_le|by right].
Qed.


(** The list at the head of the loop is short of the cap exactly when the
    first-seen list of the pages read so far is. *)
Lemma at_head_short k st :
  at_head k st →
  Z.of_nat (length (book_urls st)) < max_urls
  ↔ Z.of_nat (length (first_seen (upto k))) < max_urls.
Proof.
  intros (_ & Hurls & _). rewrite Hurls, length_take. lia.
Qed.

(** When the crawl stops after [n] pages, it returns. *)
Lemma loop_run n : ∀ d k st fuel,
  stops n = true →
  ((0 < d)%nat → nap = Ok tt) →
  (k + d = n)%nat →
  at_head k st →
  (d < fuel)%nat →
  ∃ st', loop fuel base_url max_urls delay st = Some (Ok st') ∧
         book_urls st' = take (Z.to_nat max_urls) (first_seen (upto n)).
Proof.
  intros d. induction d as [|d IH]; intros k st fuel Hstop Hnap Hk Hat Hfuel.
  - assert (k = n) as -> by lia.
    destruct (stops_after_inv n Hstop) as (_ & _ & Hlast).
    destruct (decide (Z.of_nat (length (book_urls st)) < max_urls))
      as [Hlt|Hge].
    + destruct Hlast as [Hcap|Hend].
      * exfalso. apply (at_head_short n st Hat) in Hlt. lia.
      * destruct fuel as [|fuel]; [lia|].
        destruct (loop_ends n st fuel Hat Hlt Hend) as (st' & Heq & Hb).
        exists st'. split; [done|]. rewrite Hb. by destruct Hat as (_ & ? & _).
    + exists st. split; [apply loop_exit; lia|]. by destruct Hat as (_ & ? & _).
  - destruct (stops_after_inv n Hstop) as (Hgood & Hless & _).
    destruct fuel as [|fuel]; [lia|].
    destruct (loop_step k st fuel Hat) as (st' & Hat' & Heq).
    { apply Hless. lia. }
    { apply Hgood. lia. }
    rewrite Heq, Hnap by lia.
    apply (IH (S k)); [done|intros _; apply Hnap; lia|lia|done|lia].
Qed.


(** When every page has a link and the cap is never reached, the loop
    uses up every bound. *)
Lemma loop_diverges fuel : ∀ k st,
  never_stops check_bracketed_netloc check_nfkc get parser_error book_links
    base_url max_urls →
  nap = Ok tt →
  at_head k st →
  loop fuel base_url max_urls delay st = None.
Proof.
  induction fuel as [|fuel IH]; intros k st Hnever Hnap Hat.
  - destruct (Hnever k) as [_ Hless].
    apply (at_head_short k st Hat) in Hless.
    cbn. by rewrite decide_True.
  - destruct (Hnever k) as [Hlinks Hless].
    destruct (loop_step k st fuel Hat Hless Hlinks) as (st1 & Hat1 & Heq).
    rewrite Heq, Hnap. by apply (IH (S k)).
Qed.

Lemma at_head_start : at_head 0 (CrawlState 1 ∅ [] [EvStart]).
Proof.
  split; [done|]. split; [|done]. simpl. by destruct (Z.to_nat max_urls).
Qed.

(** A delay that [time.sleep] rejects leaves the loop, as an exception,
    after the first page with links. *)
Lemma loop_nap_fails n fuel e :
  stops n = true → (0 < n)%nat → nap = Raise e →
  loop (S fuel) base_url max_urls delay (CrawlState 1 ∅ [] [EvStart])
  = Some (Raise e).
Proof.
  intros Hstop Hn Hnap.
  destruct (stops_after_inv n Hstop) as (Hgood & Hless & _).
  destruct (loop_step 0 _ fuel at_head_start (Hless 0%nat Hn)
              (Hgood 0%nat Hn)) as (st' & _ & Heq).
  by rewrite Heq, Hnap.
Qed.

End Run.

(** The list that the crawler returns when its run stops after [n] pages. *)
Lemma crawl_first_seen_capped
    (check_bracketed_netloc check_nfkc : string → bool)
    (get : string → result response) (parser_error : string → option exn)
    (book_links : string → list string) (system_sleep : Z → result unit)
    (base_url : string) (max_urls delay : Z) (n fuel : nat) :
  stops_after check_bracketed_netloc check_nfkc get parser_error book_links
    base_url max_urls n = true →
  (n < fuel)%nat →
  ((0 < n)%nat → time_sleep system_sleep delay = Ok tt) →
  let urls :=
    take (Z.to_nat max_urls)
      (first_seen (urls_upto check_bracketed_netloc check_nfkc get
                     parser_error book_links base_url n)) in
  (∃ printed,
     fetch_goodreads_urls check_bracketed_netloc check_nfkc get parser_error
       book_links system_sleep fuel base_url max_urls delay
     = Some (Ok (urls, printed))) ∧
  NoDup urls ∧
  Z.of_nat (length urls) ≤ Z.max 0 max_urls.
Proof.
  intros Hstop Hfuel Hnap urls. split; [|split].
  - destruct (loop_run check_bracketed_netloc check_nfkc get parser_error
                book_links system_sleep base_url max_urls delay n n 0%nat
                (CrawlState 1 ∅ [] [EvStart]) fuel)
      as (st' & Heq & Hurls); [done|done|lia|apply at_head_start|lia|].
    unfold fetch_goodreads_urls. rewrite Heq. eexists. by rewrite Hurls.
  - eapply sublist_NoDup; [|apply sublist_take].
    apply first_seen_from_NoDup.
  - unfold urls. rewrite length_take. lia.
Qed.


(** The crawl of a listing that never ends does not return. *)
Lemma crawl_diverges
    (check_bracketed_netloc check_nfkc : string → bool)
    (get : string → result response) (parser_error : string → option exn)
    (book_links : string → list string) (system_sleep : Z → result unit)
    (base_url : string) (max_urls delay : Z) (fuel : nat) :
  never_stops check_bracketed_netloc check_nfkc get parser_error book_links
    base_url max_urls →
  time_sleep system_sleep delay = Ok tt →
  fetch_goodreads_urls check_bracketed_netloc check_nfkc get parser_error
    book_links system_sleep fuel base_url max_urls delay = None.
Proof.
  intros Hnever Hnap. unfold fetch_goodreads_urls.
  by rewrite (loop_diverges check_bracketed_netloc check_nfkc get
                parser_error book_links system_sleep base_url max_urls delay
                fuel 0%nat _ Hnever Hnap
                (at_head_start check_bracketed_netloc check_nfkc get
                   parser_error book_links base_url max_urls)).
Qed.

(** The crawl with a delay that [time.sleep] rejects. *)
Lemma crawl_nap_fails
    (check_bracketed_netloc check_nfkc : string → bool)
    (get : string → result response) (parser_error : string → option exn)
    (book_links : string → list string) (system_sleep : Z → result unit)
    (base_url : string) (max_urls delay : Z) (n fuel : nat) (e : exn) :
  stops_after check_bracketed_netloc check_nfkc get parser_error book_links
    base_url max_urls n = true →
  (0 < n)%nat → (0 < fuel)%nat →
  time_sleep system_sleep delay = Raise e →
  fetch_goodreads_urls check_bracketed_netloc check_nfkc get parser_error
    book_links system_sleep fuel base_url max_urls delay = Some (Raise e).
Proof.
  intros Hstop Hn Hfuel Hnap. destruct fuel as [|fuel]; [lia|].
  unfold fetch_goodreads_urls.
  by rewrite (loop_nap_fails check_bracketed_netloc check_nfkc get
                parser_error book_links system_sleep base_url max_urls delay
                n fuel e Hstop Hn Hnap).
Qed.



(** The cap cuts a page short. *)
Example crawl_cut_mid_page :
  fst <$> (fetch_goodreads_urls (λ _, true) (λ _, true) shelf_get accepts_all
             shelf_links sleeps 5 shelf 1 2)
          ≫= (λ r, match r with Ok x => Some x | _ => None end)
  = Some ["https://www.goodreads.com/book/show/1.A"].
Proof. vm_compute. reflexivity. Qed.

(** A listing that repeats the same two links on every page, and of which
    20 URLs are asked, is crawled without end. *)
Example crawl_of_a_repeating_listing (fuel : nat) :
  fetch_goodreads_urls (λ _, true) (λ _, true) endless_get accepts_all
    shelf_links sleeps fuel shelf 20 2 = None.
Proof.
  apply crawl_diverges; [|done].
  assert (∀ k : nat,
            view_page (λ _, true) (λ _, true) endless_get accepts_all
              shelf_links shelf (Z.of_nat k)
            = Links ["https://www.goodreads.com/book/show/1.A";
                     "https://www.goodreads.com/book/show/2.B"]) as Hview.
  { intros k. unfold view_page, Url.update_pagination_url.
    assert (Url.urlparse (λ _, true) (λ _, true) shelf
            = Ok (Url.mkParseResult "https" "www.goodreads.com"
                    "/shelf/show/fantasy" "" "" "")) as ->
      by (vm_compute; reflexivity).
    reflexivity. }
  intros k. split; [by rewrite Hview|].
  set (two := ["https://www.goodreads.com/book/show/1.A";
               "https://www.goodreads.com/book/show/2.B"]) in *.
  assert (∀ n u, u ∈ urls_upto (λ _, true) (λ _, true) endless_get
                       accepts_all shelf_links shelf n → u ∈ two) as Hin.
  { intros n u. unfold urls_upto. intros Hu.
    apply list_elem_of_In, in_flat_map in Hu as (j & _ & Hu).
    apply list_elem_of_In in Hu.
    unfold page_urls in Hu. by rewrite Hview in Hu. }
  match goal with |- Z.of_nat (length ?l) < _ =>
    assert (length l ≤ 2)%nat; [|lia]; set (l0 := l) end.
  change 2%nat with (length two).
  apply submseteq_length, NoDup_submseteq; [apply first_seen_from_NoDup|].
  intros u [Hu _]%elem_of_first_seen_from. by apply (Hin k).
Qed.


End CrawlerFacts.

Module ExtractFacts.
Import PyStr Regex Extract.

Lemma extract_int_absent : count_field None = Ok 0.
Proof. reflexivity. Qed.

Lemma extract_int_empty : extract_int_from_text "" = Ok 0.
Proof. reflexivity. Qed.

(** When the text has a digit (and no more than the interpreter's limit),
    the result is the number that its digits spell. *)
Lemma extract_int_digits (text : string) :
  strip_non_digits text ≠ "" →
  (String.length (strip_non_digits text) ≤ int_max_str_digits)%nat →
  extract_int_from_text text = Ok (digits_value 0 (strip_non_digits text)).
Proof.
  intros Hne Hlen. destruct text as [|c text]; [done|].
  unfold extract_int_from_text, py_int.
  destruct (strip_non_digits (String c text)) as [|d ds] eqn:Hd; [done|].
  destruct (Nat.ltb_spec int_max_str_digits (String.length (String d ds)));
    [lia|done].
Qed.

Example extract_int_ratings :
  extract_int_from_text "625,058 ratings" = Ok 625058.
Proof. vm_compute. reflexivity. Qed.

(** A non-empty text without any digit makes [int("")] raise. *)
Lemma extract_int_no_digit (text : string) :
  text ≠ "" → strip_non_digits text = "" →
  extract_int_from_text text = Raise ValueError.
Proof.
  intros Hne Hd. destruct text as [|c text]; [done|].
  unfold extract_int_from_text. by rewrite Hd.
Qed.

(** C8.  On the text of a ratings element that shows no number, the
    extraction raises [ValueError]: it is not total. *)
Theorem extract_int_from_text_raises :
  extract_int_from_text "No ratings yet" = Raise ValueError ∧
  count_field (Some "No ratings yet") = Raise ValueError.
Proof. split; vm_compute; reflexivity. Qed.

Lemma match_rep_exact {R} p n : ∀ prev s (k : position → option string → option R) cap,
  match_rep p n (Some n) prev s k cap
  = if (n <=? String.length s)%nat && all_chars p (take n s)
    then k (Pos (last_char prev (take n s)) (drop n s)) cap
    else None.
Proof.
  induction n as [|n IH]; intros prev s k cap.
  - destruct s as [|c s]; [reflexivity|].
    cbn [match_rep]. rewrite bool_decide_true by done.
    by rewrite andb_false_r.
  - destruct s as [|c s]; [reflexivity|].
    cbn [match_rep]. rewrite bool_decide_false by done.
    rewrite andb_true_r. cbn [fmap option_fmap option_map pred].
    destruct (p c) eqn:Hc.
    + rewrite IH. cbn [String.length take drop all_chars last_char].
      rewrite Hc. cbn [andb]. 
      change (S n <=? S (String.length s))%nat with (n <=? String.length s)%nat.
      destruct ((n <=? String.length s)%nat && all_chars p (take n s));
        [|done].
      by destruct (k _ _).
    + cbn [String.length take all_chars]. rewrite Hc.
      by rewrite andb_false_r.
Qed.

Lemma last_char_all p : ∀ s prev,
  all_chars p s = true → s ≠ "" → ∃ c, last_char prev s = Some c ∧ p c = true.
Proof.
  induction s as [|c s IH]; intros prev Hall Hne; [done|].
  simpl in *. apply andb_prop in Hall as [Hc Hs].
  destruct s as [|d s]; [by exists c|].
  apply IH; done.
Qed.

Lemma digit_is_word c : is_digit c = true → is_word c = true.
Proof. intros H. unfold is_word. rewrite H. by rewrite orb_true_r. Qed.

Lemma length_drop n : ∀ s, String.length (drop n s) = (String.length s - n)%nat.
Proof.
  induction n as [|n IH]; intros [|c s]; simpl; done.
Qed.

Lemma take_empty_iff n s : (0 < n)%nat → s ≠ "" → take n s ≠ "".
Proof.
  intros Hn Hs. destruct n; [lia|]. destruct s; [done|]. simpl. discriminate.
Qed.

Lemma match_here_isbn prev s :
  match_here isbn_pattern (Pos prev s)
  = if isbn13_here prev s then Some (take 13 s, None) else None.
Proof.
  unfold match_here, isbn_pattern, isbn13_here, exactly.
  cbn [match_at before rest]. unfold at_word_boundary. cbn [before rest].
  destruct s as [|c1 [|c2 [|c3 s3]]].
  - simpl. destruct (is_word_opt prev); reflexivity.
  - simpl. destruct (is_word_opt prev), (is_word c1); simpl; try reflexivity;
    case_bool_decide; reflexivity.
  - simpl. destruct (is_word_opt prev), (is_word c1); simpl; try reflexivity;
    repeat (case_bool_decide; simpl; try reflexivity).
  - destruct (decide (c1 = "9"%char)) as [->|H1].
    2:{ cbn [advance rest before]. rewrite bool_decide_false by done.
        cbn [starts_with]. rewrite bool_decide_false by done.
        cbn [andb orb]. rewrite andb_false_r. cbn [andb].
        by destruct (xorb _ _). }
    destruct (decide (c2 = "7"%char)) as [->|H2].
    2:{ cbn [advance rest before]. rewrite bool_decide_true by done.
        cbn [advance]. rewrite bool_decide_false by done.
        cbn [starts_with]. rewrite bool_decide_true by done.
        rewrite (bool_decide_false ("7"%char = c2)) by done.
        cbn [andb orb]. rewrite andb_false_r. cbn [andb].
        by destruct (xorb _ _). }
    cbn [advance rest before first_char is_word_opt starts_with].
    rewrite !bool_decide_true by done. cbn [advance rest andb].
    change (is_word "9") with true. rewrite xorb_true_r.
    change (contains c3 "89")
      with (bool_decide ("8"%char = c3) || (bool_decide ("9"%char = c3) || false)).
    rewrite orb_false_r.
    destruct (negb (is_word_opt prev)); [|done]. cbn [andb].
    rewrite !andb_true_r.
    destruct (bool_decide ("8"%char = c3) || bool_decide ("9"%char = c3))
      eqn:H3; [|done].
    rewrite match_rep_exact. cbn [andb].
    assert (is_digit c3 = true) as Hd3.
    { apply orb_prop in H3 as [H3|H3]; apply bool_decide_eq_true in H3;
        by subst. }
    change (13 <=? String.length (String "9" (String "7" (String c3 s3))))%nat
      with (10 <=? String.length s3)%nat.
    change (take 13 (String "9" (String "7" (String c3 s3))))
      with (String "9" (String "7" (String c3 (take 10 s3)))).
    change (drop 13 (String "9" (String "7" (String c3 s3))))
      with (drop 10 s3).
    cbn [all_chars]. rewrite Hd3.
    change (is_digit "9") with true. change (is_digit "7") with true.
    cbn [andb].
    destruct (Nat.leb_spec 10 (String.length s3)) as [Hlen|Hlen]; [|done].
    cbn [andb].
    destruct (all_chars is_digit (take 10 s3)) eqn:Hall; [|done].
    cbn [before rest].
    destruct (last_char_all is_digit (take 10 s3) (Some c3) Hall)
      as (c & -> & Hc).
    { apply take_empty_iff; [lia|]. destruct s3; [simpl in Hlen; lia|done]. }
    cbn [is_word_opt]. rewrite (digit_is_word _ Hc), xorb_true_l.
    destruct (negb (is_word_opt (first_char (drop 10 s3)))); [|done].
    do 2 f_equal. rewrite length_drop.
    replace (String.length (String "9" (String "7" (String c3 s3)))
             - (String.length s3 - 10))%nat with 13%nat
      by (cbn [String.length]; lia).
    reflexivity.
Qed.

Lemma search_from_isbn s : ∀ prev,
  search_from isbn_pattern prev s
  = (λ m, (m, None)) <$> first_isbn13 prev s.
Proof.
  induction s as [|c s IH]; intros prev.
  - cbn [search_from first_isbn13]. rewrite match_here_isbn.
    by destruct (isbn13_here prev "").
  - cbn [search_from first_isbn13]. rewrite match_here_isbn.
    destruct (isbn13_here prev (String c s)); [done|]. apply IH.
Qed.


Lemma digit_not_space c : is_digit c = true → is_space c = false.
Proof.
  unfold is_digit, is_space, in_range.
  intros [H1 H2]%andb_prop. apply N.leb_le in H1, H2.
  apply orb_false_intro; apply andb_false_intro2; apply N.leb_gt; lia.
Qed.






(** A 13-digit sequence glued to a word character is not found. *)
Example extract_isbn_needs_word_boundary :
  extract_isbn [] "ISBN9780393355949" = Ok "N/A" ∧
  spec_extract_isbn [] "ISBN9780393355949" = "9780393355949".
Proof. split; vm_compute; reflexivity. Qed.



Example extract_isbn_from_markup :
  extract_isbn ["Chuck Palahniuk showed himself"]
    "<span>ISBN 9780393355949</span>" = Ok "9780393355949".
Proof. vm_compute. reflexivity. Qed.

End ExtractFacts.

Module StrFacts.
Import PyStr.

Lemma str_app_cons c (s t : string) : String c s +:+ t = String c (s +:+ t).
Proof. reflexivity. Qed.

Lemma str_app_nil_l (s : string) : "" +:+ s = s.
Proof. reflexivity. Qed.

Lemma str_app_nil_r (s : string) : s +:+ "" = s.
Proof. induction s as [|c s IH]; [done|]. by rewrite str_app_cons, IH. Qed.

Lemma str_app_assoc (s t u : string) : (s +:+ t) +:+ u = s +:+ t +:+ u.
Proof. induction s as [|c s IH]; [done|]. by rewrite !str_app_cons, IH. Qed.


Lemma str_length_app (s t : string) :
  String.length (s +:+ t) = (String.length s + String.length t)%nat.
Proof. induction s as [|c s IH]; [done|]. rewrite str_app_cons. cbn. by rewrite IH. Qed.

Lemma all_chars_app p (s t : string) :
  all_chars p (s +:+ t) = all_chars p s && all_chars p t.
Proof.
  induction s as [|c s IH]; [done|]. rewrite str_app_cons. cbn.
  rewrite IH. by rewrite andb_assoc.
Qed.

Lemma all_chars_impl (p q : ascii → bool) s :
  (∀ c, p c = true → q c = true) → all_chars p s = true → all_chars q s = true.
Proof.
  intros Hpq. induction s as [|c s IH]; [done|]. cbn.
  intros [Hc Hs]%andb_prop. by rewrite (Hpq _ Hc), IH.
Qed.

(** [c] does not occur in [s], as a property of all its characters. *)
Lemma contains_false c s :
  contains c s = false ↔ all_chars (λ a, negb (bool_decide (a = c))) s = true.
Proof.
  induction s as [|a s IH]; [done|]. cbn.
  destruct (bool_decide (a = c)); cbn; [by split|apply IH].
Qed.

Lemma contains_app c (s t : string) :
  contains c (s +:+ t) = contains c s || contains c t.
Proof.
  induction s as [|a s IH]; [done|]. rewrite str_app_cons. cbn.
  rewrite IH. by rewrite orb_assoc.
Qed.

Lemma all_chars_contains p c s :
  all_chars p s = true → p c = false → contains c s = false.
Proof.
  intros Hall Hc. apply contains_false.
  eapply all_chars_impl; [|exact Hall].
  intros a Ha. case_bool_decide; [congruence|done].
Qed.



Lemma all_chars_filter_other p q s :
  all_chars q s = true → all_chars q (filter_chars p s) = true.
Proof.
  induction s as [|c s IH]; [done|]. cbn.
  intros [Hc Hs]%andb_prop. destruct (p c); cbn; [rewrite Hc|]; auto.
Qed.

(** *** [span] *)

Lemma span_inv p s a b :
  span p s = (a, b) →
  s = a +:+ b ∧ all_chars p a = true ∧
  match b with String c _ => p c = false | EmptyString => True end.
Proof.
  revert a b. induction s as [|c s IH]; intros a b; cbn.
  - by intros [= <- <-].
  - destruct (p c) eqn:Hc.
    + destruct (span p s) as [a' b'] eqn:Hs. intros [= <- <-].
      destruct (IH a' b' eq_refl) as (-> & Ha & Hb).
      rewrite str_app_cons. cbn. by rewrite Hc.
    + intros [= <- <-]. by rewrite Hc.
Qed.

Lemma span_app p (a b : string) :
  all_chars p a = true →
  match b with String c _ => p c = false | EmptyString => True end →
  span p (a +:+ b) = (a, b).
Proof.
  intros Ha Hb. induction a as [|c a IH].
  - destruct b as [|c b]; [done|]. rewrite str_app_nil_l. cbn. by rewrite Hb.
  - rewrite str_app_cons. cbn in *. apply andb_prop in Ha as [-> Ha]. by rewrite IH.
Qed.

Lemma span_false p c s : p c = false → span p (String c s) = ("", String c s).
Proof. intros H. cbn. by rewrite H. Qed.

(** *** [partition] and [rpartition] *)

Lemma partition_inv c s a b :
  partition c s = Some (a, b) →
  s = a +:+ String c b ∧ contains c a = false.
Proof.
  revert a. induction s as [|d s IH]; intros a; cbn; [done|].
  case_bool_decide as Hd.
  - intros [= <- <-]. by subst.
  - destruct (partition c s) as [[a' b']|] eqn:Hs; [|done].
    intros [= <- <-]. destruct (IH a' eq_refl) as [-> Ha].
    rewrite str_app_cons. cbn. by rewrite bool_decide_false.
Qed.

Lemma partition_None c s : partition c s = None ↔ contains c s = false.
Proof.
  induction s as [|d s IH]; [done|]. cbn.
  case_bool_decide; [done|]. cbn. rewrite <- IH.
  by destruct (partition c s) as [[??]|].
Qed.

Lemma partition_app c (a b : string) :
  contains c a = false → partition c (a +:+ String c b) = Some (a, b).
Proof.
  induction a as [|d a IH]; rewrite ?str_app_cons, ?str_app_nil_l; cbn.
  - intros _. by rewrite bool_decide_true.
  - case_bool_decide; [done|]. cbn. intros Ha. by rewrite IH.
Qed.




Lemma starts_with_app (p s : string) : starts_with p (p +:+ s) = true.
Proof.
  induction p as [|c p IH]; [done|]. rewrite str_app_cons. cbn.
  by rewrite bool_decide_true.
Qed.

End StrFacts.

Module DateFacts.
Import PyStr Regex Extract StrFacts.



(** *** The text of a date *)







(** *** The parse *)




Section Patterns.
Variable today : date.
Variable parse_other : string → result date.

Local Abbreviation extract := (extract_publication_date today parse_other).
Local Abbreviation normalize := (normalize_date today parse_other).





End Patterns.




Example extract_month_year :
  extract_publication_date (Date 2026 11 30) (λ _, Raise ValueError)
    (Some "Published February 1996") = "1996-02-29".
Proof. vm_compute. reflexivity. Qed.

Example extract_no_match :
  extract_publication_date (Date 2026 11 3) (λ _, Raise ValueError)
    (Some "Expected publication next spring") = "N/A".
Proof. vm_compute. reflexivity. Qed.

(** A year before 1000, which only the part of the parser outside the
    three shapes can give, is written without leading zeros. *)
Example extract_early_year :
  extract_publication_date (Date 2026 11 3) (λ _, Ok (Date 999 11 3))
    (Some "Published 0999") = "999-11-03" ∧
  is_ymd "999-11-03" = false.
Proof. split; vm_compute; reflexivity. Qed.

End DateFacts.

Module QueryFacts.
Import PyStr Url UrlSpec StrFacts.












(** *** Decoding *)


Lemma utf8_replace_replacement t :
  utf8_replace (replacement t) = replacement (utf8_replace t).
Proof. reflexivity. Qed.

(** Every call of the decoder of a text is on a shorter text: induction
    on the length. *)
Lemma utf8_replace_idem s : utf8_replace (utf8_replace s) = utf8_replace s.
Proof.
  remember (String.length s) as n eqn:Hn.
  revert s Hn. induction (lt_wf n) as [n _ IH]. intros s ->.
  assert (∀ t, (String.length t < String.length s)%nat →
               utf8_replace (utf8_replace t) = utf8_replace t) as Hrec.
  { intros t Ht. by apply (IH (String.length t)). }
  clear IH. destruct s as [|b0 r]; [done|].
  cbn [utf8_replace].
  destruct (is_ascii b0) eqn:H0.
  { cbn [utf8_replace]. rewrite H0, Hrec; [done|cbn; lia]. }
  destruct (in_range 194 223 b0) eqn:H2.
  { destruct r as [|b1 r1]; [done|].
    destruct (continuation b1) eqn:Hc1.
    - cbn [utf8_replace]. rewrite H0, H2, Hc1, Hrec; [done|cbn; lia].
    - rewrite utf8_replace_replacement, Hrec; [done|cbn; lia]. }
  destruct (in_range 224 239 b0) eqn:H3.
  { destruct r as [|b1 r1]; [done|].
    destruct (second_of_3 b0 b1) eqn:Hs1.
    - destruct r1 as [|b2 r2]; [done|].
      destruct (continuation b2) eqn:Hc2.
      + cbn [utf8_replace]. rewrite H0, H2, H3, Hs1, Hc2, Hrec;
          [done|cbn; lia].
      + rewrite utf8_replace_replacement, Hrec; [done|cbn; lia].
    - rewrite utf8_replace_replacement, Hrec; [done|cbn; lia]. }
  destruct (in_range 240 244 b0) eqn:H4.
  { destruct r as [|b1 r1]; [done|].
    destruct (second_of_4 b0 b1) eqn:Hs1.
    - destruct r1 as [|b2 r2]; [done|].
      destruct (continuation b2) eqn:Hc2.
      + destruct r2 as [|b3 r3]; [done|].
        destruct (continuation b3) eqn:Hc3.
        * cbn [utf8_replace]. rewrite H0, H2, H3, H4, Hs1, Hc2, Hc3, Hrec;
            [done|cbn; lia].
        * rewrite utf8_replace_replacement, Hrec; [done|cbn; lia].
      + rewrite utf8_replace_replacement, Hrec; [done|cbn; lia].
    - rewrite utf8_replace_replacement, Hrec; [done|cbn; lia]. }
  rewrite utf8_replace_replacement, Hrec; [done|cbn; lia].
Qed.


Lemma is_text_decoded s : is_text (utf8_replace s).
Proof. apply utf8_replace_idem. Qed.


(** *** Well-formed text *)














(** *** [unquote] on a text *)






(** *** [unquote] on ASCII text *)











(** *** [split] and [join] *)






(** *** Dictionaries *)














(** *** The fields of a query that is a text *)
























End QueryFacts.

Module UrlFacts.
Import PyStr Url UrlSpec StrFacts QueryFacts.

(** *** Characters *)

Ltac all_ascii c :=
  destruct c as [[] [] [] [] [] [] [] []]; vm_compute; try done.






Lemma slash_plain : c0_or_space "/" = false ∧ is_alpha "/" = false.
Proof. done. Qed.



(** *** Pieces of a string *)

Lemma all_chars_drop p n : ∀ s,
  all_chars p s = true → all_chars p (drop n s) = true.
Proof.
  induction n as [|n IH]; intros [|c s]; cbn; try done.
  intros [_ Hs]%andb_prop. by apply IH.
Qed.

Lemma all_chars_lstrip p q s :
  all_chars p s = true → all_chars p (lstrip q s) = true.
Proof.
  unfold lstrip. destruct (span q s) as [a b] eqn:Hs.
  apply span_inv in Hs as (-> & _ & _). rewrite all_chars_app.
  by intros [_ ?]%andb_prop.
Qed.

Lemma starts_with_2 (s : string) :
  starts_with "//" s = true → s = "//" +:+ drop 2 s.
Proof.
  destruct s as [|a [|b s]]; cbn; try done.
  - by rewrite andb_false_r.
  - intros [Ha [Hb _]%andb_prop]%andb_prop.
    apply bool_decide_eq_true in Ha, Hb. by subst.
Qed.





(** *** What [urlparse] returns *)

Lemma split_scheme_inv u s r :
  split_scheme u = (s, r) →
  (s = "" ∧ r = u) ∨
  (∃ c0 pre, s = lower (String c0 pre) ∧ u = String c0 pre +:+ String ":" r ∧
             is_alpha c0 = true ∧ all_chars scheme_char (String c0 pre) = true).
Proof.
  unfold split_scheme.
  destruct (partition ":" u) as [[[|c0 pre] post]|] eqn:Hp;
    try (intros [= <- <-]; by left).
  destruct (is_alpha c0 && all_chars scheme_char (String c0 pre)) eqn:Hc;
    [|intros [= <- <-]; by left].
  intros [= <- <-]. right. apply partition_inv in Hp as [-> _].
  apply andb_prop in Hc as [? ?]. by exists c0, pre.
Qed.







(** *** Parsing what [urlunparse] builds *)


Lemma lstrip_head q c s : q c = false → lstrip q (String c s) = String c s.
Proof. intros H. unfold lstrip. cbn. by rewrite H. Qed.




(** *** Without a network location *)















End UrlFacts.

Module PaginationFacts.
Import PyStr Url UrlSpec StrFacts QueryFacts UrlFacts.

Section Update.
Variable cb cn : string → bool.




End Update.




Example update_pagination_url_shelf :
  update_pagination_url (λ _, true) (λ _, true)
    "https://www.goodreads.com/shelf/show/fantasy" 2
  = Ok "https://www.goodreads.com/shelf/show/fantasy?page=2".
Proof. vm_compute. reflexivity. Qed.

(** A reference without scheme and network location, a parameter whose
    escapes are UTF-8, and one whose escape is not: the byte [FF] is read
    as U+FFFD and written back as such. *)
Example update_pagination_url_escapes :
  update_pagination_url (λ _, true) (λ _, true) "/shelf/show?x=1" 2
  = Ok "/shelf/show?x=1&page=2" ∧
  update_pagination_url (λ _, true) (λ _, true)
    "https://www.goodreads.com/search?q=caf%C3%A9" 2
  = Ok "https://www.goodreads.com/search?q=caf%C3%A9&page=2" ∧
  update_pagination_url (λ _, true) (λ _, true)
    "https://www.goodreads.com/search?q=%FF" 2
  = Ok "https://www.goodreads.com/search?q=%EF%BF%BD&page=2".
Proof. repeat split; vm_compute; reflexivity. Qed.

(** Characters outside ASCII in the query: they are written back as
    escapes, and an escape next to them is decoded on its own. *)
Example update_pagination_url_unicode :
  update_pagination_url (λ _, true) (λ _, true)
    "https://www.goodreads.com/search?q=café" 2
  = Ok "https://www.goodreads.com/search?q=caf%C3%A9&page=2" ∧
  update_pagination_url (λ _, true) (λ _, true)
    "https://www.goodreads.com/search?q=é%41&page=9" 2
  = Ok "https://www.goodreads.com/search?q=%C3%A9A&page=2" ∧
  update_pagination_url (λ _, true) (λ _, true) "/s?a=%C3é" 2
  = Ok "/s?a=%EF%BF%BD%C3%A9&page=2" ∧
  is_text "q=café".
Proof. repeat split; vm_compute; reflexivity. Qed.

(** A malformed bracketed host makes [urlparse] raise. *)
Example update_pagination_url_raises :
  update_pagination_url (λ _, true) (λ _, true) "http://[::1/shelf" 2
  = Raise ValueError.
Proof. vm_compute. reflexivity. Qed.

(** Where the path is not kept: [urlunsplit] puts [///] before a path
    that follows the scheme directly, and a path that starts with [//] is
    read back as a network location. *)
Example update_pagination_url_relative :
  update_pagination_url (λ _, true) (λ _, true) "http:shelf" 2
  = Ok "http:///shelf?page=2" ∧
  update_pagination_url (λ _, true) (λ _, true) "////x" 2
  = Ok "//x?page=2" ∧
  keeps_path (mkParseResult "http" "" "shelf" "" "" "") = false ∧
  keeps_path (mkParseResult "" "" "//x" "" "" "") = false.
Proof. repeat split; vm_compute; reflexivity. Qed.

End PaginationFacts.

Module CrawlerLegacyFacts.
Import Fetch Crawler CrawlerLegacy CrawlerFacts.

Lemma add_links_list_spec hrefs max_urls : ∀ urls new_links,
  ∃ new_links',
    add_links hrefs max_urls (list_to_set urls) urls new_links
    = (list_to_set (add_links_list hrefs max_urls urls),
       add_links_list hrefs max_urls urls, new_links').
Proof.
  induction hrefs as [|href rest IH]; intros urls nl; simpl.
  - by exists nl.
  - destruct (decide (site_origin +:+ href ∈ urls)) as [Hin|Hin].
    + rewrite decide_True by by apply elem_of_list_to_set. apply IH.
    + rewrite decide_False by by rewrite elem_of_list_to_set.
      assert ({[site_origin +:+ href]} ∪ list_to_set urls
              =@{gset string} list_to_set (urls ++ [site_origin +:+ href]))
        as Hset.
      { rewrite list_to_set_app_L. simpl.
        rewrite (right_id_L ∅ (∪)). apply (comm_L (∪)). }
      case_decide; [exists (nl + 1); by rewrite Hset|].
      rewrite Hset. apply IH.
Qed.

Section Relate.
Variable cb cn : string → bool.
Variable get : string → result response.
Variable parser_error : string → option exn.
Variable book_links : string → list string.
Variable system_sleep : Z → result unit.

(** The older crawler, given a delay that [time.sleep] accepts, returns
    what the crawler of [url.py] returns on the site where its failures
    are failed requests and the documents that the parser refuses are
    pages without links. *)
Lemma crawl_loop_list_eq fuel base_url max_urls delay :
  time_sleep system_sleep delay = Ok tt →
  ∀ page urls printed,
  crawl_loop_list cb cn get parser_error book_links system_sleep fuel
    base_url max_urls delay page urls
  = (λ r, match r with
          | Ok st => Ok (book_urls st)
          | Raise e => Raise e
          end)
    <$> crawl_loop cb cn (as_failures get) accepts_all
          (as_no_links parser_error book_links) system_sleep fuel base_url
          max_urls delay (CrawlState page (list_to_set urls) urls printed).
Proof.
  intros Hnap. induction fuel as [|fuel IH]; intros page urls printed.
  - cbn -[add_links]. by case_decide.
  - cbn -[add_links add_links_list time_sleep]. case_decide; [|done].
    destruct (Url.update_pagination_url cb cn base_url page) as [u|e]; [|done].
    unfold as_failures. destruct (get u) as [r|e]; [|done].
    case_decide as Hs; [done|]. cbn -[add_links add_links_list time_sleep].
    unfold raise_for_status.
    rewrite decide_False by lia.
    cbn -[add_links add_links_list time_sleep].
    unfold find_links, accepts_all, as_no_links.
    destruct (parser_error (text r)); [done|].
    destruct (book_links (text r)) as [|h hs]; [done|].
    destruct (add_links_list_spec (h :: hs) max_urls urls 0) as [nl ->].
    rewrite Hnap. apply IH.
Qed.

(** The amended C2 for the crawler of [url_scraper.py]. *)
Lemma fetch_goodreads_urls_legacy_first_seen_capped
    (base_url : string) (max_urls delay : Z) (n fuel : nat) :
  stops_after cb cn (as_failures get) accepts_all
    (as_no_links parser_error book_links) base_url max_urls n = true →
  (n < fuel)%nat →
  time_sleep system_sleep delay = Ok tt →
  let urls :=
    take (Z.to_nat max_urls)
      (first_seen (urls_upto cb cn (as_failures get) accepts_all
                     (as_no_links parser_error book_links) base_url n)) in
  CrawlerLegacy.fetch_goodreads_urls cb cn get parser_error book_links
    system_sleep fuel base_url max_urls delay
  = Some (Ok urls) ∧
  NoDup urls ∧
  Z.of_nat (length urls) ≤ Z.max 0 max_urls.
Proof.
  intros Hstop Hfuel Hnap urls.
  destruct (crawl_first_seen_capped cb cn (as_failures get) accepts_all
              (as_no_links parser_error book_links) system_sleep base_url
              max_urls delay n fuel Hstop Hfuel (λ _, Hnap))
    as ([printed Hrun] & Hnd & Hlen).
  split; [|done].
  unfold CrawlerLegacy.fetch_goodreads_urls.
  rewrite (crawl_loop_list_eq fuel base_url max_urls delay Hnap 1 []
             [EvStart]).
  unfold Crawler.fetch_goodreads_urls in Hrun.
  change (list_to_set []) with (∅ : gset string).
  destruct (crawl_loop cb cn (as_failures get) accepts_all
              (as_no_links parser_error book_links) system_sleep fuel
              base_url max_urls delay (CrawlState 1 ∅ [] [EvStart]))
    as [[st|e]|]; [|done..].
  cbn. by injection Hrun as -> _.
Qed.

(** The first iteration of the older crawler, in terms of the page as
    the loop sees it. *)
Lemma legacy_first_page fuel base_url max_urls delay :
  0 < max_urls →
  crawl_loop_list cb cn get parser_error book_links system_sleep (S fuel)
    base_url max_urls delay 1 []
  = match view_page cb cn (as_failures get) accepts_all
            (as_no_links parser_error book_links) base_url 1 with
    | Crashed e => Some (Raise e)
    | Failed | Links [] => Some (Ok [])
    | Links urls =>
        let book_urls := take (Z.to_nat max_urls) (first_seen urls) in
        match time_sleep system_sleep delay with
        | Raise _ => Some (Ok book_urls)
        | Ok _ =>
            crawl_loop_list cb cn get parser_error book_links system_sleep
              fuel base_url max_urls delay 2 book_urls
        end
    end.
Proof.
  intros Hmax. cbn -[add_links_list time_sleep].
  rewrite decide_True by (cbn; lia). unfold view_page.
  destruct (Url.update_pagination_url cb cn base_url 1) as [u|e]; [|done].
  unfold as_failures. destruct (get u) as [r|e]; [|done].
  case_decide as Hs; [done|]. cbn -[add_links_list time_sleep].
  rewrite decide_False by lia.
  unfold find_links, accepts_all, as_no_links.
  destruct (parser_error (text r)); [done|].
  destruct (book_links (text r)) as [|h hs]; [done|].
  destruct (add_links_list_spec (h :: hs) max_urls [] 0) as [nl Hlist].
  destruct (add_links_spec (h :: hs) max_urls (list_to_set []) [] 0)
    as [nl' Hset]; [done|cbn; lia|].
  rewrite Hset in Hlist. apply (f_equal (λ x, x.1.2)) in Hlist.
  cbn [fst snd] in Hlist. rewrite <- Hlist, app_nil_l. done.
Qed.

(** The older crawler returns whenever its crawl stops: with a delay that
    [time.sleep] rejects, after the first page. *)
Lemma legacy_crawl_stops (base_url : string) (max_urls delay : Z)
    (n fuel : nat) :
  stops_after cb cn (as_failures get) accepts_all
    (as_no_links parser_error book_links) base_url max_urls n = true →
  (n < fuel)%nat →
  let pages :=
    match time_sleep system_sleep delay with
    | Ok _ => n
    | Raise _ => Nat.min n 1
    end in
  CrawlerLegacy.fetch_goodreads_urls cb cn get parser_error book_links
    system_sleep fuel base_url max_urls delay
  = Some (Ok (take (Z.to_nat max_urls)
                (first_seen (urls_upto cb cn (as_failures get) accepts_all
                               (as_no_links parser_error book_links)
                               base_url pages)))).
Proof.
  intros Hstop Hfuel pages.
  destruct (time_sleep system_sleep delay) as [[]|e] eqn:Hnap.
  { by destruct (fetch_goodreads_urls_legacy_first_seen_capped base_url
                    max_urls delay n fuel Hstop Hfuel Hnap) as [-> _]. }
  unfold CrawlerLegacy.fetch_goodreads_urls.
  destruct (decide (0 < max_urls)) as [Hmax|Hmax].
  2:{ replace (Z.to_nat max_urls) with 0%nat by lia.
      destruct fuel; cbn; by rewrite decide_False by (cbn; lia). }
  destruct fuel as [|fuel]; [lia|].
  rewrite legacy_first_page by done. rewrite Hnap.
  destruct (stops_after_inv cb cn (as_failures get) accepts_all
              (as_no_links parser_error book_links) base_url max_urls n
              Hstop) as (Hgood & _ & Hlast).
  unfold urls_upto, page_urls.
  destruct n as [|n]; subst pages;
    [|replace (Nat.min (S n) 1) with 1%nat by lia]; cbn [Nat.min seq flat_map].
  - destruct Hlast as [Hcap|Hend]; [cbn in Hcap; lia|].
    change (Z.of_nat 1) with 1 in Hend.
    destruct (view_page _ _ _ _ _ _ 1) as [[|u us]| |e']; try done;
      by destruct (Z.to_nat max_urls).
  - specialize (Hgood 0%nat ltac:(lia)).
    change (Z.of_nat 1) with 1 in Hgood |- *.
    destruct (view_page _ _ _ _ _ _ 1) as [[|u us]| |e']; try done.
    by rewrite app_nil_r.
Qed.

End Relate.

Example legacy_crawl_shelf :
  CrawlerLegacy.fetch_goodreads_urls (λ _, true) (λ _, true)
    Fixtures.shelf_get accepts_all Fixtures.shelf_links sleeps 5
    Fixtures.shelf 20 2
  = Some (Ok ["https://www.goodreads.com/book/show/1.A";
              "https://www.goodreads.com/book/show/2.B";
              "https://www.goodreads.com/book/show/3.C"]).
Proof. vm_compute. reflexivity. Qed.

(** With a negative delay the crawler of [url_scraper.py] stops after the
    first page, and the crawler of [url.py] raises. *)
Example crawl_with_negative_delay :
  CrawlerLegacy.fetch_goodreads_urls (λ _, true) (λ _, true)
    Fixtures.shelf_get accepts_all Fixtures.shelf_links sleeps 5
    Fixtures.shelf 20 (-1)
  = Some (Ok ["https://www.goodreads.com/book/show/1.A";
              "https://www.goodreads.com/book/show/2.B"]) ∧
  Crawler.fetch_goodreads_urls (λ _, true) (λ _, true)
    Fixtures.shelf_get accepts_all Fixtures.shelf_links sleeps 5
    Fixtures.shelf 20 (-1)
  = Some (Raise ValueError).
Proof. split; vm_compute; reflexivity. Qed.

End CrawlerLegacyFacts.

(** ** More on [remove_duplicates] *)

Module DedupMore.
Import Dedup DedupFacts.

Lemma loop_titles data : ∀ (seen : gset string) t,
  t ∈ title <$> remove_duplicates_loop data seen []
  ↔ t ∈ title <$> data ∧ t ∉ seen.
Proof.
  induction data as [|c rest IH]; intros seen t.
  - simpl. rewrite elem_of_nil. tauto.
  - destruct (decide (title c ∈ seen)) as [Hc|Hc].
    + rewrite loop_cons_seen by done. rewrite IH, fmap_cons, elem_of_cons.
      split; [tauto|]. intros [[->|?] ?]; tauto.
    + rewrite loop_cons_new by done.
      rewrite !fmap_cons, !elem_of_cons, IH, not_elem_of_add.
      destruct (decide (t = title c)) as [->|]; [tauto|].
      split; [intros [?|(? & ? & ?)]; tauto|].
      intros [[?|?] ?]; [tauto|]. right. auto.
Qed.

(** The loop started with the titles in [seen] is the loop started afresh
    on the records whose title is not in [seen]. *)
Lemma loop_filter data : ∀ (seen others : gset string),
  remove_duplicates_loop data (seen ∪ others) []
  = remove_duplicates_loop (filter (λ b, title b ∉ seen) data) others [].
Proof.
  induction data as [|c rest IH]; intros seen others; [done|].
  destruct (decide (title c ∈ seen)) as [Hc|Hc].
  - rewrite loop_cons_seen by (apply elem_of_union; by left).
    rewrite filter_cons_False by (intros H; by apply H). apply IH.
  - rewrite filter_cons_True by done.
    destruct (decide (title c ∈ others)) as [Ho|Ho].
    + rewrite !loop_cons_seen by (try apply elem_of_union; auto). apply IH.
    + rewrite !loop_cons_new by (rewrite ?elem_of_union; tauto).
      f_equal. rewrite <- IH. f_equal. apply set_eq. intros x.
      rewrite !elem_of_union. tauto.
Qed.

Lemma loop_app xs : ∀ ys (seen : gset string),
  remove_duplicates_loop (xs ++ ys) seen []
  = remove_duplicates_loop xs seen []
    ++ remove_duplicates_loop ys (list_to_set (title <$> xs) ∪ seen) [].
Proof.
  induction xs as [|c xs IH]; intros ys seen.
  - simpl. by rewrite (left_id_L ∅ (∪)).
  - rewrite <- app_comm_cons.
    destruct (decide (title c ∈ seen)) as [Hc|Hc].
    + rewrite !loop_cons_seen by done. rewrite IH. do 2 f_equal.
      apply set_eq. intros x. rewrite fmap_cons, list_to_set_cons.
      rewrite !elem_of_union, elem_of_singleton.
      split; [tauto|]. intros [[->|?]|?]; tauto.
    + rewrite !loop_cons_new by done. rewrite IH. simpl. do 3 f_equal.
      apply set_eq. intros x. rewrite !elem_of_union, elem_of_singleton. tauto.
Qed.

Lemma filter_none {A} (P : A → Prop) `{∀ x, Decision (P x)} (l : list A) :
  (∀ x, x ∈ l → ¬ P x) → filter P l = [].
Proof.
  induction l as [|x l IH]; intros Hl; [done|].
  rewrite filter_cons_False by (apply Hl; left).
  apply IH. intros y Hy. apply Hl. by right.
Qed.

(** X1.  [remove_duplicates] returns its argument unchanged exactly when
    the titles of the argument are pairwise distinct. *)
Theorem remove_duplicates_fixed_iff_distinct (data : list book) :
  remove_duplicates data = data ↔ NoDup (title <$> data).
Proof.
  split.
  - intros <-. apply loop_titles_NoDup.
  - intros Hnd. apply loop_fixed; [done|].
    intros b _. apply not_elem_of_empty.
Qed.

(** X2.  No title is lost and none is invented: the titles of the output
    are those of the input, and the output has as many records as the
    input has distinct titles. *)
Theorem remove_duplicates_keeps_every_title (data : list book) :
  (∀ t, t ∈ title <$> remove_duplicates data ↔ t ∈ title <$> data) ∧
  length (remove_duplicates data)
  = size (list_to_set (title <$> data) : gset string).
Proof.
  assert (∀ t, t ∈ title <$> remove_duplicates data ↔ t ∈ title <$> data)
    as Hsame.
  { intros t. unfold remove_duplicates. rewrite loop_titles.
    pose proof (not_elem_of_empty (C:=gset string) t). tauto. }
  split; [done|].
  rewrite <- (length_fmap title).
  rewrite <- (size_list_to_set (C:=gset string))
    by apply loop_titles_NoDup.
  f_equal. apply set_eq. intros t. by rewrite !elem_of_list_to_set.
Qed.

(** X3.  Deduplicating a concatenation: the records kept from the second
    list are those kept from its part whose titles do not occur in the
    first list.  Hence a list appended to itself deduplicates to the same
    records as the list alone. *)
Theorem remove_duplicates_app (xs ys : list book) :
  remove_duplicates (xs ++ ys)
  = remove_duplicates xs
    ++ remove_duplicates (filter (λ b, title b ∉ title <$> xs) ys) ∧
  remove_duplicates (xs ++ xs) = remove_duplicates xs.
Proof.
  assert (∀ zs, remove_duplicates (xs ++ zs)
                = remove_duplicates xs
                  ++ remove_duplicates
                       (filter (λ b, title b ∉ title <$> xs) zs)) as Happ.
  { intros zs. unfold remove_duplicates. rewrite loop_app. f_equal.
    rewrite (loop_filter zs (list_to_set (title <$> xs)) ∅).
    f_equal. apply list_filter_iff. intros b.
    by rewrite elem_of_list_to_set. }
  split; [apply Happ|].
  rewrite Happ.
  rewrite filter_none; [apply app_nil_r|].
  intros b Hb Hnot. apply Hnot. by apply list_elem_of_fmap_2.
Qed.

End DedupMore.

(** ** More on the JSON store *)

Module StoreMore.
Import Store Save StoreFacts.



(** X5.  A file that holds a JSON document other than an array (an
    object, a number, a string) makes the concatenation raise
    [TypeError]: nothing is written and the error is logged. *)
Theorem save_data_to_json_not_an_array
    (open_write : string → result unit) (data : list book) (f : string)
    (fs : filesystem) (log : list log_record) :
  fs !! f = Some JsonOther →
  save_data_to_json open_write data f (fs, log)
  = (fs, log ++ [LogError "Error saving data to JSON: " (Some TypeError)]).
Proof.
  intros H. unfold save_data_to_json, save_body, open_read. simpl.
  by rewrite H.
Qed.

Lemma save_data_to_json_not_an_array_witness :
  let fs : filesystem := {["data.json" := JsonOther]} in
  save_data_to_json always_opens [sample_book "Dune" "Frank Herbert"]
    "data.json" (fs, [])
  = (fs, [LogError "Error saving data to JSON: " (Some TypeError)]).
Proof.
  intros fs.
  apply (save_data_to_json_not_an_array always_opens _ "data.json" fs []).
  apply lookup_singleton_eq.
Defined.

Section Batches.
Variable open_write : string → result unit.



End Batches.




End StoreMore.

(** ** More on the retrying fetcher *)

Module FetchMore.
Import Fetch Fixtures.

Section Loop.
Variable get : string → nat → result response.
Hypothesis Hget : transport_errors_only get.


End Loop.





End FetchMore.

(** ** More on the crawler *)

Module CrawlerMore.
Import Fetch Crawler CrawlerSpec CrawlerFacts Fixtures.

Lemma fetched_pages_snoc printed e :
  fetched_pages (printed ++ [e])
  = fetched_pages printed
    ++ match e with EvFetching p _ => [p] | _ => [] end.
Proof.
  unfold fetched_pages. rewrite omap_app. f_equal. by destruct e.
Qed.

Lemma first_seen_from_site seen hrefs :
  Forall from_site
    (first_seen_from seen ((λ h, site_origin +:+ h) <$> hrefs)).
Proof.
  apply Forall_forall. intros u [Hu _]%elem_of_first_seen_from.
  apply list_elem_of_fmap in Hu as (h & -> & _). by exists h.
Qed.

(** What the inner loop keeps: no duplicate, the set equal to the list,
    URLs of the site, at most [max_urls] of them. *)
Lemma add_links_sound hrefs max_urls seen urls :
  seen = list_to_set urls → NoDup urls → Forall from_site urls →
  Z.of_nat (length urls) < max_urls →
  ∃ seen' urls' n,
    add_links hrefs max_urls seen urls 0 = (seen', urls', n) ∧
    seen' = list_to_set urls' ∧ NoDup urls' ∧ Forall from_site urls' ∧
    Z.of_nat (length urls') ≤ max_urls.
Proof.
  intros Hseen Hnd Hsite Hlen.
  destruct (add_links_spec hrefs max_urls seen urls 0 Hseen Hlen) as [n ->].
  eexists _, _, n. split; [done|]. split; [done|].
  set (new := first_seen_from seen ((λ h, site_origin +:+ h) <$> hrefs)).
  assert (NoDup (urls ++ new)) as Hall.
  { apply NoDup_app. split; [done|]. split; [|apply first_seen_from_NoDup].
    intros u Hu [_ Hnew]%elem_of_first_seen_from. apply Hnew.
    rewrite Hseen. by apply elem_of_list_to_set. }
  split; [eapply sublist_NoDup; [exact Hall|apply sublist_take]|].
  split.
  - apply Forall_take, Forall_app. split; [done|apply first_seen_from_site].
  - rewrite length_take. lia.
Qed.

Section Run.
Variable check_bracketed_netloc : string → bool.
Variable check_nfkc : string → bool.
Variable get : string → result response.
Variable parser_error : string → option exn.
Variable book_links : string → list string.
Variable system_sleep : Z → result unit.
Variable base_url : string.
Variable max_urls delay : Z.

Local Abbreviation loop := (crawl_loop check_bracketed_netloc check_nfkc get
                          parser_error book_links system_sleep).

Lemma crawl_loop_sound fuel : ∀ st st' (n : nat),
  seen_urls st = list_to_set (book_urls st) →
  NoDup (book_urls st) →
  Forall from_site (book_urls st) →
  Z.of_nat (length (book_urls st)) ≤ Z.max 0 max_urls →
  page st = Z.of_nat (S n) →
  fetched_pages (printed st) = Z.of_nat <$> seq 1 n →
  loop fuel base_url max_urls delay st = Some (Ok st') →
  NoDup (book_urls st') ∧ Forall from_site (book_urls st') ∧
  Z.of_nat (length (book_urls st')) ≤ Z.max 0 max_urls ∧
  (∃ m, fetched_pages (printed st') = Z.of_nat <$> seq 1 m) ∧
  printed st `prefix_of` printed st'.
Proof.
  induction fuel as [|fuel IH]; intros st st' n Hseen Hnd Hsite Hlen Hpage Hfp;
    cbn -[add_links time_sleep].
  - case_decide; [done|]. intros [= <-].
    split; [done|]. split; [done|]. split; [done|]. split; [by exists n|done].
  - case_decide as Hlt.
    2:{ intros [= <-]. split; [done|]. split; [done|]. split; [done|].
        split; [by exists n|done]. }
    destruct (Url.update_pagination_url _ _ _ _) as [u|e]; [|done].
    assert (fetched_pages (printed st ++ [EvFetching (page st) u])
            = Z.of_nat <$> seq 1 (S n)) as Hfp'.
    { rewrite fetched_pages_snoc, Hfp, Hpage, seq_S, fmap_app. done. }
    destruct (get u) as [r|e]; cbn -[add_links time_sleep].
    + unfold raise_for_status. case_decide; cbn -[add_links time_sleep].
      * intros [= <-]. cbn. split; [done|]. split; [done|]. split; [done|].
        split.
        -- exists (S n). by rewrite fetched_pages_snoc, Hfp', app_nil_r.
        -- rewrite <- app_assoc. by apply prefix_app_r.
      * destruct (find_links _ _ (text r)) as [[|h hs]|e] eqn:Hbl; [| |done].
        -- intros [= <-]. cbn. split; [done|]. split; [done|]. split; [done|].
           split.
           ++ exists (S n). by rewrite fetched_pages_snoc, Hfp', app_nil_r.
           ++ rewrite <- app_assoc. by apply prefix_app_r.
        -- destruct (add_links_sound (h :: hs) max_urls (seen_urls st)
                       (book_urls st) Hseen Hnd Hsite Hlt)
             as (seen' & urls' & nl & -> & Hs' & Hnd' & Hsite' & Hlen').
           destruct (time_sleep system_sleep delay) as [[]|e]; [|done].
           intros Hrun.
           apply (IH _ _ (S n)) in Hrun; cbn; try done; try lia.
           ++ destruct Hrun as (? & ? & ? & ? & Hpre).
              split; [done|]. split; [done|]. split; [done|]. split; [done|].
              etrans; [|exact Hpre]. cbn. rewrite <- app_assoc.
              by apply prefix_app_r.
           ++ by rewrite fetched_pages_snoc, Hfp', app_nil_r.
    + destruct (is_RequestException e); [|done].
      intros [= <-]. cbn. split; [done|]. split; [done|]. split; [done|].
      split.
      * exists (S n). by rewrite fetched_pages_snoc, Hfp', app_nil_r.
      * rewrite <- app_assoc. by apply prefix_app_r.
Qed.

End Run.

(** X10.  Whenever the crawler of [url.py] returns, the list it returns
    has no duplicate and at most [max_urls] elements (none when
    [max_urls <= 0]), and each element is the origin of the site followed
    by an [href].  The pages it has requested are pages 1, 2, ... up to
    some page, each once and in this order; the first line printed is the
    start line and the last one reports the length of the list. *)
Theorem fetch_goodreads_urls_returns_sound
    (check_bracketed_netloc check_nfkc : string → bool)
    (get : string → result response) (parser_error : string → option exn)
    (book_links : string → list string) (system_sleep : Z → result unit)
    (fuel : nat) (base_url : string) (max_urls delay : Z)
    (urls : list string) (printed : list event) :
  fetch_goodreads_urls check_bracketed_netloc check_nfkc get parser_error
    book_links system_sleep fuel base_url max_urls delay
  = Some (Ok (urls, printed)) →
  NoDup urls ∧
  Z.of_nat (length urls) ≤ Z.max 0 max_urls ∧
  Forall from_site urls ∧
  (∃ m, fetched_pages printed = Z.of_nat <$> seq 1 m) ∧
  head printed = Some EvStart ∧
  last printed = Some (EvDone (length urls)).
Proof.
  unfold fetch_goodreads_urls.
  destruct (crawl_loop _ _ _ _ _ _ _ _ _ _ _) as [[st'|e]|] eqn:Hrun;
    [|done|done].
  intros [= <- <-].
  apply (crawl_loop_sound _ _ _ _ _ _ _ _ _ _ _ _ 0%nat) in Hrun;
    [|done|constructor|constructor|simpl; lia|done|done].
  destruct Hrun as (Hnd & Hsite & Hlen & [m Hm] & [k Hk]).
  split; [done|]. split; [done|]. split; [done|]. split.
  - exists m. by rewrite fetched_pages_snoc, Hm, app_nil_r.
  - rewrite Hk. split; [done|]. by rewrite last_snoc.
Qed.

Lemma fetch_goodreads_urls_returns_sound_witness :
  let urls := ["https://www.goodreads.com/book/show/1.A";
               "https://www.goodreads.com/book/show/2.B";
               "https://www.goodreads.com/book/show/3.C"] in
  NoDup urls ∧ Z.of_nat (length urls) ≤ Z.max 0 20 ∧ Forall from_site urls.
Proof.
  intros urls.
  destruct (fetch_goodreads_urls_returns_sound (λ _, true) (λ _, true)
              shelf_get accepts_all shelf_links sleeps 5 shelf 20 2 urls
              [EvStart;
               EvFetching 1 (shelf +:+ "?page=1"); EvFound 2 1 2;
               EvFetching 2 (shelf +:+ "?page=2"); EvFound 1 2 3;
               EvFetching 3 (shelf +:+ "?page=3"); EvNoLinks; EvDone 3])
    as (H1 & H2 & H3 & _).
  - vm_compute. reflexivity.
  - auto.
Defined.

(** X11.  With [max_urls] zero or negative the crawler returns the empty
    list at once: the loop is not entered, no URL is computed and no
    request is made. *)
Theorem fetch_goodreads_urls_nothing_asked
    (check_bracketed_netloc check_nfkc : string → bool)
    (get : string → result response) (parser_error : string → option exn)
    (book_links : string → list string) (system_sleep : Z → result unit)
    (fuel : nat) (base_url : string) (max_urls delay : Z) :
  max_urls ≤ 0 →
  fetch_goodreads_urls check_bracketed_netloc check_nfkc get parser_error
    book_links system_sleep fuel base_url max_urls delay
  = Some (Ok ([], [EvStart; EvDone 0])) ∧
  CrawlerLegacy.fetch_goodreads_urls check_bracketed_netloc check_nfkc get
    parser_error book_links system_sleep fuel base_url max_urls delay
  = Some (Ok []).
Proof.
  intros H. unfold fetch_goodreads_urls, CrawlerLegacy.fetch_goodreads_urls.
  split; destruct fuel; simpl; by rewrite decide_False by (simpl; lia).
Qed.

Lemma fetch_goodreads_urls_nothing_asked_witness :
  fetch_goodreads_urls (λ _, true) (λ _, true) shelf_get accepts_all
    shelf_links sleeps 0 shelf 0 2 = Some (Ok ([], [EvStart; EvDone 0])).
Proof.
  apply (fetch_goodreads_urls_nothing_asked (λ _, true) (λ _, true)
           shelf_get accepts_all shelf_links sleeps 0 shelf 0 2).
  lia.
Defined.

(** X12.  A base URL that [urlparse] rejects makes both crawlers raise
    the exception of [urlparse] on the first iteration, before any
    request: the computation of the paginated URL is outside the [try]
    block. *)
Theorem fetch_goodreads_urls_rejects_base_url
    (check_bracketed_netloc check_nfkc : string → bool)
    (get : string → result response) (parser_error : string → option exn)
    (book_links : string → list string) (system_sleep : Z → result unit)
    (fuel : nat) (base_url : string) (max_urls delay : Z) (e : exn) :
  Url.urlparse check_bracketed_netloc check_nfkc base_url = Raise e →
  0 < max_urls →
  fetch_goodreads_urls check_bracketed_netloc check_nfkc get parser_error
    book_links system_sleep (S fuel) base_url max_urls delay
  = Some (Raise e) ∧
  CrawlerLegacy.fetch_goodreads_urls check_bracketed_netloc check_nfkc get
    parser_error book_links system_sleep (S fuel) base_url max_urls delay
  = Some (Raise e).
Proof.
  intros Hp Hmax.
  unfold fetch_goodreads_urls, CrawlerLegacy.fetch_goodreads_urls.
  cbn -[add_links time_sleep]. rewrite !decide_True by (simpl; lia).
  unfold Url.update_pagination_url. rewrite Hp. done.
Qed.

Lemma fetch_goodreads_urls_rejects_base_url_witness :
  fetch_goodreads_urls (λ _, true) (λ _, true) shelf_get accepts_all
    shelf_links sleeps 1 "http://[::1/shelf" 20 2 = Some (Raise ValueError).
Proof.
  apply (fetch_goodreads_urls_rejects_base_url (λ _, true) (λ _, true)
           shelf_get accepts_all shelf_links sleeps 0 "http://[::1/shelf"
           20 2 ValueError).
  - vm_compute. reflexivity.
  - lia.
Defined.

End CrawlerMore.

(** ** URL validation *)

Module ValidateFacts.
Import PyStr Url UrlSpec Validate StrFacts UrlFacts.

Lemma filter_chars_app p (a b : string) :
  filter_chars p (a +:+ b) = filter_chars p a +:+ filter_chars p b.
Proof.
  induction a as [|c a IH]; [done|]. rewrite str_app_cons. cbn.
  destruct (p c); [|done]. by rewrite str_app_cons, IH.
Qed.

Lemma lower_nonempty s : s ≠ "" → lower s ≠ "".
Proof. by destruct s. Qed.

Lemma truthy_true s : truthy s = true ↔ s ≠ "".
Proof.
  unfold truthy. case_bool_decide; simpl; naive_solver.
Qed.

Lemma delim_is_safe c : not_delim c = false → unsafe_byte c = false.
Proof. revert c. intros c. unfold not_delim. all_ascii c. Qed.

Lemma plain_char_inv c :
  plain_char c = true →
  is_ascii c = true ∧ c ≠ "["%char ∧ c ≠ "]"%char.
Proof. all_ascii c. Qed.

(** The shape of a URL for which [urlparse] finds a network location. *)
Lemma urlparse_absolute cb cn url p :
  urlparse cb cn url = Ok p → netloc p ≠ "" →
  ∃ u1 rest,
    split_scheme (cleaned url) = (scheme p, u1) ∧
    u1 = "//" +:+ netloc p +:+ rest ∧
    all_chars not_delim (netloc p) = true ∧ head_delim rest ∧
    brackets_ok cb (netloc p) = true ∧ checknetloc cn (netloc p) = true.
Proof.
  unfold urlparse.
  change (filter_chars _ (lstrip _ url)) with (cleaned url).
  destruct (split_scheme (cleaned url)) as [s u1] eqn:Hs.
  destruct (starts_with "//" u1) eqn:Hss.
  - unfold splitnetloc.
    destruct (span (λ c, negb (netloc_delim c)) (drop 2 u1)) as [n u2] eqn:Hn.
    destruct (brackets_ok cb n) eqn:Hb; [|done]. cbn [bind].
    set (fr := match partition "#" u2 with
               | Some (u, f) => (u, f) | None => (u2, "") end).
    destruct fr as [u3 f].
    set (qr := match partition "?" u3 with
               | Some (u, q) => (u, q) | None => (u3, "") end).
    destruct qr as [u4 q].
    destruct (checknetloc cn n) eqn:Hc; [|done].
    destruct (if bool_decide (s ∈ uses_params) && contains ";" u4
              then splitparams u4 else (u4, "")) as [pa pr].
    intros [= <-] _. cbn [scheme netloc].
    apply span_inv in Hn as (Hd & Hn & Hu2).
    exists u1, u2. split; [done|]. split.
    { rewrite <- Hd. by apply starts_with_2. }
    done.
  - cbn [bind].
    set (fr := match partition "#" u1 with
               | Some (u, f) => (u, f) | None => (u1, "") end).
    destruct fr as [u3 f].
    set (qr := match partition "?" u3 with
               | Some (u, q) => (u, q) | None => (u3, "") end).
    destruct qr as [u4 q].
    destruct (checknetloc cn "") eqn:Hc; [|done].
    destruct (if bool_decide (s ∈ uses_params) && contains ";" u4
              then splitparams u4 else (u4, "")) as [pa pr].
    by intros [= <-] Hne.
Qed.

Lemma is_scheme_inv s :
  is_scheme s = true →
  ∃ c0 pre, s = String c0 pre ∧ is_alpha c0 = true ∧
            all_chars scheme_char s = true.
Proof.
  destruct s as [|c0 pre]; [done|]. unfold is_scheme.
  intros [? ?]%andb_prop. by exists c0, pre.
Qed.

(** Conversely, a text of this shape is parsed into its scheme and its
    network location. *)
Lemma urlparse_of_absolute cb cn url s n rest :
  cleaned url = s +:+ "://" +:+ n +:+ rest →
  is_scheme s = true →
  all_chars not_delim n = true → head_delim rest →
  brackets_ok cb n = true → checknetloc cn n = true →
  ∃ p, urlparse cb cn url = Ok p ∧ scheme p = lower s ∧ netloc p = n.
Proof.
  intros Hu Hs Hn Hrest Hb Hc.
  apply is_scheme_inv in Hs as (c0 & pre & -> & Ha & Hsc).
  unfold urlparse.
  change (filter_chars _ (lstrip _ url)) with (cleaned url). rewrite Hu.
  change ("://" +:+ n +:+ rest) with (String ":" ("//" +:+ n +:+ rest)).
  unfold split_scheme. rewrite partition_app
    by (eapply all_chars_contains; [exact Hsc|done]).
  rewrite Ha, Hsc. cbn [andb].
  rewrite starts_with_app. unfold splitnetloc.
  change (span (λ c, negb (netloc_delim c)) (drop 2 ("//" +:+ n +:+ rest)))
    with (span not_delim (n +:+ rest)).
  rewrite (span_app not_delim n rest Hn) by (by destruct rest).
  cbv beta iota zeta. rewrite Hb. cbn [bind]. cbv beta iota zeta.
  set (fr := match partition "#" rest with
             | Some (u, f) => (u, f) | None => (rest, "") end).
  destruct fr as [u3 f].
  set (qr := match partition "?" u3 with
             | Some (u, q) => (u, q) | None => (u3, "") end).
  destruct qr as [u4 q]. rewrite Hc.
  destruct (if bool_decide (lower (String c0 pre) ∈ uses_params)
               && contains ";" u4
            then splitparams u4 else (u4, "")) as [pa pr].
  by eexists.
Qed.

(** X13.  [is_valid_url] returns [True] exactly for the strings that,
    once leading blanks and control characters are stripped and tabs and
    line breaks removed, read as a scheme, [://], a non-empty network
    location, and then nothing or a text starting with [/], [?] or [#],
    where the network location passes the two checks of [urlsplit]. *)
Theorem is_valid_url_true_iff (cb cn : string → bool) (url : string) :
  is_valid_url cb cn url = Ok true ↔
  ∃ s n rest,
    cleaned url = s +:+ "://" +:+ n +:+ rest ∧
    is_scheme s = true ∧ n ≠ "" ∧
    all_chars not_delim n = true ∧ head_delim rest ∧
    brackets_ok cb n = true ∧ checknetloc cn n = true.
Proof.
  split.
  - unfold is_valid_url.
    destruct (urlparse cb cn url) as [p|e] eqn:Hp; [|done]. cbn [bind].
    intros [= [Hs Hn]%andb_prop]. apply truthy_true in Hs, Hn.
    destruct (urlparse_absolute cb cn url p Hp Hn)
      as (u1 & rest & Hsplit & -> & Hnd & Hrest & Hb & Hc).
    apply split_scheme_inv in Hsplit
      as [[Hse _]|(c0 & pre & Hse & Hu & Ha & Hsc)]; [done|].
    exists (String c0 pre), (netloc p), rest.
    split; [exact Hu|]. split; [|done].
    unfold is_scheme. by rewrite Ha, Hsc.
  - intros (s & n & rest & Hu & Hs & Hne & Hn & Hrest & Hb & Hc).
    destruct (urlparse_of_absolute cb cn url s n rest Hu Hs Hn Hrest Hb Hc)
      as (p & Hp & Hps & Hpn).
    unfold is_valid_url. rewrite Hp. cbn [bind]. f_equal.
    apply andb_true_intro. split; apply truthy_true.
    + rewrite Hps. apply lower_nonempty. by destruct s.
    + by rewrite Hpn.
Qed.

Lemma urlparse_plain cb cn url :
  all_chars plain_char url = true → ∃ p, urlparse cb cn url = Ok p.
Proof.
  intros Hurl.
  assert (all_chars plain_char (cleaned url) = true) as H0.
  { unfold cleaned. by apply all_chars_filter_other, all_chars_lstrip. }
  unfold urlparse.
  change (filter_chars _ (lstrip _ url)) with (cleaned url).
  destruct (split_scheme (cleaned url)) as [s u1] eqn:Hs.
  assert (all_chars plain_char u1 = true) as H1.
  { apply split_scheme_inv in Hs as [[_ ->]|(c0 & pre & _ & Hu & _)]; [done|].
    rewrite Hu, all_chars_app in H0. apply andb_prop in H0 as [_ H0].
    cbn [all_chars] in H0. by apply andb_prop in H0 as [_ ?]. }
  assert (∀ n, all_chars plain_char n = true →
               brackets_ok cb n = true ∧ checknetloc cn n = true) as Hplain.
  { intros n Hn. unfold brackets_ok, checknetloc.
    rewrite (all_chars_contains plain_char "[" n Hn) by done.
    rewrite (all_chars_contains plain_char "]" n Hn) by done.
    split; [done|].
    rewrite (all_chars_impl plain_char is_ascii n); [done| |done].
    intros c Hc. by apply plain_char_inv in Hc as [? _]. }
  destruct (starts_with "//" u1) eqn:Hss.
  - unfold splitnetloc.
    destruct (span (λ c, negb (netloc_delim c)) (drop 2 u1)) as [n u2] eqn:Hn.
    apply span_inv in Hn as (Hd & _ & _).
    pose proof (all_chars_drop plain_char 2 u1 H1) as H2.
    rewrite Hd, all_chars_app in H2. apply andb_prop in H2 as [Hn _].
    destruct (Hplain n Hn) as [-> Hc]. cbn [bind].
    set (fr := match partition "#" u2 with
               | Some (u, f) => (u, f) | None => (u2, "") end).
    destruct fr as [u3 f].
    set (qr := match partition "?" u3 with
               | Some (u, q) => (u, q) | None => (u3, "") end).
    destruct qr as [u4 q]. rewrite Hc.
    destruct (if bool_decide (s ∈ uses_params) && contains ";" u4
              then splitparams u4 else (u4, "")) as [pa pr].
    by eexists.
  - cbn [bind].
    set (fr := match partition "#" u1 with
               | Some (u, f) => (u, f) | None => (u1, "") end).
    destruct fr as [u3 f].
    set (qr := match partition "?" u3 with
               | Some (u, q) => (u, q) | None => (u3, "") end).
    destruct qr as [u4 q].
    destruct (Hplain "" eq_refl) as [_ ->].
    destruct (if bool_decide (s ∈ uses_params) && contains ";" u4
              then splitparams u4 else (u4, "")) as [pa pr].
    by eexists.
Qed.

(** X14.  On a string of ASCII characters without square brackets
    [is_valid_url] returns a truth value: the exception that [urlparse]
    can raise needs a bracket or a non-ASCII character. *)
Theorem is_valid_url_plain_never_raises (cb cn : string → bool)
    (url : string) :
  all_chars plain_char url = true →
  ∃ b, is_valid_url cb cn url = Ok b.
Proof.
  intros H. destruct (urlparse_plain cb cn url H) as [p Hp].
  unfold is_valid_url. rewrite Hp. by eexists.
Qed.

Lemma is_valid_url_plain_never_raises_witness :
  ∃ b, is_valid_url (λ _, false) (λ _, false) "www.goodreads.com/book/show/1"
       = Ok b.
Proof.
  apply (is_valid_url_plain_never_raises (λ _, false) (λ _, false)
           "www.goodreads.com/book/show/1").
  vm_compute. reflexivity.
Defined.

(** X15.  Every URL that the crawlers build from a root-relative [href]
    (one that is empty or starts with [/], [?] or [#]) passes
    [is_valid_url], whatever follows in the [href]: the list written by
    [url.py] is not cut down by the validation of [scraper.py]. *)
Theorem is_valid_url_accepts_crawled (cb cn : string → bool) (href : string) :
  head_delim href →
  is_valid_url cb cn (Crawler.site_origin +:+ href) = Ok true.
Proof.
  intros Hhref.
  set (rest := filter_chars (λ c, negb (unsafe_byte c)) href).
  assert (cleaned (Crawler.site_origin +:+ href)
          = "https" +:+ "://" +:+ "www.goodreads.com" +:+ rest) as Hu.
  { unfold cleaned.
    change (Crawler.site_origin +:+ href)
      with (String "h" ("ttps://www.goodreads.com" +:+ href)).
    rewrite lstrip_head by done.
    change (String "h" ("ttps://www.goodreads.com" +:+ href))
      with ("https://www.goodreads.com" +:+ href).
    rewrite filter_chars_app. done. }
  assert (head_delim rest) as Hrest.
  { unfold rest. destruct href as [|c t]; [done|]. cbn in Hhref |- *.
    by rewrite (delim_is_safe c Hhref). }
  destruct (urlparse_of_absolute cb cn _ "https" "www.goodreads.com" rest Hu)
    as (p & Hp & Hps & Hpn); try done.
  unfold is_valid_url. rewrite Hp. cbn [bind]. by rewrite Hps, Hpn.
Qed.

Lemma is_valid_url_accepts_crawled_witness :
  is_valid_url (λ _, false) (λ _, false)
    (Crawler.site_origin +:+ "/book/show/36236124-fight-club") = Ok true.
Proof.
  apply (is_valid_url_accepts_crawled (λ _, false) (λ _, false)
           "/book/show/36236124-fight-club").
  reflexivity.
Defined.

(** A text without a scheme, and one without a network location, are not
    valid; a bracket that does not close makes the validation raise. *)
Example is_valid_url_samples :
  is_valid_url (λ _, true) (λ _, true) "www.goodreads.com/book/show/1"
  = Ok false ∧
  is_valid_url (λ _, true) (λ _, true) "https:/book/show/1" = Ok false ∧
  is_valid_url (λ _, true) (λ _, true) "" = Ok false ∧
  is_valid_url (λ _, true) (λ _, true) "ftp://x" = Ok true ∧
  is_valid_url (λ _, true) (λ _, true) "https://[goodreads.com/book"
  = Raise ValueError.
Proof. repeat split; vm_compute; reflexivity. Qed.

End ValidateFacts.

(** ** The output file of the crawler *)

Module UrlFileFacts.
Import PyStr Fetch Crawler UrlFile StrFacts CrawlerFacts Fixtures.

Lemma drop_app_length (s t : string) : drop (String.length s) (s +:+ t) = t.
Proof.
  induction s as [|c s IH]; [by destruct t|]. by rewrite str_app_cons.
Qed.

Lemma ends_with_app (suffix s : string) : ends_with suffix (s +:+ suffix) = true.
Proof.
  unfold ends_with. rewrite str_length_app.
  replace (String.length s + String.length suffix - String.length suffix)%nat
    with (String.length s) by lia.
  rewrite drop_app_length, bool_decide_true by done.
  rewrite andb_true_r. apply Nat.leb_le. lia.
Qed.

Lemma str_app_inj_tail (t : string) : ∀ a b : string,
  a +:+ t = b +:+ t → a = b.
Proof.
  assert (∀ c (b : string), t ≠ String c (b +:+ t)) as Hno.
  { intros c b H. apply (f_equal String.length) in H.
    cbn in H. rewrite str_length_app in H. lia. }
  induction a as [|c a IH]; intros [|d b]; rewrite ?str_app_cons.
  - done.
  - rewrite str_app_nil_l. intros H. by apply Hno in H.
  - rewrite str_app_nil_l. intros H. symmetry in H. by apply Hno in H.
  - intros [= -> H]. f_equal. by apply IH.
Qed.

Lemma str_app_inj_head (h a b : string) : h +:+ a = h +:+ b → a = b.
Proof.
  induction h as [|c h IH]; [done|]. rewrite !str_app_cons.
  intros [= H]. by apply IH.
Qed.

Lemma write_urls_app urls : ∀ written,
  write_urls urls written = written +:+ write_urls urls "".
Proof.
  induction urls as [|u urls IH]; intros w; cbn [write_urls].
  - by rewrite str_app_nil_r.
  - rewrite (IH (w +:+ url_line u)), (IH ("" +:+ url_line u)).
    by rewrite str_app_nil_l, str_app_assoc.
Qed.

Lemma write_urls_cons u urls :
  write_urls (u :: urls) "" = url_line u +:+ write_urls urls "".
Proof. cbn [write_urls]. by rewrite write_urls_app, str_app_nil_l. Qed.

Lemma url_line_app u (t : string) :
  url_line u +:+ t
  = String " " (String " " (String " " (String " "
      (String dquote (u +:+ String dquote (String "," (String newline t))))))).
Proof.
  unfold url_line.
  change ("    " +:+ String dquote u +:+ String dquote (String "," (String newline "")))
    with (String " " (String " " (String " " (String " "
            (String dquote (u +:+ String dquote (String "," (String newline ""))))))))
    .
  rewrite !str_app_cons. do 5 f_equal.
  rewrite str_app_assoc. by rewrite !str_app_cons, str_app_nil_l.
Qed.

(** A line determines its URL when the URL has no line feed. *)
Lemma url_line_inj (a b x y : string) :
  one_line a = true → one_line b = true →
  a +:+ String dquote (String "," (String newline x))
  = b +:+ String dquote (String "," (String newline y)) →
  a = b ∧ x = y.
Proof.
  unfold one_line. intros Ha%negb_true_iff Hb%negb_true_iff Heq.
  assert (∀ u v : string, contains newline u = false →
            partition newline (u +:+ String dquote (String "," (String newline v)))
            = Some (u +:+ String dquote (String "," ""), v)) as Hpart.
  { intros u v Hu.
    replace (u +:+ String dquote (String "," (String newline v)))
      with ((u +:+ String dquote (String "," "")) +:+ String newline v)
      by (rewrite str_app_assoc; by rewrite !str_app_cons, str_app_nil_l).
    apply partition_app. rewrite contains_app, Hu. done. }
  pose proof (Hpart a x Ha) as H1. rewrite Heq, (Hpart b y Hb) in H1.
  injection H1 as H1 H2. split; [|done].
  symmetry. by apply (str_app_inj_tail (String dquote (String "," ""))).
Qed.

Lemma lines_inj l1 : ∀ l2 (t := "]" +:+ String newline ""),
  Forall (λ u, one_line u = true) l1 →
  Forall (λ u, one_line u = true) l2 →
  write_urls l1 "" +:+ t = write_urls l2 "" +:+ t → l1 = l2.
Proof.
  induction l1 as [|a l1 IH]; intros [|b l2] t H1 H2.
  - done.
  - rewrite write_urls_cons, str_app_assoc, url_line_app. discriminate.
  - rewrite write_urls_cons, str_app_assoc, url_line_app. discriminate.
  - rewrite !write_urls_cons, !str_app_assoc, !url_line_app.
    apply Forall_cons in H1 as [Ha H1]. apply Forall_cons in H2 as [Hb H2].
    intros [= Heq]. apply url_line_inj in Heq as [-> Heq]; [|done|done].
    f_equal. by apply IH.
Qed.

(** X16.  [save_urls_to_file] writes to a name that ends with [.py]: the
    name given when it ends so, and the name followed by [.py]
    otherwise.  No other file changes.  When the file cannot be opened
    nothing changes and the program exits with status 1. *)
Theorem save_urls_to_file_python_name (writable : string → bool)
    (urls : list string) (filename : string)
    (files : text_files) (printed : list line) :
  let name :=
    if ends_with ".py" filename then filename else filename +:+ ".py" in
  let after := save_urls_to_file writable urls filename (files, printed) in
  ends_with ".py" name = true ∧
  (∀ g, g ≠ name → after.2.1 !! g = files !! g) ∧
  (writable name = true →
   after.1 = Returned ∧ after.2.1 !! name = Some (file_text urls)) ∧
  (writable name = false → after.1 = Exited 1 ∧ after.2.1 = files).
Proof.
  intros name after. unfold after, save_urls_to_file.
  assert ((if negb (ends_with ".py" filename)
           then filename +:+ ".py" else filename) = name) as ->.
  { unfold name. by destruct (ends_with ".py" filename). }
  split.
  { unfold name. destruct (ends_with ".py" filename) eqn:He; [done|].
    apply ends_with_app. }
  destruct (writable name); cbn.
  - split; [intros g Hg; by apply lookup_insert_ne|].
    split; [intros _; split; [done|apply lookup_insert_eq]|done].
  - split; [done|]. split; [done|]. done.
Qed.

(** X17.  The text written determines the list: two lists of URLs
    without line feeds that give the same file are the same list. *)
Theorem file_text_injective (urls1 urls2 : list string) :
  Forall (λ u, one_line u = true) urls1 →
  Forall (λ u, one_line u = true) urls2 →
  file_text urls1 = file_text urls2 → urls1 = urls2.
Proof.
  intros H1 H2. unfold file_text.
  rewrite (write_urls_app urls1), (write_urls_app urls2).
  rewrite !str_app_assoc. intros Heq.
  apply (lines_inj urls1 urls2 H1 H2).
  by do 2 apply str_app_inj_head in Heq.
Qed.

Lemma file_text_injective_witness :
  ["https://www.goodreads.com/book/show/1.A"]
  = ["https://www.goodreads.com/book/show/1.A"].
Proof.
  apply (file_text_injective ["https://www.goodreads.com/book/show/1.A"]
           ["https://www.goodreads.com/book/show/1.A"]).
  - repeat constructor.
  - repeat constructor.
  - reflexivity.
Defined.

(** The file of the example of [url.py]. *)
Example file_text_sample :
  file_text ["https://www.goodreads.com/book/show/1.A"]
  = "book_urls = [" +:+ String newline
      ("    " +:+ String dquote
         ("https://www.goodreads.com/book/show/1.A" +:+ String dquote
            ("," +:+ String newline ("]" +:+ String newline "")))).
Proof. vm_compute. reflexivity. Qed.

(** X18.  [main] of [url.py], when the crawl stops after [n] pages.  If
    [time.sleep] accepts the delay given with [--delay] (the crawl sleeps
    after every page with links), the file named by [--output] (with [.py]
    added when missing) holds the list that the crawl returns; when that
    list is empty no file is written or changed.  If [time.sleep] rejects
    the delay and [n] is not 0, the exception leaves [main] and nothing is
    written. *)
Theorem main_writes_the_crawled_list (writable : string → bool)
    (check_bracketed_netloc check_nfkc : string → bool)
    (get : string → result response) (parser_error : string → option exn)
    (book_links : string → list string) (system_sleep : Z → result unit)
    (a : args) (files : text_files) (n fuel : nat) :
  stops_after check_bracketed_netloc check_nfkc get parser_error book_links
    (arg_url a) (arg_max a) n = true →
  (n < fuel)%nat →
  let urls :=
    list.take (Z.to_nat (arg_max a))
      (first_seen (urls_upto check_bracketed_netloc check_nfkc get
                     parser_error book_links (arg_url a) n)) in
  let name :=
    if ends_with ".py" (arg_output a) then arg_output a
    else arg_output a +:+ ".py" in
  let run :=
    main writable check_bracketed_netloc check_nfkc get parser_error
      book_links system_sleep fuel a files in
  (((0 < n)%nat → time_sleep system_sleep (arg_delay a) = Ok tt) →
   ∃ e files' printed,
     run = Some (Ok (e, (files', printed))) ∧
     (urls = [] → e = Returned ∧ files' = files ∧ last printed = Some NoUrls) ∧
     (urls ≠ [] → writable name = true →
      e = Returned ∧ files' = <[name := file_text urls]> files) ∧
     (urls ≠ [] → writable name = false → e = Exited 1 ∧ files' = files)) ∧
  (∀ e, (0 < n)%nat → time_sleep system_sleep (arg_delay a) = Raise e →
        run = Some (Raise e)).
Proof.
  intros Hstop Hfuel urls name run. split.
  2:{ intros e Hn Hnap. unfold run, main.
      by rewrite (crawl_nap_fails check_bracketed_netloc check_nfkc get
                    parser_error book_links system_sleep (arg_url a)
                    (arg_max a) (arg_delay a) n fuel e Hstop Hn
                    ltac:(lia) Hnap). }
  intros Hnap.
  destruct (crawl_first_seen_capped check_bracketed_netloc check_nfkc get
              parser_error book_links system_sleep (arg_url a) (arg_max a)
              (arg_delay a) n fuel Hstop Hfuel Hnap)
    as ([lines Hrun] & _ & _).
  fold urls in Hrun. unfold run, main. rewrite Hrun.
  destruct urls as [|u urls'] eqn:Hurls.
  - eexists _, _, _. split; [done|]. split.
    + intros _. split; [done|]. split; [done|]. by rewrite last_snoc.
    + split; intros H; by destruct H.
  - unfold save_urls_to_file.
    assert ((if negb (ends_with ".py" (arg_output a))
             then arg_output a +:+ ".py" else arg_output a) = name) as ->.
    { unfold name. by destruct (ends_with ".py" (arg_output a)). }
    destruct (writable name) eqn:Hw; cbn.
    + eexists _, _, _. split; [done|]. split; [done|]. split; [done|].
      intros _ [=].
    + eexists _, _, _. split; [done|]. split; [done|]. split; [intros _ [=]|done].
Qed.

Lemma main_writes_the_crawled_list_witness :
  ∃ e files' printed,
    main (λ _, true) (λ _, true) (λ _, true) shelf_get accepts_all
      shelf_links sleeps 5 (Args shelf 20 2 "list") ∅
    = Some (Ok (e, (files', printed))) ∧
    files' !! "list.py"
    = Some (file_text ["https://www.goodreads.com/book/show/1.A";
                       "https://www.goodreads.com/book/show/2.B";
                       "https://www.goodreads.com/book/show/3.C"]).
Proof.
  destruct (main_writes_the_crawled_list (λ _, true) (λ _, true) (λ _, true)
              shelf_get accepts_all shelf_links sleeps
              (Args shelf 20 2 "list") ∅ 2 5)
    as [Hok _].
  - vm_compute. reflexivity.
  - lia.
  - destruct Hok as (e & files' & printed & Hrun & _ & Hsome & _);
      [reflexivity|].
    exists e, files', printed. split; [exact Hrun|].
    destruct Hsome as [_ ->]; [discriminate|reflexivity|].
    apply lookup_insert_eq.
Defined.

(** With [--delay -1] the first sleep raises [ValueError], which leaves
    [main]: no file is written. *)
Example main_with_negative_delay :
  main (λ _, true) (λ _, true) (λ _, true) shelf_get accepts_all
    shelf_links sleeps 5 (Args shelf 20 (-1) "list") ∅
  = Some (Raise ValueError).
Proof. vm_compute. reflexivity. Qed.

End UrlFileFacts.

(** ** The detail-page scraper *)

Module ScrapeFacts.
Import PyStr Regex Extract Fetch Scrape Samples StrFacts ExtractFacts.

(** *** Values of the extractors *)

Lemma digits_value_nonneg s : ∀ acc, 0 ≤ acc → 0 ≤ digits_value acc s.
Proof.
  induction s as [|c s IH]; intros acc Hacc; [done|].
  cbn [digits_value]. apply IH. lia.
Qed.

Lemma py_int_nonneg s n : py_int s = Ok n → 0 ≤ n.
Proof.
  unfold py_int. destruct s as [|c s]; [done|].
  destruct (Nat.ltb _ _); [done|]. intros [= <-].
  apply digits_value_nonneg. lia.
Qed.

Lemma count_field_nonneg tag n : count_field tag = Ok n → 0 ≤ n.
Proof.
  destruct tag as [[|c text]|]; cbn; try (intros [= <-]; lia).
  apply py_int_nonneg.
Qed.

(** A count is returned only for a text that is empty or has a digit. *)
Lemma count_field_digit text n :
  count_field (Some text) = Ok n → text = "" ∨ no_digit text = false.
Proof.
  intros H. destruct text as [|c text]; [by left|]. right.
  unfold no_digit. apply bool_decide_eq_false. intros Hd.
  cbn [count_field] in H. unfold extract_int_from_text in H.
  by rewrite Hd in H.
Qed.

Lemma page_count_shape tag v :
  page_count tag = Ok v →
  match v with PagesInt n => 0 ≤ n | PagesText s => s = "N/A" end.
Proof.
  unfold page_count. destruct tag as [text|]; [|by intros [= <-]].
  destruct (search pages_pattern text) as [m|]; [|by intros [= <-]].
  destruct (py_int (group1 m)) as [n|e] eqn:Hn; [|done].
  intros [= <-]. by apply py_int_nonneg in Hn.
Qed.

Lemma isbn_from_divs_long texts token :
  isbn_from_divs texts = Ok (Some token) → (10 ≤ String.length token)%nat.
Proof.
  induction texts as [|text more IH]; [done|]. cbn [isbn_from_divs].
  destruct (negb (bool_decide (text = "")) && isdigit (take 3 text)); [|done].
  destruct (first_token text) as [t|e]; [|done]. cbn [bind].
  destruct (10 <=? String.length t)%nat eqn:Hl; [|done].
  intros [= <-]. by apply Nat.leb_le.
Qed.

Lemma length_take_le n : ∀ s,
  (n ≤ String.length s)%nat → String.length (take n s) = n.
Proof.
  induction n as [|n IH]; intros [|c s]; cbn; try done; try lia.
  intros H. rewrite IH; lia.
Qed.

Lemma first_isbn13_length s : ∀ prev x,
  first_isbn13 prev s = Some x → String.length x = 13%nat.
Proof.
  assert (∀ prev t, isbn13_here prev t = true →
            String.length (take 13 t) = 13%nat) as Hhere.
  { intros prev t Hh. unfold isbn13_here in Hh.
    apply andb_prop in Hh as [[[_ Hl]%andb_prop _]%andb_prop _].
    apply length_take_le. by apply Nat.leb_le. }
  induction s as [|c s IH]; intros prev x; cbn [first_isbn13].
  - destruct (isbn13_here prev "") eqn:Hh; [|done].
    intros [= <-]. exact (Hhere prev "" Hh).
  - destruct (isbn13_here prev (String c s)) eqn:Hh; [|apply IH].
    intros [= <-]. exact (Hhere prev (String c s) Hh).
Qed.

Lemma extract_isbn_nonempty divs html r :
  extract_isbn divs html = Ok r → r ≠ "".
Proof.
  unfold extract_isbn.
  destruct (isbn_from_divs divs) as [[token|]|e] eqn:Hd; [| |done]; cbn [bind].
  - intros [= <-] ->. apply isbn_from_divs_long in Hd. cbn in Hd. lia.
  - unfold search. rewrite search_from_isbn.
    destruct (first_isbn13 None html) as [x|] eqn:Hx; cbn.
    + intros [= <-] ->. apply first_isbn13_length in Hx. cbn in Hx. lia.
    + by intros [= <-].
Qed.

Lemma or_else_nonempty s d : d ≠ "" → or_else s d ≠ "".
Proof. unfold or_else. by case_bool_decide. Qed.

Section WithSite.
Variable check_bracketed_netloc : string → bool.
Variable check_nfkc : string → bool.
Variable get : string → nat → result response.
Variable parser_error : string → option exn.
Variable soup : string → page.
Variable randint : nat → Z → Z → Z.
Variable float : string → result float64.
Variable today : date.
Variable parse_other : string → result date.

Local Abbreviation parse := (parse_book soup randint float today parse_other).
Local Abbreviation scrape :=
  (scrape_goodreads_book get parser_error soup randint float today
     parse_other).
Local Abbreviation loop :=
  (scrape_loop check_bracketed_netloc check_nfkc get parser_error soup
     randint float today parse_other).
Local Abbreviation valid := (valid_urls check_bracketed_netloc check_nfkc).

(** *** The [try] block *)

(** What a dictionary built by the [try] block says of the page. *)
Lemma parse_book_inv html k b k' :
  parse html k = (Got b, k') →
  let pg := soup html in
  k' = S (S (S k)) ∧
  (∃ t, bookTitle pg = Some t ∧ title b = or_else t "N/A") ∧
  (∃ a, contributorLink pg = Some a ∧ authorName b = or_else a "N/A") ∧
  page_count (pagesFormat pg) = Ok (pages b) ∧
  publication b
  = extract_publication_date today parse_other (publicationInfo pg) ∧
  (responsiveImage pg = None ∧ imageURL b = FALLBACK_IMAGE
   ∨ responsiveImage pg = Some (Some (imageURL b))) ∧
  (∃ d, contentContainer pg = Some d ∧ description b = or_else d "N/A") ∧
  category b
  = match genresList pg with Some texts => texts | None => ["General"] end ∧
  extract_isbn (isbnBlocks pg) html = Ok (isbn b) ∧
  price b = randint k 10 200 * 1000 ∧
  likes b = randint (S k) 1 100 ∧
  stock b = randint (S (S k)) 1 10 ∧
  match ratingStatistics pg with
  | Some text => float text = Ok (averageRating b)
  | None => averageRating b = 0
  end ∧
  count_field (ratingsCount pg) = Ok (totalRating b) ∧
  count_field (reviewsCount pg) = Ok (totalReview b).
Proof.
  intros H pg.
  unfold parse_book, and_then, get_text, lift, image_src, random_randint,
    ret, raise in H.
  fold pg in H.
  destruct (bookTitle pg) as [t|] eqn:Ht; [|done].
  destruct (contributorLink pg) as [a|] eqn:Ha; [|done].
  destruct (page_count (pagesFormat pg)) as [pc|e] eqn:Hpc; [|done].
  destruct (contentContainer pg) as [d|] eqn:Hd;
    [|by destruct (responsiveImage pg) as [[src|]|]].
  destruct (extract_isbn (isbnBlocks pg) html) as [i|e] eqn:Hi;
    [|by destruct (responsiveImage pg) as [[src|]|]].
  destruct (count_field (ratingsCount pg)) as [rc|e] eqn:Hrc;
    [|destruct (responsiveImage pg) as [[src|]|]; try done;
      destruct (ratingStatistics pg) as [rt|]; try done;
      by destruct (float rt)].
  destruct (count_field (reviewsCount pg)) as [rv|e] eqn:Hrv;
    [|destruct (responsiveImage pg) as [[src|]|]; try done;
      destruct (ratingStatistics pg) as [rt|]; try done;
      by destruct (float rt)].
  destruct (responsiveImage pg) as [[src|]|] eqn:Him; [|done|];
    (destruct (ratingStatistics pg) as [rt|] eqn:Hrt;
     [destruct (float rt) as [fl|e] eqn:Hfl; [|done]|]);
    injection H as <- <-; cbn;
    repeat split; eauto.
Qed.

(** The block consumes no random draw when it fails before the prices,
    and three otherwise. *)
Lemma parse_book_draws html k :
  (parse html k).2 = k ∨ (parse html k).2 = S (S (S k)).
Proof.
  unfold parse_book, and_then, get_text, lift, image_src, random_randint,
    ret, raise.
  set (pg := soup html).
  destruct (bookTitle pg) as [t|]; [|by left].
  destruct (contributorLink pg) as [a|]; [|by left].
  destruct (page_count (pagesFormat pg)) as [pc|e]; [|by left].
  destruct (responsiveImage pg) as [[src|]|]; [|by left|];
    (destruct (contentContainer pg) as [d|]; [|by left];
     destruct (extract_isbn (isbnBlocks pg) html) as [i|e]; [|by left];
     right;
     destruct (ratingStatistics pg) as [rt|];
     try (destruct (float rt) as [fl|e]; [|done]);
     (destruct (count_field (ratingsCount pg)) as [rc|e]; [|done]);
     by destruct (count_field (reviewsCount pg)) as [rv|e]).
Qed.

(** *** One page *)

Lemma fetch_keeps url w :
  pauses (fetch get url w).2 = pauses w ∧
  draws (fetch get url w).2 = draws w.
Proof.
  unfold fetch. by destruct (fetch_url_with_retries _ _ _ _) as [r st].
Qed.

Lemma scrape_inv url w b w' :
  scrape url w = (Ok (Some b), w') →
  ∃ resp, ok resp = true ∧
          parser_error (text resp) = None ∧
          parse (text resp) (draws w) = (Got b, draws w') ∧
          pauses w' = pauses w.
Proof.
  unfold scrape_goodreads_book.
  pose proof (fetch_keeps url w) as [Hp Hd].
  destruct (fetch get url w) as [[[resp|]|e] w1]; [|done|done].
  cbn in Hp, Hd. destruct (ok resp) eqn:Hok; [|done]. cbn [negb].
  destruct (parser_error (text resp)) as [e|] eqn:Hpe; [done|].
  rewrite Hd.
  destruct (parse (text resp) (draws w)) as [[b'|e] k'] eqn:Hb; [|done].
  intros [= <- <-]. exists resp. by rewrite Hb.
Qed.

Section Transport.
Hypothesis Hget : transport_errors_only get.

Lemma fetch_returns url w :
  ∃ r w1,
    fetch get url w = (Ok r, w1) ∧
    (requests w ≤ requests w1 ≤ requests w + 3)%nat ∧
    (∀ resp, r = Some resp →
       status_code resp = 200 ∧ get url (requests w1 - 1)%nat = Ok resp).
Proof.
  unfold fetch, fetch_url_with_retries.
  destruct (FetchFacts.fetch_loop_spec get Hget url (range RETRY_COUNT)
              (Effects (requests w) (waited w) []))
    as (r & st' & Heq & Hcnt & Hsome & _).
  rewrite Heq. rewrite FetchFacts.length_range in Hcnt.
  change (Z.to_nat RETRY_COUNT) with 3%nat in Hcnt. cbn in Hcnt, Hsome.
  destruct r as [resp|]; eexists _, _; (split; [done|]); cbn.
  - split; [lia|]. intros ? [= <-].
    by destruct (Hsome resp eq_refl) as (? & ? & ?).
  - split; [lia|done].
Qed.

(** The two ways a call ends: it returns, or the parser has refused the
    page fetched and its exception leaves the call. *)
Lemma scrape_cases url w :
  ∃ w',
    (requests w ≤ requests w' ≤ requests w + 3)%nat ∧
    pauses w' = pauses w ∧
    ((∃ r, scrape url w = (Ok r, w') ∧
           (draws w' = draws w ∨ draws w' = S (S (S (draws w)))) ∧
           (∀ b, r = Some b →
              draws w' = S (S (S (draws w))) ∧
              ∃ resp, get url (requests w' - 1)%nat = Ok resp ∧
                      status_code resp = 200 ∧
                      parser_error (text resp) = None ∧
                      parse (text resp) (draws w) = (Got b, draws w')))
     ∨ (∃ e resp, scrape url w = (Raise e, w') ∧
                  get url (requests w' - 1)%nat = Ok resp ∧
                  status_code resp = 200 ∧
                  parser_error (text resp) = Some e ∧
                  draws w' = draws w)).
Proof.
  unfold scrape_goodreads_book.
  pose proof (fetch_keeps url w) as [Hp Hd].
  destruct (fetch_returns url w) as (r & w1 & Hf & Hreq & Hresp).
  rewrite Hf in Hp, Hd |- *. cbn in Hp, Hd.
  destruct r as [resp|].
  2:{ exists w1. split; [done|]. split; [done|]. left. exists None.
      split; [done|]. split; [by left|done]. }
  destruct (Hresp resp eq_refl) as [Hs Hg].
  assert (ok resp = true) as ->.
  { unfold ok, Crawler.raise_for_status. rewrite Hs. done. }
  cbn [negb].
  destruct (parser_error (text resp)) as [e|] eqn:Hpe.
  { exists w1. split; [done|]. split; [done|]. right. by exists e, resp. }
  rewrite Hd.
  pose proof (parse_book_draws (text resp) (draws w)) as Hdr.
  destruct (parse (text resp) (draws w)) as [[b|e] k'] eqn:Hb; cbn in Hdr.
  - eexists. split; [|split; [|left; eexists; split; [reflexivity|]]]; cbn.
    + done.
    + done.
    + apply parse_book_inv in Hb as Hk. destruct Hk as [-> _].
      split; [by right|]. intros ? [= <-]. split; [done|]. by exists resp.
  - eexists. split; [|split; [|left; eexists; split; [reflexivity|]]]; cbn.
    + done.
    + done.
    + split; [done|done].
Qed.

(** The page behind a dictionary: the answer, of status 200, to the last
    request made. *)
Lemma scrape_source url w b w' :
  scrape url w = (Ok (Some b), w') →
  ∃ resp, get url (requests w' - 1)%nat = Ok resp ∧
          status_code resp = 200 ∧
          parse (text resp) (draws w) = (Got b, draws w').
Proof.
  intros Hs.
  destruct (scrape_cases url w)
    as (w1 & _ & _ & [(r & Hs' & _ & Hb)|(e & resp & Hs' & _)]);
    rewrite Hs in Hs'; [|done].
  injection Hs' as <- <-.
  destruct (Hb b eq_refl) as (_ & resp & ? & ? & _ & ?). by exists resp.
Qed.

Section Parser.
Hypothesis Hparser : parser_accepts get parser_error.

Lemma scrape_returns url w :
  ∃ r w',
    scrape url w = (Ok r, w') ∧
    (requests w ≤ requests w' ≤ requests w + 3)%nat ∧
    pauses w' = pauses w ∧
    (draws w' = draws w ∨ draws w' = S (S (S (draws w)))) ∧
    (∀ b, r = Some b →
       draws w' = S (S (S (draws w))) ∧
       ∃ resp, get url (requests w' - 1)%nat = Ok resp ∧
               status_code resp = 200 ∧
               parse (text resp) (draws w) = (Got b, draws w')).
Proof.
  destruct (scrape_cases url w)
    as (w' & Hreq & Hp & [(r & Hs & Hd & Hb)|(e & resp & _ & Hg & _ & He & _)]).
  - exists r, w'. split; [done|]. split; [done|]. split; [done|].
    split; [done|]. intros b Hr.
    destruct (Hb b Hr) as (? & resp & ? & ? & _ & ?).
    split; [done|]. by exists resp.
  - by rewrite (Hparser _ _ _ Hg) in He.
Qed.

(** *** The batch *)

Lemma scrape_loop_returns urls : ∀ acc w,
  Forall (λ url, ∃ v, Validate.is_valid_url check_bracketed_netloc
                        check_nfkc url = Ok v) urls →
  ∃ new w',
    loop urls acc w = (Ok (acc ++ new), w') ∧
    (length new ≤ length (valid urls))%nat ∧
    pauses w' = (pauses w + length (valid urls))%nat ∧
    (requests w ≤ requests w' ≤ requests w + 3 * length (valid urls))%nat ∧
    (draws w ≤ draws w' ≤ draws w + 3 * length (valid urls))%nat ∧
    (∀ b, b ∈ new →
       ∃ url w0 w1, url ∈ valid urls ∧ scrape url w0 = (Ok (Some b), w1)).
Proof.
  induction urls as [|url rest IH]; intros acc w Hall.
  - exists [], w. cbn. rewrite app_nil_r. split; [done|].
    repeat split; try lia. by intros b ?%elem_of_nil.
  - apply Forall_cons in Hall as [[v Hv] Hall]. cbn [scrape_loop].
    rewrite Hv. unfold valid_urls.
    destruct v.
    + rewrite filter_cons_True by (unfold accepted; by rewrite Hv).
      fold (valid rest).
      destruct (scrape_returns url w) as (r & w1 & Hs & Hreq & Hp & Hd & Hb).
      rewrite Hs.
      match goal with |- context [loop rest ?a ?s] =>
        destruct (IH a s Hall) as (new & w' & -> & Hlen & Hp' & Hreq' & Hd' & Hsrc)
      end.
      cbn in Hp', Hreq', Hd'.
      destruct r as [b|].
      * exists (b :: new), w'. rewrite <- app_assoc. split; [done|]. cbn.
        repeat split; try lia.
        intros b' [->|Hin]%elem_of_cons.
        -- exists url, w, w1. split; [by left|done].
        -- destruct (Hsrc b' Hin) as (u & w0 & w2 & Hu & Hs').
           exists u, w0, w2. split; [by right|done].
      * exists new, w'. split; [done|]. cbn. repeat split; try lia.
        intros b' Hin. destruct (Hsrc b' Hin) as (u & w0 & w2 & Hu & Hs').
        exists u, w0, w2. split; [by right|done].
    + rewrite filter_cons_False by (unfold accepted; by rewrite Hv).
      fold (valid rest).
      match goal with |- context [loop rest ?a ?s] =>
        destruct (IH a s Hall) as (new & w' & -> & Hlen & Hp' & Hreq' & Hd' & Hsrc)
      end.
      cbn in Hp', Hreq', Hd'. exists new, w'. split; [done|].
      repeat split; try lia. done.
Qed.

Lemma scrape_loop_raises pre : ∀ url post e acc w,
  Forall (λ url, ∃ v, Validate.is_valid_url check_bracketed_netloc
                        check_nfkc url = Ok v) pre →
  Validate.is_valid_url check_bracketed_netloc check_nfkc url = Raise e →
  ∃ w', loop (pre ++ url :: post) acc w = (Raise e, w') ∧
        pauses w' = (pauses w + length (valid pre))%nat.
Proof.
  induction pre as [|u pre IH]; intros url post e acc w Hall Hurl.
  - cbn [app scrape_loop]. rewrite Hurl. exists w. split; [done|]. cbn. lia.
  - apply Forall_cons in Hall as [[v Hv] Hall].
    rewrite <- app_comm_cons. cbn [scrape_loop]. rewrite Hv.
    unfold valid_urls. destruct v.
    + rewrite filter_cons_True by (unfold accepted; by rewrite Hv).
      fold (valid pre).
      destruct (scrape_returns u w) as (r & w1 & -> & _ & Hp & _).
      match goal with |- context [loop _ ?a ?s] =>
        destruct (IH url post e a s Hall Hurl) as (w' & -> & Hp')
      end.
      exists w'. split; [done|]. cbn in Hp' |- *. lia.
    + rewrite filter_cons_False by (unfold accepted; by rewrite Hv).
      fold (valid pre).
      match goal with |- context [loop _ ?a ?s] =>
        destruct (IH url post e a s Hall Hurl) as (w' & -> & Hp')
      end.
      exists w'. split; [done|]. cbn in Hp' |- *. lia.
Qed.

End Parser.
End Transport.
End WithSite.

(** X19.  Provided the transport raises only transport-level exceptions,
    a call of [scrape_goodreads_book] ends in one of two ways.  It
    returns: every exception of the [try] block ends in the result [None],
    the random generator is drawn from either not at all or three times,
    and a dictionary is built from the answer of status 200 to the last
    request, after exactly three draws.  Or the parser, which is built
    before the [try] block, refuses the page of status 200 fetched last,
    and its exception leaves the call, with no draw made.  Either way the
    call makes at most three requests and takes no rate-limit pause.  When
    the parser accepts every page that the site serves, the call returns. *)
Theorem scrape_goodreads_book_outcomes
    (get : string → nat → result response)
    (parser_error : string → option exn) (soup : string → page)
    (randint : nat → Z → Z → Z) (float : string → result float64)
    (today : date) (parse_other : string → result date)
    (book_url : string) (w : world) :
  transport_errors_only get →
  let scrape :=
    scrape_goodreads_book get parser_error soup randint float today
      parse_other in
  (∃ w',
     (requests w ≤ requests w' ≤ requests w + 3)%nat ∧
     pauses w' = pauses w ∧
     ((∃ r, scrape book_url w = (Ok r, w') ∧
            (draws w' = draws w ∨ draws w' = S (S (S (draws w)))) ∧
            (∀ b, r = Some b →
               draws w' = S (S (S (draws w))) ∧
               ∃ resp, get book_url (requests w' - 1)%nat = Ok resp ∧
                       status_code resp = 200 ∧
                       parser_error (text resp) = None ∧
                       parse_book soup randint float today parse_other
                         (text resp) (draws w) = (Got b, draws w')))
      ∨ (∃ e resp, scrape book_url w = (Raise e, w') ∧
                   get book_url (requests w' - 1)%nat = Ok resp ∧
                   status_code resp = 200 ∧
                   parser_error (text resp) = Some e ∧
                   draws w' = draws w))) ∧
  (parser_accepts get parser_error →
   ∃ r w', scrape book_url w = (Ok r, w')).
Proof.
  intros Hget scrape. split.
  - by apply scrape_cases.
  - intros Hparser.
    destruct (scrape_returns get parser_error soup randint float today
                parse_other Hget Hparser book_url w) as (r & w' & Hs & _).
    by exists r, w'.
Qed.

Lemma scrape_goodreads_book_outcomes_witness :
  ∃ r w',
    scrape_goodreads_book book_site Crawler.accepts_all book_soup lowest
      sample_float run_day no_other_date
      "https://www.goodreads.com/book/show/0" start
    = (Ok r, w').
Proof.
  destruct (scrape_goodreads_book_outcomes book_site Crawler.accepts_all
              book_soup lowest sample_float run_day no_other_date
              "https://www.goodreads.com/book/show/0" start)
    as [_ Hret].
  - intros url k e. unfold book_site. repeat case_bool_decide; discriminate.
  - apply Hret. intros url k resp _. reflexivity.
Defined.

(** A parser that refuses the page: the exception leaves the call, and
    with it the batch. *)
Example scrape_refused_page :
  (scrape_goodreads_book book_site (λ _, Some ParserRejectedMarkup) book_soup
     lowest sample_float run_day no_other_date fight_club_url start).1
  = Raise ParserRejectedMarkup ∧
  (scrape_multiple_books (λ _, true) (λ _, true) book_site
     (λ _, Some ParserRejectedMarkup) book_soup lowest sample_float run_day
     no_other_date [fight_club_url] start).1
  = Raise ParserRejectedMarkup.
Proof. split; vm_compute; reflexivity. Qed.

(** X20.  A dictionary is returned only for a page that has the title
    element, the author link and the description container, and whose
    image element, when there is one, has a [src] attribute: the
    fall-back ["N/A"] of these three fields stands for an element with an
    empty text, never for a missing element. *)
Theorem scrape_goodreads_book_needs_elements
    (get : string → nat → result response)
    (parser_error : string → option exn) (soup : string → page)
    (randint : nat → Z → Z → Z) (float : string → result float64)
    (today : date) (parse_other : string → result date)
    (book_url : string) (w w' : world) (b : book) :
  transport_errors_only get →
  scrape_goodreads_book get parser_error soup randint float today parse_other
    book_url w
  = (Ok (Some b), w') →
  ∃ resp,
    get book_url (requests w' - 1)%nat = Ok resp ∧ status_code resp = 200 ∧
    let pg := soup (text resp) in
    (∃ t, bookTitle pg = Some t ∧ title b = or_else t "N/A") ∧
    (∃ a, contributorLink pg = Some a ∧ authorName b = or_else a "N/A") ∧
    (∃ d, contentContainer pg = Some d ∧ description b = or_else d "N/A") ∧
    responsiveImage pg ≠ Some None.
Proof.
  intros Hget Hs.
  destruct (scrape_source get parser_error soup randint float today parse_other Hget
              book_url w b w' Hs) as (resp & Hg & Hst & Hb).
  exists resp. split; [done|]. split; [done|].
  apply parse_book_inv in Hb
    as (_ & Ht & Ha & _ & _ & Him & Hd & _).
  intros pg. split; [done|]. split; [done|]. split; [done|].
  fold pg in Him. destruct Him as [[Hn _]|Hn]; by rewrite Hn.
Qed.

Lemma scrape_goodreads_book_needs_elements_witness :
  ∃ resp,
    book_site fight_club_url 0%nat = Ok resp ∧ status_code resp = 200 ∧
    (∃ t, bookTitle (book_soup (text resp)) = Some t ∧
          title fight_club_record = or_else t "N/A").
Proof.
  destruct (scrape_goodreads_book_needs_elements book_site Crawler.accepts_all book_soup
              lowest
              sample_float run_day no_other_date fight_club_url start
              after_fight_club fight_club_record)
    as (resp & H1 & H2 & H3 & _).
  - intros url k e. unfold book_site. repeat case_bool_decide; discriminate.
  - vm_compute. reflexivity.
  - by exists resp.
Defined.

(** X21.  Every dictionary returned has a non-empty title, author,
    description and ISBN field; its counts are not negative; its page
    count is a non-negative integer or the text ["N/A"]; and, the random
    generator meeting the contract of [randint], its price is a multiple
    of 1000 between 10000 and 200000, its likes are between 1 and 100 and
    its stock between 1 and 10. *)
Theorem scrape_goodreads_book_record_invariants
    (get : string → nat → result response)
    (parser_error : string → option exn) (soup : string → page)
    (randint : nat → Z → Z → Z) (float : string → result float64)
    (today : date) (parse_other : string → result date)
    (book_url : string) (w w' : world) (b : book) :
  randint_in_range randint →
  scrape_goodreads_book get parser_error soup randint float today parse_other
    book_url w
  = (Ok (Some b), w') →
  title b ≠ "" ∧ authorName b ≠ "" ∧ description b ≠ "" ∧ isbn b ≠ "" ∧
  0 ≤ totalRating b ∧ 0 ≤ totalReview b ∧
  match pages b with PagesInt n => 0 ≤ n | PagesText s => s = "N/A" end ∧
  10000 ≤ price b ≤ 200000 ∧ price b `mod` 1000 = 0 ∧
  1 ≤ likes b ≤ 100 ∧ 1 ≤ stock b ≤ 10.
Proof.
  intros Hrand Hs.
  apply scrape_inv in Hs as (resp & _ & _ & Hb & _).
  apply parse_book_inv in Hb
    as (_ & (t & _ & ->) & (a & _ & ->) & Hpc & _ & _ & (d & _ & ->) & _
        & Hi & -> & -> & -> & _ & Hrc & Hrv).
  split; [by apply or_else_nonempty|]. split; [by apply or_else_nonempty|].
  split; [by apply or_else_nonempty|].
  split; [by eapply extract_isbn_nonempty|].
  split; [by eapply count_field_nonneg|].
  split; [by eapply count_field_nonneg|].
  split; [by apply (page_count_shape _ _ Hpc)|].
  pose proof (Hrand (draws w) 10 200 ltac:(lia)).
  pose proof (Hrand (S (draws w)) 1 100 ltac:(lia)).
  pose proof (Hrand (S (S (draws w))) 1 10 ltac:(lia)).
  split; [lia|]. split; [apply Z_mod_mult|]. split; lia.
Qed.

Lemma scrape_goodreads_book_record_invariants_witness :
  title fight_club_record ≠ "" ∧ authorName fight_club_record ≠ "" ∧
  description fight_club_record ≠ "" ∧ isbn fight_club_record ≠ "" ∧
  0 ≤ totalRating fight_club_record ∧ 0 ≤ totalReview fight_club_record ∧
  match pages fight_club_record with
  | PagesInt n => 0 ≤ n
  | PagesText s => s = "N/A"
  end ∧
  10000 ≤ price fight_club_record ≤ 200000 ∧
  price fight_club_record `mod` 1000 = 0 ∧
  1 ≤ likes fight_club_record ≤ 100 ∧ 1 ≤ stock fight_club_record ≤ 10.
Proof.
  apply (scrape_goodreads_book_record_invariants book_site Crawler.accepts_all book_soup
              lowest
           sample_float run_day no_other_date fight_club_url start
           after_fight_club fight_club_record).
  - intros k a b Hab. unfold lowest. lia.
  - vm_compute. reflexivity.
Defined.

(** X22.  A dictionary is returned only when the texts of the rating and
    of the two counts can be converted: the text of a count element, when
    it is ASCII, is empty or has a digit, and [float] accepts the text of
    the rating element.  A ratings line without a figure thus loses the
    whole record, not only the count. *)
Theorem scrape_goodreads_book_needs_figures
    (get : string → nat → result response)
    (parser_error : string → option exn) (soup : string → page)
    (randint : nat → Z → Z → Z) (float : string → result float64)
    (today : date) (parse_other : string → result date)
    (book_url : string) (w w' : world) (b : book) :
  transport_errors_only get →
  scrape_goodreads_book get parser_error soup randint float today parse_other
    book_url w
  = (Ok (Some b), w') →
  ∃ resp,
    get book_url (requests w' - 1)%nat = Ok resp ∧ status_code resp = 200 ∧
    let pg := soup (text resp) in
    (∀ text, ratingsCount pg = Some text → ascii_text text = true →
             text = "" ∨ no_digit text = false) ∧
    (∀ text, reviewsCount pg = Some text → ascii_text text = true →
             text = "" ∨ no_digit text = false) ∧
    (∀ text, ratingStatistics pg = Some text →
             float text = Ok (averageRating b)).
Proof.
  intros Hget Hs.
  destruct (scrape_source get parser_error soup randint float today parse_other Hget
              book_url w b w' Hs) as (resp & Hg & Hst & Hb).
  exists resp. split; [done|]. split; [done|].
  apply parse_book_inv in Hb
    as (_ & _ & _ & _ & _ & _ & _ & _ & _ & _ & _ & _ & Hfl & Hrc & Hrv).
  intros pg. fold pg in Hfl, Hrc, Hrv. split; [|split].
  - intros text Ht _. rewrite Ht in Hrc. by eapply count_field_digit.
  - intros text Ht _. rewrite Ht in Hrv. by eapply count_field_digit.
  - intros text Ht. by rewrite Ht in Hfl.
Qed.

Lemma scrape_goodreads_book_needs_figures_witness :
  ∃ resp,
    book_site fight_club_url 0%nat = Ok resp ∧ status_code resp = 200 ∧
    (∀ text, ratingsCount (book_soup (Fetch.text resp)) = Some text →
             ascii_text text = true → text = "" ∨ no_digit text = false).
Proof.
  destruct (scrape_goodreads_book_needs_figures book_site Crawler.accepts_all book_soup
              lowest
              sample_float run_day no_other_date fight_club_url start
              after_fight_club fight_club_record)
    as (resp & H1 & H2 & H3 & _).
  - intros url k e. unfold book_site. repeat case_bool_decide; discriminate.
  - vm_compute. reflexivity.
  - by exists resp.
Defined.

(** The page of [Samples.unrated] gives no record. *)
Example scrape_unrated_page :
  (scrape_goodreads_book book_site Crawler.accepts_all book_soup
              lowest sample_float run_day
     no_other_date "https://www.goodreads.com/book/show/0" start).1
  = Ok None.
Proof. vm_compute. reflexivity. Qed.

(** X23.  The fall-back values of a dictionary: without the page-format
    element the page count is ["N/A"], without the publication element
    the date is ["N/A"], without an image element the image is
    [FALLBACK_IMAGE], without a rating element the rating is 0.0, and
    without a count element, or with an empty one, the count is 0.  The
    category is [["General"]] only when the genre list itself is missing;
    a genre list in which the selector finds nothing gives the empty
    list. *)
Theorem scrape_goodreads_book_fallbacks
    (get : string → nat → result response)
    (parser_error : string → option exn) (soup : string → page)
    (randint : nat → Z → Z → Z) (float : string → result float64)
    (today : date) (parse_other : string → result date)
    (book_url : string) (w w' : world) (b : book) :
  transport_errors_only get →
  scrape_goodreads_book get parser_error soup randint float today parse_other
    book_url w
  = (Ok (Some b), w') →
  ∃ resp,
    get book_url (requests w' - 1)%nat = Ok resp ∧ status_code resp = 200 ∧
    let pg := soup (text resp) in
    (pagesFormat pg = None → pages b = PagesText "N/A") ∧
    (publicationInfo pg = None → publication b = "N/A") ∧
    (responsiveImage pg = None → imageURL b = FALLBACK_IMAGE) ∧
    (ratingStatistics pg = None → averageRating b = 0) ∧
    (ratingsCount pg = None ∨ ratingsCount pg = Some "" → totalRating b = 0) ∧
    (reviewsCount pg = None ∨ reviewsCount pg = Some "" → totalReview b = 0) ∧
    (genresList pg = None → category b = ["General"]) ∧
    (∀ texts, genresList pg = Some texts → category b = texts).
Proof.
  intros Hget Hs.
  destruct (scrape_source get parser_error soup randint float today parse_other Hget
              book_url w b w' Hs) as (resp & Hg & Hst & Hb).
  exists resp. split; [done|]. split; [done|].
  apply parse_book_inv in Hb
    as (_ & _ & _ & Hpc & Hpub & Him & _ & Hcat & _ & _ & _ & _
        & Hfl & Hrc & Hrv).
  intros pg. fold pg in Hpc, Hpub, Him, Hcat, Hfl, Hrc, Hrv.
  split; [intros Hn; rewrite Hn in Hpc; by injection Hpc|].
  split; [intros Hn; by rewrite Hn in Hpub|].
  split; [intros Hn; destruct Him as [[_ ?]|Him]; [done|congruence]|].
  split; [intros Hn; by rewrite Hn in Hfl|].
  split; [intros [Hn|Hn]; rewrite Hn in Hrc; by injection Hrc|].
  split; [intros [Hn|Hn]; rewrite Hn in Hrv; by injection Hrv|].
  split; [intros Hn; by rewrite Hn in Hcat|].
  intros texts Hn. by rewrite Hn in Hcat.
Qed.

Lemma scrape_goodreads_book_fallbacks_witness :
  ∃ resp,
    book_site fight_club_url 0%nat = Ok resp ∧ status_code resp = 200 ∧
    (∀ texts, genresList (book_soup (Fetch.text resp)) = Some texts →
              category fight_club_record = texts).
Proof.
  destruct (scrape_goodreads_book_fallbacks book_site Crawler.accepts_all book_soup
              lowest
              sample_float run_day no_other_date fight_club_url start
              after_fight_club fight_club_record)
    as (resp & H1 & H2 & H3).
  - intros url k e. unfold book_site. repeat case_bool_decide; discriminate.
  - vm_compute. reflexivity.
  - exists resp. split; [done|]. split; [done|]. apply H3.
Defined.

(** X24.  [scrape_multiple_books], when the transport raises only
    transport-level exceptions, the parser accepts every page that the
    site serves, and [urlparse] accepts every URL of the list: the call
    returns a list of dictionaries with pairwise distinct titles, each of
    them built by [scrape_goodreads_book] from a URL of the list that
    passes [is_valid_url].  One rate-limit pause is taken per valid URL,
    and none for a URL that is skipped; at most three requests and three
    random draws are made per valid URL. *)
Theorem scrape_multiple_books_accounting
    (check_bracketed_netloc check_nfkc : string → bool)
    (get : string → nat → result response)
    (parser_error : string → option exn) (soup : string → page)
    (randint : nat → Z → Z → Z) (float : string → result float64)
    (today : date) (parse_other : string → result date)
    (book_urls : list string) (w : world) :
  transport_errors_only get →
  parser_accepts get parser_error →
  Forall (λ url, ∃ v, Validate.is_valid_url check_bracketed_netloc
                        check_nfkc url = Ok v) book_urls →
  let valid := valid_urls check_bracketed_netloc check_nfkc book_urls in
  ∃ books w',
    scrape_multiple_books check_bracketed_netloc check_nfkc get parser_error soup
      randint
      float today parse_other book_urls w = (Ok books, w') ∧
    NoDup (title <$> books) ∧
    (length books ≤ length valid)%nat ∧
    pauses w' = (pauses w + length valid)%nat ∧
    (requests w ≤ requests w' ≤ requests w + 3 * length valid)%nat ∧
    (draws w ≤ draws w' ≤ draws w + 3 * length valid)%nat ∧
    (∀ b, b ∈ books →
       ∃ url w0 w1,
         url ∈ valid ∧
         scrape_goodreads_book get parser_error soup randint float today
           parse_other url w0 = (Ok (Some b), w1)).
Proof.
  intros Hget Hparser Hall valid.
  destruct (scrape_loop_returns check_bracketed_netloc check_nfkc get
              parser_error soup
              randint float today parse_other Hget Hparser book_urls [] w Hall)
    as (new & w' & Hloop & Hlen & Hp & Hreq & Hd & Hsrc).
  unfold scrape_multiple_books. rewrite Hloop. cbn [app].
  exists (Dedup.remove_duplicates new), w'. split; [done|].
  split; [apply DedupFacts.loop_titles_NoDup|].
  pose proof (DedupFacts.loop_sublist new ∅) as Hsub.
  fold (Dedup.remove_duplicates new) in Hsub.
  split; [apply sublist_length in Hsub; unfold valid; lia|].
  split; [done|]. split; [done|]. split; [done|].
  intros b Hb. apply Hsrc. by eapply elem_of_sublist.
Qed.

Lemma scrape_multiple_books_accounting_witness :
  ∃ books w',
    scrape_multiple_books (λ _, true) (λ _, true) book_site Crawler.accepts_all book_soup
              lowest
      sample_float run_day no_other_date
      [fight_club_url; "nonsense"; "https://www.goodreads.com/book/show/0";
       fight_club_url] start = (Ok books, w') ∧
    NoDup (title <$> books) ∧ pauses w' = 3%nat.
Proof.
  destruct (scrape_multiple_books_accounting (λ _, true) (λ _, true)
              book_site Crawler.accepts_all book_soup
              lowest sample_float run_day no_other_date
              [fight_club_url; "nonsense";
               "https://www.goodreads.com/book/show/0"; fight_club_url] start)
    as (books & w' & H1 & H2 & _ & H3 & _).
  - intros url k e. unfold book_site. repeat case_bool_decide; discriminate.
  - intros url k resp _. reflexivity.
  - repeat constructor; eexists; vm_compute; reflexivity.
  - exists books, w'. split; [exact H1|]. split; [exact H2|]. exact H3.
Defined.

(** X25.  [is_valid_url] is called outside any [try] block: a URL on
    which [urlparse] raises ends the whole batch with that exception, and
    the dictionaries built from the URLs before it are not returned.  The
    batch gets as far as that URL when the transport raises only
    transport-level exceptions, the parser accepts every page that the
    site serves and [urlparse] accepts the URLs before it. *)
Theorem scrape_multiple_books_aborts
    (check_bracketed_netloc check_nfkc : string → bool)
    (get : string → nat → result response)
    (parser_error : string → option exn) (soup : string → page)
    (randint : nat → Z → Z → Z) (float : string → result float64)
    (today : date) (parse_other : string → result date)
    (pre post : list string) (url : string) (e : exn) (w : world) :
  transport_errors_only get →
  parser_accepts get parser_error →
  Forall (λ url, ∃ v, Validate.is_valid_url check_bracketed_netloc
                        check_nfkc url = Ok v) pre →
  Validate.is_valid_url check_bracketed_netloc check_nfkc url = Raise e →
  ∃ w',
    scrape_multiple_books check_bracketed_netloc check_nfkc get parser_error soup
      randint
      float today parse_other (pre ++ url :: post) w = (Raise e, w') ∧
    pauses w'
    = (pauses w
       + length (valid_urls check_bracketed_netloc check_nfkc pre))%nat.
Proof.
  intros Hget Hparser Hall Hurl.
  destruct (scrape_loop_raises check_bracketed_netloc check_nfkc get
              parser_error soup
              randint float today parse_other Hget Hparser pre url post e [] w
              Hall Hurl) as (w' & Hloop & Hp).
  unfold scrape_multiple_books. rewrite Hloop. by exists w'.
Qed.

Lemma scrape_multiple_books_aborts_witness :
  ∃ w',
    scrape_multiple_books (λ _, true) (λ _, true) book_site Crawler.accepts_all book_soup
              lowest
      sample_float run_day no_other_date
      ([fight_club_url] ++ "https://[goodreads.com/book" :: [fight_club_url])
      start = (Raise ValueError, w').
Proof.
  destruct (scrape_multiple_books_aborts (λ _, true) (λ _, true)
              book_site Crawler.accepts_all book_soup
              lowest sample_float run_day no_other_date
              [fight_club_url] [fight_club_url]
              "https://[goodreads.com/book" ValueError start)
    as (w' & H1 & _).
  - intros url k e. unfold book_site. repeat case_bool_decide; discriminate.
  - intros url k resp _. reflexivity.
  - repeat constructor; eexists; vm_compute; reflexivity.
  - vm_compute. reflexivity.
  - by exists w'.
Defined.

End ScrapeFacts.

(** ** The scraper of [books_scraper.py] *)

Module BooksScraperFacts.
Import PyStr Fetch Scrape BooksScraper Samples StrFacts ScrapeFacts.

(** The first piece of [s.split(c)] is the text before the first [c]. *)
Lemma split_head c s :
  head (split c s)
  = Some (match partition c s with Some (a, _) => a | None => s end).
Proof.
  induction s as [|a s IH]; [done|]. cbn [split partition].
  case_bool_decide; [done|].
  destruct (split c s) as [|w ws]; [done|]. cbn in IH |- *.
  injection IH as ->. by destruct (partition c s) as [[pre post]|].
Qed.

(** The description is one sentence: a text without a full stop,
    followed by a full stop; when the element has a full stop, that text
    is what comes before the first one. *)
Lemma first_sentence_shape description_div :
  ∃ body,
    first_sentence description_div = body +:+ "." ∧
    contains "." body = false ∧
    ∀ text, description_div = Some text → contains "." text = true →
            ∃ rest, text = body +:+ "." +:+ rest.
Proof.
  unfold first_sentence. destruct description_div as [text|].
  - destruct (contains "." text) eqn:Hdot.
    + rewrite split_head.
      destruct (partition "." text) as [[a b]|] eqn:Hp.
      * apply partition_inv in Hp as [-> Ha]. exists a. cbn [default].
        split; [done|]. split; [done|].
        intros ? [= <-] _. by exists b.
      * apply partition_None in Hp. congruence.
    + exists "No description available". split; [done|]. split; [done|].
      intros ? [= <-]. congruence.
  - exists "No description available". split; [done|]. split; [done|]. done.
Qed.

Section WithSite.
Variable get : string → nat → result response.
Variable parser_error : string → option exn.
Variable soup : string → BooksScraper.page.
Variable randint : nat → Z → Z → Z.
Variable float : string → result float64.

Lemma summary_inv html k s k' :
  BooksScraper.parse_book soup randint float html k = (Got s, k') →
  let pg := soup html in
  (∃ t, bookTitle pg = Some t ∧ title s = or_else t "N/A") ∧
  (∃ a, contributorLink pg = Some a ∧ authorName s = or_else a "N/A") ∧
  description s = first_sentence (descriptionBlock pg) ∧
  category s
  = match genresList pg with
    | Some texts => list.take 2 texts
    | None => ["General"]
    end ∧
  price s = randint k 10 200 * 1000 ∧
  likes s = randint (S k) 1 100 ∧
  stock s = randint (S (S k)) 1 10.
Proof.
  intros H pg.
  unfold BooksScraper.parse_book, and_then, get_text, lift,
    BooksScraper.image_src, random_randint, ret, raise in H.
  fold pg in H.
  destruct (bookTitle pg) as [t|] eqn:Ht; [|done].
  destruct (contributorLink pg) as [a|] eqn:Ha; [|done].
  destruct (responsiveImage pg) as [[src|]|] eqn:Him; [|done|];
    (destruct (ratingStatistics pg) as [rt|] eqn:Hrt;
     [destruct (float rt) as [fl|e] eqn:Hfl; [|done]|]);
    injection H as <- <-; cbn; repeat split; eauto.
Qed.

Lemma summary_source url w s w' :
  BooksScraper.scrape_goodreads_book get parser_error soup randint float url
    w = (Ok (Some s), w') →
  ∃ resp, BooksScraper.parse_book soup randint float (text resp) (draws w)
          = (Got s, draws w').
Proof.
  unfold BooksScraper.scrape_goodreads_book.
  pose proof (fetch_keeps get url w) as [Hp Hd].
  destruct (fetch get url w) as [[[resp|]|e] w1]; [|done|done].
  cbn in Hp, Hd. destruct (ok resp); [|done]. cbn [negb].
  destruct (parser_error (text resp)); [done|]. rewrite Hd.
  destruct (BooksScraper.parse_book soup randint float (text resp) (draws w))
    as [[s'|e] k'] eqn:Hb; [|done].
  intros [= <- <-]. exists resp. by rewrite Hb.
Qed.

End WithSite.

(** X26.  Every dictionary that the scraper of [books_scraper.py]
    returns has a non-empty title and author, a description that is one
    sentence (a text without a full stop, followed by a full stop), at
    most two categories, and, the random generator meeting the contract
    of [randint], a price that is a multiple of 1000 between 10000 and
    200000, likes between 1 and 100 and a stock between 1 and 10. *)
Theorem books_scraper_record_invariants
    (get : string → nat → result response)
    (parser_error : string → option exn)
    (soup : string → BooksScraper.page)
    (randint : nat → Z → Z → Z) (float : string → result float64)
    (book_url : string) (w w' : world) (s : summary) :
  randint_in_range randint →
  BooksScraper.scrape_goodreads_book get parser_error soup randint float
    book_url w = (Ok (Some s), w') →
  title s ≠ "" ∧ authorName s ≠ "" ∧
  (∃ body, description s = body +:+ "." ∧ contains "." body = false) ∧
  (length (category s) ≤ 2)%nat ∧
  10000 ≤ price s ≤ 200000 ∧ price s `mod` 1000 = 0 ∧
  1 ≤ likes s ≤ 100 ∧ 1 ≤ stock s ≤ 10.
Proof.
  intros Hrand Hs.
  apply summary_source in Hs as [resp Hb].
  apply summary_inv in Hb
    as ((t & _ & ->) & (a & _ & ->) & -> & -> & -> & -> & ->).
  split; [by apply or_else_nonempty|]. split; [by apply or_else_nonempty|].
  split.
  { destruct (first_sentence_shape (descriptionBlock (soup (text resp))))
      as (body & ? & ? & _). by exists body. }
  split.
  { destruct (genresList (soup (text resp))) as [texts|]; [|cbn; lia].
    rewrite length_take. lia. }
  pose proof (Hrand (draws w) 10 200 ltac:(lia)).
  pose proof (Hrand (S (draws w)) 1 100 ltac:(lia)).
  pose proof (Hrand (S (S (draws w))) 1 10 ltac:(lia)).
  split; [lia|]. split; [apply Z_mod_mult|]. split; lia.
Qed.

Lemma books_scraper_record_invariants_witness :
  title emma_record ≠ "" ∧ authorName emma_record ≠ "" ∧
  (∃ body, description emma_record = body +:+ "." ∧
           contains "." body = false) ∧
  (length (category emma_record) ≤ 2)%nat ∧
  10000 ≤ price emma_record ≤ 200000 ∧ price emma_record `mod` 1000 = 0 ∧
  1 ≤ likes emma_record ≤ 100 ∧ 1 ≤ stock emma_record ≤ 10.
Proof.
  apply (books_scraper_record_invariants emma_site Crawler.accepts_all
           emma_soup lowest
           sample_float "https://www.goodreads.com/book/show/6969" start
           after_emma emma_record).
  - intros k a b Hab. unfold lowest. lia.
  - vm_compute. reflexivity.
Defined.

End BooksScraperFacts.

(** ** More on the field extractors *)

Module ExtractMore.
Import PyStr Regex Extract Scrape StrFacts ExtractFacts ScrapeFacts.

(** X27.  For an ASCII text, [extract_int_from_text] returns 0 when the
    text is empty, and for a text with one to 4300 digits the number that
    its digits spell, whatever stands between them; it raises [ValueError]
    for every other text: a non-empty text without a digit, or one with
    more digits than [int] accepts.  It raises nothing else, and never
    returns a negative number. *)
Theorem extract_int_from_text_cases (text : string) :
  ascii_text text = true →
  let digits := strip_non_digits text in
  (text = "" → extract_int_from_text text = Ok 0) ∧
  (digits ≠ "" → (String.length digits ≤ int_max_str_digits)%nat →
   extract_int_from_text text = Ok (digits_value 0 digits)) ∧
  (text ≠ "" →
   digits = "" ∨ (int_max_str_digits < String.length digits)%nat →
   extract_int_from_text text = Raise ValueError) ∧
  (∀ n, extract_int_from_text text = Ok n → 0 ≤ n) ∧
  (∀ e, extract_int_from_text text = Raise e → e = ValueError).
Proof.
  intros _ digits. split; [by intros ->|].
  split; [apply extract_int_digits|].
  split; [|split].
  - intros Hne Hbad. destruct text as [|c text]; [done|].
    unfold extract_int_from_text, py_int. fold digits.
    destruct Hbad as [->|Hlong]; [done|].
    destruct digits as [|d ds]; [done|].
    by rewrite (proj2 (Nat.ltb_lt _ _) Hlong).
  - intros n Hn. by apply (count_field_nonneg (Some text)).
  - intros e. destruct text as [|c text]; [done|].
    unfold extract_int_from_text, py_int.
    destruct (strip_non_digits (String c text)) as [|d ds];
      [by intros [= <-]|].
    destruct (Nat.ltb _ _); [by intros [= <-]|done].
Qed.

Lemma extract_int_from_text_cases_witness :
  extract_int_from_text "1,234 ratings" = Ok 1234.
Proof.
  destruct (extract_int_from_text_cases "1,234 ratings") as (_ & H & _).
  - vm_compute. reflexivity.
  - rewrite H; [reflexivity|done|vm_compute; lia].
Defined.

(** *** The page count *)

(** A greedy repetition over a run of the class that ends where the class
    ends: when the continuation accepts the end of the run, that is the
    match. *)
Lemma match_rep_run {R} p (d : string) : ∀ lo prev (t : string)
    (k : position → option string → option R) cap r,
  all_chars p d = true → (lo ≤ String.length d)%nat →
  match t with String c _ => p c = false | EmptyString => True end →
  k (Pos (last_char prev d) t) cap = Some r →
  match_rep p lo None prev (d +:+ t) k cap = Some r.
Proof.
  induction d as [|c d IH]; intros lo prev t k cap r Hall Hlo Ht Hk.
  - rewrite str_app_nil_l. cbn in Hlo, Hk.
    assert (lo = 0%nat) as -> by lia.
    destruct t as [|c t]; cbn; [done|]. by rewrite Ht.
  - rewrite str_app_cons. cbn in Hall. apply andb_prop in Hall as [Hc Hd].
    cbn [match_rep]. rewrite Hc. cbn [andb].
    rewrite bool_decide_false by done. cbn [negb].
    change (Init.Nat.pred <$> None) with (@None nat).
    rewrite (IH (pred lo) (Some c) t k cap r); [done|done| |done|done].
    cbn in Hlo. lia.
Qed.

Lemma str_take_app_length (d t : string) :
  take (String.length (d +:+ t) - String.length t) (d +:+ t) = d.
Proof.
  rewrite str_length_app.
  replace (String.length d + String.length t - String.length t)%nat
    with (String.length d) by lia.
  induction d as [|c d IH]; [by destruct t|].
  rewrite str_app_cons. cbn. by rewrite IH.
Qed.

Lemma search_from_here r prev s m :
  match_here r (Pos prev s) = Some m → search_from r prev s = Some m.
Proof. intros H. destruct s; cbn [search_from]; by rewrite H. Qed.

Lemma space_not_digit c : is_space c = true → is_digit c = false.
Proof.
  intros Hs. destruct (is_digit c) eqn:Hd; [|done].
  apply digit_not_space in Hd. congruence.
Qed.

Lemma pages_word_inv w :
  lower w = "pages" →
  ∃ c1 c2 c3 c4 c5,
    w = String c1 (String c2 (String c3 (String c4 (String c5 "")))) ∧
    lower_char c1 = "p"%char ∧ lower_char c2 = "a"%char ∧
    lower_char c3 = "g"%char ∧ lower_char c4 = "e"%char ∧
    lower_char c5 = "s"%char.
Proof.
  destruct w as [|c1 [|c2 [|c3 [|c4 [|c5 [|c6 w]]]]]]; try done.
  unfold lower. cbn. intros [= ? ? ? ? ?]. by exists c1, c2, c3, c4, c5.
Qed.

Lemma letter_not_space c x :
  lower_char c = x → is_alpha x = true → is_space c = false.
Proof.
  intros <-. revert c.
  intros [[] [] [] [] [] [] [] []]; vm_compute; try done.
Qed.

(** The match of [pages_pattern] at the start of a text that begins with
    a number, blanks and the word. *)
Lemma search_pages (d ws w tail : string) :
  d ≠ "" → all_chars is_digit d = true →
  ws ≠ "" → all_chars is_space ws = true →
  lower w = "pages" →
  search pages_pattern (d +:+ ws +:+ w +:+ tail)
  = Some (d +:+ ws +:+ w, Some d).
Proof.
  intros Hd Hdd Hws Hwss Hw.
  apply pages_word_inv in Hw as (c1 & c2 & c3 & c4 & c5 & -> & H1 & H2 & H3
                                 & H4 & H5).
  apply search_from_here. unfold match_here, pages_pattern, plus, ignore_case.
  cbn [match_at before rest].
  set (word := String c1 _).
  set (after_d := ws +:+ word +:+ tail).
  apply match_rep_run; [done| | |].
  { destruct d; [done|cbn; lia]. }
  { destruct ws as [|c ws']; [done|]. unfold after_d. rewrite str_app_cons.
    cbn in Hwss. apply andb_prop in Hwss as [Hc _]. by apply space_not_digit. }
  cbn [before rest].
  rewrite (str_take_app_length d after_d).
  unfold after_d at 1.
  apply match_rep_run; [done| | |].
  { destruct ws; [done|cbn; lia]. }
  { unfold word. rewrite str_app_cons.
    by apply (letter_not_space c1 "p"). }
  unfold word. rewrite !str_app_cons, str_app_nil_l. cbn [before rest].
  rewrite H1, H2, H3, H4, H5.
  rewrite !bool_decide_true by done. cbn [before rest]. f_equal. f_equal.
  fold word.
  replace (d +:+ after_d) with ((d +:+ ws +:+ word) +:+ tail).
  - apply str_take_app_length.
  - unfold after_d. by rewrite !str_app_assoc.
Qed.

(** X28.  A page-format text that begins with a number of at most 4300
    digits, then blanks, then the word [pages] in any mix of upper and
    lower case, gives that number as the page count, whatever follows. *)
Theorem page_count_reads_leading_number (d ws w tail : string) :
  d ≠ "" → all_chars is_digit d = true →
  (String.length d ≤ int_max_str_digits)%nat →
  ws ≠ "" → all_chars is_space ws = true →
  lower w = "pages" →
  page_count (Some (d +:+ ws +:+ w +:+ tail))
  = Ok (PagesInt (digits_value 0 d)).
Proof.
  intros Hd Hdd Hlen Hws Hwss Hw. unfold page_count.
  rewrite search_pages by done.
  change (group1 (d +:+ ws +:+ w, Some d)) with d.
  unfold py_int. destruct d as [|c d]; [done|].
  by rewrite (proj2 (Nat.ltb_ge _ _) Hlen).
Qed.

Lemma page_count_reads_leading_number_witness :
  page_count (Some ("224" +:+ " " +:+ "Pages" +:+ ", Paperback"))
  = Ok (PagesInt 224).
Proof.
  apply (page_count_reads_leading_number "224" " " "Pages" ", Paperback");
    try done.
  vm_compute. lia.
Defined.

(** Without blanks between the number and the word, and without the
    word, the page count is ["N/A"]. *)
Example page_count_samples :
  page_count (Some "12pages") = Ok (PagesText "N/A") ∧
  page_count (Some "Kindle Edition") = Ok (PagesText "N/A") ∧
  page_count (Some "about 320  PAGES, Hardcover") = Ok (PagesInt 320) ∧
  page_count None = Ok (PagesText "N/A").
Proof. repeat split; vm_compute; reflexivity. Qed.

End ExtractMore.

(** ** The two crawlers side by side *)

Module CrawlerCompare.
Import Fetch Crawler CrawlerLegacy CrawlerSpec UrlFile CrawlerFacts
  CrawlerLegacyFacts Fixtures Samples.





(** Where the two crawlers part: a document that the parser refuses ends
    the crawl of [url_scraper.py] with the list collected so far, and
    leaves the crawler of [url.py] as an exception. *)
Example crawl_with_refused_page :
  CrawlerLegacy.fetch_goodreads_urls (λ _, true) (λ _, true) shelf_get
    (λ _, Some ParserRejectedMarkup) shelf_links sleeps 5 shelf 20 2
  = Some (Ok []) ∧
  Crawler.fetch_goodreads_urls (λ _, true) (λ _, true) shelf_get
    (λ _, Some ParserRejectedMarkup) shelf_links sleeps 5 shelf 20 2
  = Some (Raise ParserRejectedMarkup).
Proof. split; vm_compute; reflexivity. Qed.

(** X30.  The script of [url_scraper.py], when its crawl stops after [n]
    pages, writes the list that the crawl returns to [books_url.py],
    whatever the list is: with no URL collected the file is still
    written, and holds an empty list.  A file that cannot be opened is
    reported and the script goes on.  The pages of the crawl are those
    that the script sees: an answer of a status other than 200 is a
    failed request, and a document that the parser refuses a page without
    links; and were the pause of two seconds between the pages to raise,
    the crawl would end after the first page. *)
Theorem url_scraper_main_always_writes (writable : string → bool)
    (check_bracketed_netloc check_nfkc : string → bool)
    (get : string → result response) (parser_error : string → option exn)
    (book_links : string → list string) (system_sleep : Z → result unit)
    (files : text_files) (n fuel : nat) :
  stops_after check_bracketed_netloc check_nfkc (as_failures get) accepts_all
    (as_no_links parser_error book_links) goodreads_search_url 20 n = true →
  (n < fuel)%nat →
  let pages :=
    match time_sleep system_sleep 2 with
    | Ok _ => n
    | Raise _ => Nat.min n 1
    end in
  let urls :=
    list.take 20
      (first_seen (urls_upto check_bracketed_netloc check_nfkc
                     (as_failures get) accepts_all
                     (as_no_links parser_error book_links)
                     goodreads_search_url pages)) in
  (writable "books_url.py" = true →
   url_scraper_main writable check_bracketed_netloc check_nfkc get
     parser_error book_links system_sleep fuel files
   = Some (Ok (<["books_url.py" := file_text urls]> files,
               [Saved "books_url.py"]))) ∧
  (writable "books_url.py" = false →
   url_scraper_main writable check_bracketed_netloc check_nfkc get
     parser_error book_links system_sleep fuel files
   = Some (Ok (files, [WriteFailed "books_url.py"]))) ∧
  (n = 0%nat →
   urls = [] ∧
   file_text urls
   = "book_urls = [" +:+ String newline ("]" +:+ String newline "")).
Proof.
  intros Hstop Hfuel pages urls.
  pose proof (legacy_crawl_stops check_bracketed_netloc check_nfkc get
                parser_error book_links system_sleep goodreads_search_url
                20 2 n fuel Hstop Hfuel) as Hrun.
  change (Z.to_nat 20) with 20%nat in Hrun. cbv zeta in Hrun.
  fold pages in Hrun. fold urls in Hrun.
  unfold url_scraper_main, save_urls_as_array. rewrite Hrun.
  split; [by intros ->|]. split; [by intros ->|].
  intros ->. unfold urls, pages.
  by destruct (time_sleep system_sleep 2).
Qed.

Lemma url_scraper_main_always_writes_witness :
  url_scraper_main (λ _, true) (λ _, true) (λ _, true) empty_shelf
    accepts_all shelf_links sleeps 1 ∅
  = Some (Ok ({["books_url.py" := file_text []]}, [Saved "books_url.py"])).
Proof.
  destruct (url_scraper_main_always_writes (λ _, true) (λ _, true)
              (λ _, true) empty_shelf accepts_all shelf_links sleeps ∅ 0 1)
    as [H _].
  - vm_compute. reflexivity.
  - lia.
  - rewrite H by reflexivity. reflexivity.
Defined.

(** The script on the three pages of [Fixtures.shelf_get]. *)
Example url_scraper_main_sample :
  url_scraper_main (λ _, true) (λ _, true) (λ _, true)
    (λ url, shelf_get
              (if bool_decide (url = goodreads_search_url +:+ "?page=1")
               then shelf +:+ "?page=1"
               else if bool_decide (url = goodreads_search_url +:+ "?page=2")
               then shelf +:+ "?page=2" else url))
    accepts_all shelf_links sleeps 5 ∅
  = Some (Ok ({["books_url.py" :=
                  file_text ["https://www.goodreads.com/book/show/1.A";
                             "https://www.goodreads.com/book/show/2.B";
                             "https://www.goodreads.com/book/show/3.C"]]},
              [Saved "books_url.py"])).
Proof. vm_compute. reflexivity. Qed.

End CrawlerCompare.
